(** * Drive-Ledger: the simulation and scoring core, embedded in Rocq

    The development follows three source files:
    - [services/car-data.service.js]: the diagnostic catalog and the scoring
      functions [getDiagnosticInfo], [getVehicleEfficiencyScore],
      [getDataPointRewardValue], [getDataBatchRewardValue], and the data
      stream [startSimulation] / [stopSimulation];
    - [services/local-drive-simulator.service.js]: the route table,
      [modifyDataForRoute] (as a function of the sample, and statement by
      statement on a heap of objects) and the session controller
      [startSimulation];
    - [services/market-place.service.js]: the data-type table and
      [estimateDataValue].

    JavaScript numbers are IEEE 754 binary64 values; they are modelled by
    Rocq's primitive [float], whose operations are the same binary64
    operations (round to nearest, ties to even), so that every definition
    below evaluates to the number the JavaScript code produces. *)

Set Warnings "-inexact-float".
From Stdlib Require Import ZArith List Bool String Ascii Lia Floats.
From Stdlib Require Import DecimalString.
From Stdlib Require Uint63.
Import ListNotations.

(* ================================================================== *)
(** * Part I. The embedding                                             *)
(* ================================================================== *)

(** ** JavaScript numbers *)

Module JS.

(** An integer as a (non-canonical) binary float with exponent 0; only
    used as an operand of the correctly rounded [SFdiv]. *)
Definition Z2SF (n : Z) : spec_float :=
  match n with
  | Z0 => S754_zero false
  | Zpos p => S754_finite false p 0
  | Zneg p => S754_finite true p 0
  end.

(** The number nearest to the integer [n]. *)
Definition of_Z (n : Z) : float :=
  SF2Prim (binary_normalize prec emax n 0 false).

Definition of_nat (n : nat) : float := of_Z (Z.of_nat n).

(** [ToBoolean] on a number: [NaN], [+0] and [-0] are falsy. *)
Definition truthy (x : float) : bool := negb (is_nan x || is_zero x).

(** [parseFloat(x)] where [x] already is a number: [x] is printed and
    read back, which returns [x], except that [-0] prints as ["0"]. *)
Definition parseFloat (x : float) : float :=
  if is_zero x then zero else x.

(** [Math.max(a, b)]: [NaN] if either is, and [+0] is larger than [-0]. *)
Definition Math_max (a b : float) : float :=
  if is_nan a || is_nan b then nan
  else if (a <? b)%float then b
  else if (b <? a)%float then a
  else if get_sign a then b else a.

(** [Math.min(a, b)]: [NaN] if either is, and [-0] is smaller than [+0]. *)
Definition Math_min (a b : float) : float :=
  if is_nan a || is_nan b then nan
  else if (a <? b)%float then a
  else if (b <? a)%float then b
  else if get_sign a then a else b.

(** [Math.max(...xs)] and [Math.min(...xs)]. *)
Definition Math_max_list (xs : list float) : float :=
  fold_left Math_max xs neg_infinity.
Definition Math_min_list (xs : list float) : float :=
  fold_left Math_min xs infinity.

(** [Math.round(x)]: the integer nearest to [x], ties towards [+Infinity];
    the sign of a zero result is the sign of [x]. *)
Definition Math_round (x : float) : float :=
  match Prim2SF x with
  | S754_finite s m e =>
      if (0 <=? e)%Z then x
      else
        let k := ((2 * cond_Zopp s (Zpos m) + 2 ^ (- e)) / 2 ^ (1 - e))%Z in
        if (k =? 0)%Z then (if s then neg_zero else zero) else of_Z k
  | _ => x
  end.

(** The integer [n] for which [n / 10^d - |x|] is as close to zero as
    possible, the larger one on a tie ([Number.prototype.toFixed], step
    "let n be an integer ..."), computed on the exact value of [x]. *)
Definition scaled_round (d : Z) (x : spec_float) : Z :=
  match x with
  | S754_finite _ m e =>
      let k := (Zpos m * 10 ^ d)%Z in
      if (0 <=? e)%Z then (k * 2 ^ e)%Z
      else ((2 * k + 2 ^ (- e)) / 2 ^ (1 - e))%Z
  | _ => 0%Z
  end.

(** The number nearest to the decimal [n / 10^d], which is what reading
    the digits back gives. *)
Definition decimal_to_number (n d : Z) : float :=
  SF2Prim (SFdiv prec emax (Z2SF n) (Z2SF (10 ^ d))).

(** [parseFloat(x.toFixed(d))]: [x] rounded to [d] decimals.  [toFixed]
    prints [NaN], the infinities and every [|x| >= 1e21] as [String(x)]
    does, and they are read back unchanged. *)
Definition toFixed_parse (d : Z) (x : float) : float :=
  if is_nan x then nan
  else if is_infinity x then x
  else if (1e21 <=? abs x)%float then x
  else
    let q := decimal_to_number (scaled_round d (Prim2SF (abs x))) d in
    if (x <? 0)%float then (- q)%float else q.

End JS.

(** ** Binary64 values: vocabulary of the proofs *)

Module Binary64.

(** A value that is not [NaN] and whose sign bit is [s]. *)
Definition sf_signed (s : bool) (x : spec_float) : Prop :=
  match x with
  | S754_zero s' | S754_infinity s' | S754_finite s' _ _ => s' = s
  | S754_nan => False
  end.

(** A zero or a finite value. *)
Definition sf_finite (x : spec_float) : Prop :=
  match x with
  | S754_zero _ | S754_finite _ _ _ => True
  | _ => False
  end.

(** The hundredths 1500, ..., 6000: the two-decimal values of [15, 60]. *)
Definition hundredths_15_60 : list Z :=
  map (fun i => (1500 + Z.of_nat i)%Z) (seq 0 4501).

(** Where the fraction [a / b] lies between [m] and [m + 1]. *)
Definition loc_of (a b m : Z) : location :=
  if (a =? m * b)%Z then loc_Exact
  else loc_Inexact (2 * (a - m * b) ?= b)%Z.

(** The record [mrs] holds the integer part of [a / b] and the position of
    its fractional part relative to one half. *)
Definition locates (mrs : shr_record) (a b : Z) : Prop :=
  (0 < b)%Z /\ (0 <= shr_m mrs)%Z
  /\ (shr_m mrs * b <= a < (shr_m mrs + 1) * b)%Z
  /\ loc_of_shr_record mrs = loc_of a b (shr_m mrs).

(** [a / b] rounded to the nearest integer, ties to even. *)
Definition rne (a b : Z) : Z :=
  round_nearest_even (a / b) (loc_of a b (a / b)).

(** The value [binary_round_aux] builds from the rounded mantissa
    [c <= 2^53] at the exponent [E]: a mantissa of [2^53] is renormalised. *)
Definition round_result (s : bool) (c E : Z) : spec_float :=
  let m := if (c =? 2 ^ 53)%Z then (2 ^ 52)%Z else c in
  let e := if (c =? 2 ^ 53)%Z then (E + 1)%Z else E in
  match m with
  | Z0 => S754_zero s
  | Zpos p => if (e <=? 971)%Z then S754_finite s p e else S754_infinity s
  | Zneg _ => S754_nan
  end.

(** The exponent at which [binary_round_aux] rounds. *)
Definition round_exp (m e : Z) : Z :=
  Z.max e (fexp prec emax (Zdigits2 m + e)).

(** A mantissa has enough digits at its exponent: rounding does not have
    to invent precision. *)
Definition enough_digits (m e : Z) : Prop :=
  (0 < m)%Z /\ (e <= fexp prec emax (Zdigits2 m + e))%Z.

End Binary64.

(** ** [String(x)] for a number

    [Number::toString] in radix 10: [k] digits [s] and a decimal exponent
    [n] with [s * 10^(n-k)] reading back as [x] and [k] as small as
    possible; then the usual layouts (plain integer, decimal point,
    leading ["0."], exponent form). *)

Module NumberToString.
Local Open Scope string_scope.
Local Open Scope Z_scope.

(** The magnitude of a finite number is the fraction [num / den]. *)
Definition lt_pow10 (num den n : Z) : bool :=
  if 0 <=? n then num <? den * 10 ^ n else num * 10 ^ (- n) <? den.

(** The least [n >= n0] with [num / den < 10^n]. *)
Fixpoint find_exp10 (fuel : nat) (num den n : Z) : Z :=
  match fuel with
  | O => n
  | S f => if lt_pow10 num den n then n else find_exp10 f num den (n + 1)
  end.

(** [floor (num / den / 10^j)]. *)
Definition scaled_floor (num den j : Z) : Z :=
  if 0 <=? j then num / (den * 10 ^ j) else (num * 10 ^ (- j)) / den.

(** The binary64 value nearest to [s * 10^j]. *)
Definition decimal_value (s j : Z) : spec_float :=
  if 0 <=? j then binary_normalize prec emax (s * 10 ^ j) 0 false
  else SFdiv prec emax (JS.Z2SF s) (JS.Z2SF (10 ^ (- j))).

Definition same_magnitude (a b : spec_float) : bool :=
  match a, b with
  | S754_finite _ m1 e1, S754_finite _ m2 e2 => Pos.eqb m1 m2 && (e1 =? e2)
  | _, _ => false
  end.

(** Is [lo * 10^j] nearer to [num / den] than [(lo + 1) * 10^j]?  On a
    tie the even digit string is taken. *)
Definition nearer_low (num den lo j : Z) : bool :=
  let c := if 0 <=? j then (2 * num ?= (2 * lo + 1) * 10 ^ j * den)
           else (2 * num * 10 ^ (- j) ?= (2 * lo + 1) * den) in
  match c with Lt => true | Gt => false | Eq => Z.even lo end.

(** The shortest digit string: [(s, k, n)], trying [k = 1, 2, ...]. *)
Fixpoint shortest (fuel : nat) (x : spec_float) (num den n0 k : Z)
  : Z * Z * Z :=
  match fuel with
  | O => (0, k, n0)
  | S f =>
      let j := n0 - k in
      let lo := scaled_floor num den j in
      let hi := lo + 1 in
      let oklo := (10 ^ (k - 1) <=? lo) && same_magnitude (decimal_value lo j) x in
      let okhi := same_magnitude (decimal_value hi j) x in
      let pick_hi :=
        if hi =? 10 ^ k then (10 ^ (k - 1), k, n0 + 1) else (hi, k, n0) in
      if oklo && okhi
      then (if nearer_low num den lo j then (lo, k, n0) else pick_hi)
      else if oklo then (lo, k, n0)
      else if okhi then pick_hi
      else shortest f x num den n0 (k + 1)
  end.

Definition digits (n : Z) : string :=
  NilZero.string_of_uint (N.to_uint (Z.to_N n)).

Fixpoint zeros (n : nat) : string :=
  match n with O => "" | S k => "0" ++ zeros k end.

Definition take (n : Z) (s : string) : string :=
  substring 0 (Z.to_nat n) s.

Definition drop (n : Z) (s : string) : string :=
  substring (Z.to_nat n) (String.length s - Z.to_nat n) s.

Definition Number_toString (x : float) : string :=
  match Prim2SF x with
  | S754_nan => "NaN"
  | S754_zero _ => "0"
  | S754_infinity s => if s then "-Infinity" else "Infinity"
  | S754_finite sg m e =>
      let num := if 0 <=? e then Zpos m * 2 ^ e else Zpos m in
      let den := if 0 <=? e then 1 else 2 ^ (- e) in
      let b := Zpos (digits2_pos m) + e in
      let n0 := find_exp10 8 num den ((b - 1) * 30103 / 100000 - 2) in
      let '(s, k, n) := shortest 17 (Prim2SF x) num den n0 1 in
      let ds := digits s in
      let body :=
        if (k <=? n) && (n <=? 21) then ds ++ zeros (Z.to_nat (n - k))
        else if (0 <? n) && (n <=? 21) then take n ds ++ "." ++ drop n ds
        else if (-6 <? n) && (n <=? 0)
             then "0." ++ zeros (Z.to_nat (- n)) ++ ds
        else
          let ex := n - 1 in
          let es := (if ex <? 0 then "-" else "+") ++ digits (Z.abs ex) in
          if k =? 1 then ds ++ "e" ++ es
          else take 1 ds ++ "." ++ drop 1 ds ++ "e" ++ es in
      if sg then "-" ++ body else body
  end.

End NumberToString.

(** ** JavaScript strings and object literals *)

Module JSString.
Local Open Scope string_scope.

(** Characters are 8-bit code units.  [trim] removes white space and
    line terminators: TAB, LF, VT, FF, CR, SPACE and NBSP in this range. *)
Definition is_white (c : ascii) : bool :=
  let n := N_of_ascii c in
  existsb (N.eqb n) [9; 10; 11; 12; 13; 32; 160]%N.

(** [s.trim() !== ''] *)
Definition trim_nonempty (s : string) : bool :=
  existsb (fun c => negb (is_white c)) (list_ascii_of_string s).

(** [ToBoolean] on a string. *)
Definition truthy (s : string) : bool := negb (String.eqb s "").

(** [s.includes(c)] for a one-character [c]. *)
Definition includes (c : ascii) (s : string) : bool :=
  existsb (Ascii.eqb c) (list_ascii_of_string s).

(** [s.split(c)] for a one-character separator. *)
Fixpoint split (c : ascii) (s : string) : list string :=
  match s with
  | EmptyString => [EmptyString]
  | String a rest =>
      if Ascii.eqb a c then EmptyString :: split c rest
      else match split c rest with
           | [] => [String a EmptyString]
           | seg :: segs => String a seg :: segs
           end
  end.

(** An optional string field holds [undefined] ([None]) or a string. *)
Definition show (o : option string) : string :=
  match o with Some s => s | None => "undefined" end.
End JSString.

Module JSObject.
Local Open Scope string_scope.

(** Reading [obj[key]] on an object literal finds an own property, or a
    member inherited from [Object.prototype], or [undefined]. *)
Inductive lookup (A : Type) : Type :=
| Found (a : A)
| Inherited (key : string)
| Missing.
Arguments Found {A} a.
Arguments Inherited {A} key.
Arguments Missing {A}.

Definition Object_prototype_keys : list string :=
  [ "constructor"; "__defineGetter__"; "__defineSetter__"; "hasOwnProperty";
    "__lookupGetter__"; "__lookupSetter__"; "isPrototypeOf";
    "propertyIsEnumerable"; "toString"; "valueOf"; "__proto__";
    "toLocaleString" ].

Fixpoint own {A} (props : list (string * A)) (key : string) : option A :=
  match props with
  | [] => None
  | (k, v) :: rest => if String.eqb k key then Some v else own rest key
  end.

Definition get {A} (props : list (string * A)) (key : string) : lookup A :=
  match own props key with
  | Some v => Found v
  | None =>
      if existsb (String.eqb key) Object_prototype_keys
      then Inherited key else Missing
  end.

(** Every own value of the tables below is an object, and every inherited
    member is a function or an object: all are truthy. *)
Definition truthy {A} (r : lookup A) : bool :=
  match r with Missing => false | _ => true end.

(** The [name] property of an inherited member. *)
Definition inherited_name (key : string) : option string :=
  if String.eqb key "constructor" then Some "Object"
  else if String.eqb key "__proto__" then None
  else Some key.
End JSObject.

(** A call returns a value or throws an [Error] with a message. *)
Inductive outcome (A : Type) : Type :=
| Returns (a : A)
| Throws (message : string).
Arguments Returns {A} a.
Arguments Throws {A} message.

(** ** Telemetry samples *)

(** One reading of the corpus [synthetic_obd_data_24h.json]; [dtc_code] is
    [None] when the property is absent. *)
Record DataPoint : Type := {
  timestamp : string;
  speed_kmph : float;
  engine_rpm : float;
  fuel_level_pct : float;
  engine_temp_c : float;
  lat : float;
  lon : float;
  dtc_code : option string
}.

(** [point.dtc_code && point.dtc_code.trim() !== ''] *)
Definition has_dtc (point : DataPoint) : bool :=
  match dtc_code point with
  | None => false
  | Some c => JSString.truthy c && JSString.trim_nonempty c
  end.

(** The sample [{ ...point, dtc_code: code }]. *)
Definition with_dtc_code (code : option string) (point : DataPoint)
  : DataPoint :=
  {| timestamp := timestamp point;
     speed_kmph := speed_kmph point;
     engine_rpm := engine_rpm point;
     fuel_level_pct := fuel_level_pct point;
     engine_temp_c := engine_temp_c point;
     lat := lat point;
     lon := lon point;
     dtc_code := code |}.

(** The assignments [point.speed_kmph = v], [point.engine_rpm = v],
    [point.fuel_level_pct = v] and [point.engine_temp_c = v], as changes
    of the object's contents. *)
Definition set_speed_kmph (v : float) (point : DataPoint) : DataPoint :=
  {| timestamp := timestamp point;
     speed_kmph := v;
     engine_rpm := engine_rpm point;
     fuel_level_pct := fuel_level_pct point;
     engine_temp_c := engine_temp_c point;
     lat := lat point;
     lon := lon point;
     dtc_code := dtc_code point |}.

Definition set_engine_rpm (v : float) (point : DataPoint) : DataPoint :=
  {| timestamp := timestamp point;
     speed_kmph := speed_kmph point;
     engine_rpm := v;
     fuel_level_pct := fuel_level_pct point;
     engine_temp_c := engine_temp_c point;
     lat := lat point;
     lon := lon point;
     dtc_code := dtc_code point |}.

Definition set_fuel_level_pct (v : float) (point : DataPoint) : DataPoint :=
  {| timestamp := timestamp point;
     speed_kmph := speed_kmph point;
     engine_rpm := engine_rpm point;
     fuel_level_pct := v;
     engine_temp_c := engine_temp_c point;
     lat := lat point;
     lon := lon point;
     dtc_code := dtc_code point |}.

Definition set_engine_temp_c (v : float) (point : DataPoint) : DataPoint :=
  {| timestamp := timestamp point;
     speed_kmph := speed_kmph point;
     engine_rpm := engine_rpm point;
     fuel_level_pct := fuel_level_pct point;
     engine_temp_c := v;
     lat := lat point;
     lon := lon point;
     dtc_code := dtc_code point |}.

(** ** Objects and references

    A function that is handed a sample is handed a reference to an object
    its caller still holds: the samples of the corpus are emitted again on
    every round of the stream.  Where it matters which object an
    assignment writes, the objects live in a heap and the code is a
    sequence of reads and writes through references. *)

Module Heap.

(** The objects in the order of their creation; a reference is the
    position of its object. *)
Definition ref : Type := nat.
Definition heap : Type := list DataPoint.

Definition read (h : heap) (r : ref) : option DataPoint := nth_error h r.

(** A new object with the contents [o], and its reference. *)
Definition alloc (o : DataPoint) (h : heap) : ref * heap :=
  (List.length h, (h ++ [o])%list).

(** The heap after a change of the object at [r]. *)
Fixpoint update (r : ref) (write : DataPoint -> DataPoint) (h : heap)
  : heap :=
  match h, r with
  | [], _ => []
  | o :: rest, O => write o :: rest
  | o :: rest, S r' => o :: update r' write rest
  end.

(** A computation on the heap.  It has no result ([None]) when it uses a
    reference that names no object, which no JavaScript program can
    hold. *)
Definition M (A : Type) : Type := heap -> option (A * heap).

Definition ret {A} (a : A) : M A := fun h => Some (a, h).

Definition bind {A B} (m : M A) (k : A -> M B) : M B :=
  fun h =>
    match m h with
    | Some (a, h') => k a h'
    | None => None
    end.

(** The expression [r.field] *)
Definition get {A} (r : ref) (field : DataPoint -> A) : M A :=
  fun h =>
    match read h r with
    | Some o => Some (field o, h)
    | None => None
    end.

(** The statement [r.field = v], with [write] the assignment. *)
Definition set (r : ref) (write : DataPoint -> DataPoint) : M unit :=
  fun h =>
    match read h r with
    | Some _ => Some (tt, update r write h)
    | None => None
    end.

(** The expression [{ ...r }] *)
Definition spread (r : ref) : M ref :=
  fun h =>
    match read h r with
    | Some o => Some (alloc o h)
    | None => None
    end.

End Heap.

(** ** [CarDataService] (car-data.service.js) *)

Module CarDataService.
Local Open Scope string_scope.
Local Open Scope float_scope.

(** An entry of the diagnostic catalog. *)
Record DiagnosticEntry : Type := {
  description : string;
  severity : string;
  impact : string;
  rewardImpact : float
}.

(** The object literal [dtcInfo] of [getDiagnosticInfo]. *)
Definition dtcInfo : list (string * DiagnosticEntry) :=
  [ ("P0420", {| description := "Catalyst System Efficiency Below Threshold";
                 severity := "Medium";
                 impact := "May affect emissions and fuel efficiency";
                 rewardImpact := -15 |});
    ("P0171", {| description := "System Too Lean (Bank 1)";
                 severity := "Medium";
                 impact := "May cause rough idling and reduced fuel efficiency";
                 rewardImpact := -10 |});
    ("P0300", {| description := "Random/Multiple Cylinder Misfire Detected";
                 severity := "High";
                 impact := "Can damage catalytic converter if ignored";
                 rewardImpact := -25 |}) ].

(** [dtcCode && dtcInfo[dtcCode] ? dtcInfo[dtcCode] : null]; [Missing]
    stands for [null]. *)
Definition getDiagnosticInfo (dtcCode : string)
  : JSObject.lookup DiagnosticEntry :=
  if JSString.truthy dtcCode && JSObject.truthy (JSObject.get dtcInfo dtcCode)
  then JSObject.get dtcInfo dtcCode
  else JSObject.Missing.

(** [dataPoints.slice(-n)] for a count [n]: the last [n] elements, and the
    whole array for [n = 0], since [-0] is the index [0]. *)
Definition slice_last (n : nat) {A} (xs : list A) : list A :=
  match n with
  | O => xs
  | _ => skipn (List.length xs - n) xs
  end.

(** [xs.reduce((sum, point) => sum + parseFloat(f(point)), 0)] *)
Definition sum_by {A} (f : A -> float) (xs : list A) : float :=
  fold_left (fun sum point => sum + JS.parseFloat (f point)) xs 0.

(** The object [calculateFuelConsumption] returns. *)
Record FuelConsumption : Type := {
  fuelUsedPercent : float;
  distanceTraveled : float;
  avgConsumption : float;
  efficiency : float
}.

(** [calculateFuelConsumption(dataPoints, timeframeMinutes)]; [Returns None]
    is the [null] of the early [return].  Reading [fuel_level_pct] of
    [limitedDataPoints[0]] throws a [TypeError] when the array is empty. *)
Definition calculateFuelConsumption
  (dataPoints : list DataPoint) (timeframeMinutes : nat)
  : outcome (option FuelConsumption) :=
  if (List.length dataPoints <? 2)%nat then Returns None
  else
    let limitedDataPoints := slice_last timeframeMinutes dataPoints in
    match limitedDataPoints with
    | [] =>
        Throws "Cannot read properties of undefined (reading 'fuel_level_pct')"
    | first :: _ =>
        let initialFuel := fuel_level_pct first in
        let finalFuel := fuel_level_pct (last limitedDataPoints first) in
        let fuelUsed := initialFuel - finalFuel in
        let totalSeconds := JS.of_nat (List.length limitedDataPoints) * 60 in
        let avgSpeed :=
          sum_by speed_kmph limitedDataPoints
          / JS.of_nat (List.length limitedDataPoints) in
        let distance := (avgSpeed * totalSeconds) / 3600 in
        Returns
          (Some
             {| fuelUsedPercent := if 0 <? fuelUsed then fuelUsed else 0;
                distanceTraveled := JS.toFixed_parse 2 distance;
                avgConsumption :=
                  if 0 <? distance
                  then JS.toFixed_parse 2 (fuelUsed / distance) else 0;
                efficiency :=
                  if 0 <? fuelUsed
                  then JS.toFixed_parse 2 (distance / fuelUsed) else 0 |})
    end.

(** The body of [getVehicleEfficiencyScore] after the length test. *)
Definition efficiency_of_window (limitedDataPoints : list DataPoint) : float :=
  let n := JS.of_nat (List.length limitedDataPoints) in
  let avgRPM := sum_by engine_rpm limitedDataPoints / n in
  let avgSpeed := sum_by speed_kmph limitedDataPoints / n in
  let hasErrors := existsb has_dtc limitedDataPoints in
  let score := avgSpeed / (avgRPM / 1000) * 10 in
  let score := if hasErrors then score * 0.7 else score in
  JS.Math_min (JS.Math_max (JS.Math_round score) 0) 100.

Definition getVehicleEfficiencyScore
  (dataPoints : list DataPoint) (timeframeMinutes : nat) : float :=
  if (List.length dataPoints <? 5)%nat then 0
  else efficiency_of_window (slice_last timeframeMinutes dataPoints).

Definition getDataPointRewardValue (dataPoint : DataPoint) : float :=
  let baseReward := 0.01 in
  let speed := JS.parseFloat (speed_kmph dataPoint) in
  let baseReward :=
    if (40 <=? speed) && (speed <=? 80) then baseReward * 1.2
    else baseReward in
  let rpm := JS.parseFloat (engine_rpm dataPoint) in
  let baseReward :=
    if (1500 <=? rpm) && (rpm <=? 2500) then baseReward * 1.15
    else baseReward in
  let baseReward :=
    if has_dtc dataPoint then
      match dtc_code dataPoint with
      | Some code =>
          match getDiagnosticInfo code with
          | JSObject.Found info =>
              if JS.truthy (rewardImpact info)
              then baseReward * (1 + rewardImpact info / 100)
              else baseReward
          | _ => baseReward
          end
      | None => baseReward
      end
    else baseReward in
  JS.toFixed_parse 4 baseReward.

Definition getDataBatchRewardValue (dataPoints : list DataPoint) : float :=
  match dataPoints with
  | [] => 0
  | _ =>
      let totalReward :=
        fold_left (fun total dataPoint =>
                     total + getDataPointRewardValue dataPoint)
                  dataPoints 0 in
      let totalReward :=
        if (10 <? List.length dataPoints)%nat then totalReward * 1.1
        else totalReward in
      JS.toFixed_parse 4 totalReward
  end.

(** The six draws of [Math.random()] made by [addRandomVariation]. *)
Record Jitter : Type := {
  j_speed : float; j_rpm : float; j_fuel : float;
  j_temp : float; j_lat : float; j_lon : float
}.

Definition addRandomVariation (r : Jitter) (data : DataPoint) : DataPoint :=
  {| timestamp := timestamp data;
     speed_kmph :=
       if JS.truthy (speed_kmph data)
       then JS.toFixed_parse 2 (speed_kmph data * (1 + (j_speed r * 0.1 - 0.05)))
       else speed_kmph data;
     engine_rpm :=
       if JS.truthy (engine_rpm data)
       then JS.Math_round (engine_rpm data * (1 + (j_rpm r * 0.08 - 0.04)))
       else engine_rpm data;
     fuel_level_pct :=
       if JS.truthy (fuel_level_pct data)
       then JS.toFixed_parse 2 (fuel_level_pct data * (1 + (j_fuel r * 0.02 - 0.01)))
       else fuel_level_pct data;
     engine_temp_c :=
       if JS.truthy (engine_temp_c data)
       then JS.toFixed_parse 1 (engine_temp_c data * (1 + (j_temp r * 0.05 - 0.025)))
       else engine_temp_c data;
     lat :=
       if JS.truthy (lat data)
       then JS.toFixed_parse 6 (JS.parseFloat (lat data) + (j_lat r * 0.0002 - 0.0001))
       else lat data;
     lon :=
       if JS.truthy (lon data)
       then JS.toFixed_parse 6 (JS.parseFloat (lon data) + (j_lon r * 0.0002 - 0.0001))
       else lon data;
     dtc_code := dtc_code data |}.

(** The static fields of the class that the stream uses. *)
Record State : Type := {
  syntheticData : list DataPoint;
  isStreaming : bool;
  currentDataIndex : nat
}.

(** [startSimulation(intervalMs)]: [Returns true] hands out the stream,
    [Returns false] is the [undefined] of the early [return]. *)
Definition startSimulation (st : State) : outcome bool * State :=
  if isStreaming st then (Returns false, st)
  else if (List.length (syntheticData st) =? 0)%nat
  then (Throws "No synthetic data loaded. Call loadSyntheticData first.", st)
  else (Returns true,
        {| syntheticData := syntheticData st;
           isStreaming := true;
           currentDataIndex := currentDataIndex st |}).

Definition stopSimulation (st : State) : State :=
  if negb (isStreaming st) then st
  else {| syntheticData := syntheticData st;
          isStreaming := false;
          currentDataIndex := currentDataIndex st |}.

(** The sample the interval callback reads: the cursor wraps to 0 past
    the end. *)
Definition cursor (st : State) : nat :=
  if (List.length (syntheticData st) <=? currentDataIndex st)%nat then 0%nat
  else currentDataIndex st.

Definition advance (st : State) : State :=
  {| syntheticData := syntheticData st;
     isStreaming := isStreaming st;
     currentDataIndex := S (cursor st) |}.

(** [getLastData()]: the sample before the cursor, and the last sample of
    the corpus while the cursor is at 0.  [None] stands for [null] (no
    corpus) and for [undefined] (no element at that index). *)
Definition getLastData (st : State) : option DataPoint :=
  if (List.length (syntheticData st) =? 0)%nat then None
  else
    let index :=
      if (0 <? currentDataIndex st)%nat then (currentDataIndex st - 1)%nat
      else (List.length (syntheticData st) - 1)%nat in
    nth_error (syntheticData st) index.

End CarDataService.

(** ** [LocalDriveSimulator] (local-drive-simulator.service.js) *)

Module LocalDriveSimulator.
Local Open Scope string_scope.
Local Open Scope float_scope.

Record RouteProfile : Type := {
  name : string;
  description : string;
  averageSpeed : float;
  maxSpeed : float;
  trafficDensity : string;
  distance : float;
  estimatedTime : float;
  fuelConsumption : string;
  elevationChange : string
}.

(** The static table [routes]. *)
Definition routes : list (string * RouteProfile) :=
  [ ("URBAN", {| name := "Urban City Drive";
                 description := "Dense city traffic with stops and moderate speeds";
                 averageSpeed := 35; maxSpeed := 60;
                 trafficDensity := "high"; distance := 12.5;
                 estimatedTime := 25; fuelConsumption := "moderate";
                 elevationChange := "low" |});
    ("HIGHWAY", {| name := "Highway Cruise";
                   description := "Fast highway driving with consistent speeds";
                   averageSpeed := 85; maxSpeed := 110;
                   trafficDensity := "low"; distance := 45.0;
                   estimatedTime := 35; fuelConsumption := "efficient";
                   elevationChange := "moderate" |});
    ("MOUNTAIN", {| name := "Mountain Pass";
                    description := "Winding roads with elevation changes and variable speeds";
                    averageSpeed := 45; maxSpeed := 70;
                    trafficDensity := "very low"; distance := 28.0;
                    estimatedTime := 40; fuelConsumption := "high";
                    elevationChange := "high" |});
    ("RURAL", {| name := "Country Roads";
                 description := "Relaxed driving through farmland and villages";
                 averageSpeed := 55; maxSpeed := 80;
                 trafficDensity := "very low"; distance := 32.0;
                 estimatedTime := 35; fuelConsumption := "moderate";
                 elevationChange := "moderate" |}) ].

(** [route.maxSpeed]; a member inherited from [Object.prototype] has no
    such property, and [undefined] is [NaN] as a number. *)
Definition route_maxSpeed (route : JSObject.lookup RouteProfile) : float :=
  match route with
  | JSObject.Found r => maxSpeed r
  | _ => nan
  end.

(** [route.name] *)
Definition route_name (route : JSObject.lookup RouteProfile) : option string :=
  match route with
  | JSObject.Found r => Some (name r)
  | JSObject.Inherited key => JSObject.inherited_name key
  | JSObject.Missing => None
  end.

(** What one call of [modifyDataForRoute] reads from outside: the results
    of its calls of [Math.random()], in program order, and the value of
    [Math.sin(Date.now() / 5000)]. *)
Record Entropy : Type := {
  rnd_speed : float;   (* the draw in the speed formula *)
  rnd_dtc : float;     (* the draw that decides whether a code is set *)
  rnd_code : float;    (* the draw that picks the code *)
  sin_now : float
}.

(** The constant [fuelConsumptionFactor], from the rounded speed. *)
Definition fuelConsumptionFactor (speed : float) : float :=
  if (50 <? speed) && (speed <? 90) then 0.9 else 1.2.

Definition modifyDataForRoute
  (w : Entropy) (dataPoint : DataPoint) (routeType : string) : DataPoint :=
  let route := JSObject.get routes routeType in
  (* the [switch]: speed, rpm, temperature and code of each case *)
  let '(speed, rpm, temp, code) :=
    if String.eqb routeType "URBAN" then
      let speed :=
        JS.Math_min
          (JS.Math_max 15 (speed_kmph dataPoint * 0.6 + rnd_speed w * 20 - 10))
          (route_maxSpeed route) in
      (speed, 1000 + speed * 30, engine_temp_c dataPoint,
       if rnd_dtc w <? 0.1
       then Some (if rnd_code w <? 0.7 then "P0420" else "P0171")
       else dtc_code dataPoint)
    else if String.eqb routeType "HIGHWAY" then
      let speed :=
        JS.Math_min
          (JS.Math_max 70 (speed_kmph dataPoint * 1.2 + rnd_speed w * 10 - 5))
          (route_maxSpeed route) in
      (speed, 1500 + speed * 20, engine_temp_c dataPoint,
       if rnd_dtc w <? 0.03 then Some "P0420" else dtc_code dataPoint)
    else if String.eqb routeType "MOUNTAIN" then
      let speed :=
        JS.Math_min
          (JS.Math_max 20 (speed_kmph dataPoint * 0.8 + sin_now w * 25))
          (route_maxSpeed route) in
      (speed, 2000 + speed * 35, engine_temp_c dataPoint * 1.1,
       if rnd_dtc w <? 0.07
       then Some (if rnd_code w <? 0.4 then "P0300" else "P0171")
       else dtc_code dataPoint)
    else if String.eqb routeType "RURAL" then
      let speed :=
        JS.Math_min
          (JS.Math_max 40 (speed_kmph dataPoint * 0.9 + rnd_speed w * 15 - 5))
          (route_maxSpeed route) in
      (speed, 1200 + speed * 25, engine_temp_c dataPoint,
       if rnd_dtc w <? 0.02 then Some "P0171" else dtc_code dataPoint)
    else
      (speed_kmph dataPoint, engine_rpm dataPoint, engine_temp_c dataPoint,
       dtc_code dataPoint) in
  (* rounding *)
  let speed := JS.toFixed_parse 2 speed in
  let rpm := JS.Math_round rpm in
  let temp := JS.toFixed_parse 1 temp in
  (* fuel *)
  let fuel :=
    JS.Math_max 0
      (fuel_level_pct dataPoint
       - (0.01 * fuelConsumptionFactor speed * (rpm / 2000))) in
  let fuel := JS.toFixed_parse 2 fuel in
  {| timestamp := timestamp dataPoint;
     speed_kmph := speed;
     engine_rpm := rpm;
     fuel_level_pct := fuel;
     engine_temp_c := temp;
     lat := lat dataPoint;
     lon := lon dataPoint;
     dtc_code := code |}.

(** [modifyDataForRoute] statement by statement, on the heap: [dataPoint]
    and [modifiedData] are references, every [modifiedData.x = e] is a
    write through the second and every [dataPoint.x] a read through the
    first.  The result is the reference the function returns. *)
Module Imperative.

Local Notation "x <- m ;; k" := (Heap.bind m (fun x => k))
  (at level 61, m at next level, right associativity).
Local Notation "m ;; k" := (Heap.bind m (fun _ => k))
  (at level 61, right associativity).

Definition modifyDataForRoute
  (w : Entropy) (dataPoint : Heap.ref) (routeType : string)
  : Heap.M Heap.ref :=
  let route := JSObject.get routes routeType in
  modifiedData <- Heap.spread dataPoint ;;
  (if String.eqb routeType "URBAN" then
     speed <- Heap.get dataPoint speed_kmph ;;
     Heap.set modifiedData
       (set_speed_kmph
          (JS.Math_min
             (JS.Math_max 15 (speed * 0.6 + rnd_speed w * 20 - 10))
             (route_maxSpeed route))) ;;
     speed <- Heap.get modifiedData speed_kmph ;;
     Heap.set modifiedData (set_engine_rpm (1000 + speed * 30)) ;;
     (if rnd_dtc w <? 0.1 then
        Heap.set modifiedData
          (with_dtc_code
             (Some (if rnd_code w <? 0.7 then "P0420" else "P0171")))
      else Heap.ret tt)
   else if String.eqb routeType "HIGHWAY" then
     speed <- Heap.get dataPoint speed_kmph ;;
     Heap.set modifiedData
       (set_speed_kmph
          (JS.Math_min
             (JS.Math_max 70 (speed * 1.2 + rnd_speed w * 10 - 5))
             (route_maxSpeed route))) ;;
     speed <- Heap.get modifiedData speed_kmph ;;
     Heap.set modifiedData (set_engine_rpm (1500 + speed * 20)) ;;
     (if rnd_dtc w <? 0.03 then
        Heap.set modifiedData (with_dtc_code (Some "P0420"))
      else Heap.ret tt)
   else if String.eqb routeType "MOUNTAIN" then
     speed <- Heap.get dataPoint speed_kmph ;;
     Heap.set modifiedData
       (set_speed_kmph
          (JS.Math_min
             (JS.Math_max 20 (speed * 0.8 + sin_now w * 25))
             (route_maxSpeed route))) ;;
     speed <- Heap.get modifiedData speed_kmph ;;
     Heap.set modifiedData (set_engine_rpm (2000 + speed * 35)) ;;
     temp <- Heap.get dataPoint engine_temp_c ;;
     Heap.set modifiedData (set_engine_temp_c (temp * 1.1)) ;;
     (if rnd_dtc w <? 0.07 then
        Heap.set modifiedData
          (with_dtc_code
             (Some (if rnd_code w <? 0.4 then "P0300" else "P0171")))
      else Heap.ret tt)
   else if String.eqb routeType "RURAL" then
     speed <- Heap.get dataPoint speed_kmph ;;
     Heap.set modifiedData
       (set_speed_kmph
          (JS.Math_min
             (JS.Math_max 40 (speed * 0.9 + rnd_speed w * 15 - 5))
             (route_maxSpeed route))) ;;
     speed <- Heap.get modifiedData speed_kmph ;;
     Heap.set modifiedData (set_engine_rpm (1200 + speed * 25)) ;;
     (if rnd_dtc w <? 0.02 then
        Heap.set modifiedData (with_dtc_code (Some "P0171"))
      else Heap.ret tt)
   else Heap.ret tt) ;;
  (* rounding *)
  speed <- Heap.get modifiedData speed_kmph ;;
  Heap.set modifiedData (set_speed_kmph (JS.toFixed_parse 2 speed)) ;;
  rpm <- Heap.get modifiedData engine_rpm ;;
  Heap.set modifiedData (set_engine_rpm (JS.Math_round rpm)) ;;
  temp <- Heap.get modifiedData engine_temp_c ;;
  Heap.set modifiedData (set_engine_temp_c (JS.toFixed_parse 1 temp)) ;;
  (* fuel *)
  speed <- Heap.get modifiedData speed_kmph ;;
  let fuelConsumptionFactor := fuelConsumptionFactor speed in
  fuel <- Heap.get dataPoint fuel_level_pct ;;
  rpm <- Heap.get modifiedData engine_rpm ;;
  Heap.set modifiedData
    (set_fuel_level_pct
       (JS.Math_max 0
          (fuel - (0.01 * fuelConsumptionFactor * (rpm / 2000))))) ;;
  fuel <- Heap.get modifiedData fuel_level_pct ;;
  Heap.set modifiedData (set_fuel_level_pct (JS.toFixed_parse 2 fuel)) ;;
  Heap.ret modifiedData.

End Imperative.

(** The static fields of the class, the subscription made by
    [startSimulation] (the callback closes over the route type and the
    duration), and the state of [CarDataService]. *)
Record State : Type := {
  isSimulating : bool;
  simulationData : list DataPoint;
  currentRoute : option string;
  simulationStartTimestamp : option float;
  simulationElapsedTime : float;
  subscription : option (string * float);
  car : CarDataService.State
}.

Definition initial (corpus : list DataPoint) : State :=
  {| isSimulating := false;
     simulationData := [];
     currentRoute := None;
     simulationStartTimestamp := None;
     simulationElapsedTime := 0;
     subscription := None;
     car := {| CarDataService.syntheticData := corpus;
               CarDataService.isStreaming := false;
               CarDataService.currentDataIndex := 0 |} |}.

(** The object [startSimulation] resolves to. *)
Record StartResult : Type := {
  success : bool;
  route : option string;
  estimatedDuration : option float;
  message : string
}.

Definition failure (msg : string) : StartResult :=
  {| success := false; route := None; estimatedDuration := None;
     message := msg |}.

Definition with_car (st : State) (c : CarDataService.State) : State :=
  {| isSimulating := isSimulating st;
     simulationData := simulationData st;
     currentRoute := currentRoute st;
     simulationStartTimestamp := simulationStartTimestamp st;
     simulationElapsedTime := simulationElapsedTime st;
     subscription := subscription st;
     car := c |}.

(** [Object.keys(routes).join(', ')] *)
Definition route_keys : string :=
  String.concat ", " (map fst routes).

(** [startSimulation(routeType, durationMinutes)].  [now] is the value of
    [new Date()], and [load] is what [CarDataService.loadSyntheticData()]
    does if it is called: it stores a corpus, or it throws. *)
Definition startSimulation
  (now : float) (load : outcome (list DataPoint))
  (routeType : string) (durationMinutes : float) (st : State)
  : outcome StartResult * State :=
  if isSimulating st then
    (Returns (failure "A simulation is already running"), st)
  else
    let loaded :=
      if (List.length (CarDataService.syntheticData (car st)) =? 0)%nat then
        match load with
        | Returns corpus =>
            Returns (with_car st
                       {| CarDataService.syntheticData := corpus;
                          CarDataService.isStreaming :=
                            CarDataService.isStreaming (car st);
                          CarDataService.currentDataIndex :=
                            CarDataService.currentDataIndex (car st) |})
        | Throws e => Throws e
        end
      else Returns st in
    match loaded with
    | Throws _ => (Returns (failure "Failed to load simulation data"), st)
    | Returns st =>
        let route := JSObject.get routes routeType in
        if negb (JSObject.truthy route) then
          (Returns (failure ("Invalid route type. Choose from: " ++ route_keys)),
           st)
        else
          let st :=
            {| isSimulating := true;
               simulationData := [];
               currentRoute := Some routeType;
               simulationStartTimestamp := Some now;
               simulationElapsedTime := 0;
               subscription := subscription st;
               car := car st |} in
          match CarDataService.startSimulation (car st) with
          | (Throws e, c) => (Throws e, with_car st c)
          | (Returns false, c) =>
              (* [stream] is [undefined]: [stream.subscribe] throws *)
              (Throws "TypeError: Cannot read properties of undefined (reading 'subscribe')",
               with_car st c)
          | (Returns true, c) =>
              let st :=
                {| isSimulating := isSimulating st;
                   simulationData := simulationData st;
                   currentRoute := currentRoute st;
                   simulationStartTimestamp := simulationStartTimestamp st;
                   simulationElapsedTime := simulationElapsedTime st;
                   subscription := Some (routeType, durationMinutes);
                   car := c |} in
              (Returns
                 {| success := true;
                    route := route_name route;
                    estimatedDuration := Some durationMinutes;
                    message :=
                      "Started a " ++ JSString.show (route_name route)
                      ++ " simulation for "
                      ++ NumberToString.Number_toString durationMinutes
                      ++ " minutes" |},
               st)
          end
    end.

(** The state change of [stopSimulation()]; the summary it returns is
    computed from [simulationData], which it leaves in place. *)
Definition stopSimulation (st : State) : bool * State :=
  if negb (isSimulating st) then (false, st)
  else
    (true,
     {| isSimulating := false;
        simulationData := simulationData st;
        currentRoute := currentRoute st;
        simulationStartTimestamp := simulationStartTimestamp st;
        simulationElapsedTime := simulationElapsedTime st;
        subscription := None;
        car := CarDataService.stopSimulation (car st) |}).

(** The subscriber of the data stream: one emitted point is transformed
    and stored, and the session stops once it holds [durationMinutes * 60]
    points. *)
Definition onData
  (w : Entropy) (dataPoint : DataPoint) (st : State) : State :=
  match subscription st with
  | None => st
  | Some (routeType, durationMinutes) =>
      let modifiedData := modifyDataForRoute w dataPoint routeType in
      let st :=
        {| isSimulating := isSimulating st;
           simulationData := simulationData st ++ [modifiedData];
           currentRoute := currentRoute st;
           simulationStartTimestamp := simulationStartTimestamp st;
           simulationElapsedTime := simulationElapsedTime st;
           subscription := subscription st;
           car := car st |} in
      let elapsedMinutes := JS.of_nat (List.length (simulationData st)) / 60 in
      if durationMinutes <=? elapsedMinutes then snd (stopSimulation st)
      else st
  end.

(** One firing of the stream's interval: the sample under the cursor is
    jittered, emitted to the subscriber, and the cursor advances. *)
Definition tick
  (r : CarDataService.Jitter) (w : Entropy) (st : State) : State :=
  if negb (CarDataService.isStreaming (car st)) then st
  else
    let i := CarDataService.cursor (car st) in
    match nth_error (CarDataService.syntheticData (car st)) i with
    | None => st
    | Some currentData =>
        let variationData := CarDataService.addRandomVariation r currentData in
        let st := with_car st
                    {| CarDataService.syntheticData :=
                         CarDataService.syntheticData (car st);
                       CarDataService.isStreaming :=
                         CarDataService.isStreaming (car st);
                       CarDataService.currentDataIndex := i |} in
        let st := onData w variationData st in
        with_car st
          {| CarDataService.syntheticData :=
               CarDataService.syntheticData (car st);
             CarDataService.isStreaming :=
               CarDataService.isStreaming (car st);
             CarDataService.currentDataIndex := S i |}
    end.


End LocalDriveSimulator.

(** ** Sessions: vocabulary of the proofs *)

Module SessionState.





End SessionState.

(** ** [MarketplaceService] (market-place.service.js) *)

Module MarketplaceService.
Local Open Scope string_scope.
Local Open Scope float_scope.

Record DataType : Type := {
  name : string;
  description : string;
  privacyImpact : string;
  baseValue : float;
  fields : list string
}.

(** The static table [dataTypes]. *)
Definition dataTypes : list (string * DataType) :=
  [ ("LOCATION", {| name := "Location Data";
                    description := "GPS coordinates and movement patterns";
                    privacyImpact := "High"; baseValue := 0.05;
                    fields := ["lat"; "lon"; "timestamp"] |});
    ("PERFORMANCE", {| name := "Vehicle Performance";
                       description := "Engine parameters, speed, and performance metrics";
                       privacyImpact := "Low"; baseValue := 0.03;
                       fields := ["speed_kmph"; "engine_rpm"; "timestamp"] |});
    ("DIAGNOSTIC", {| name := "Diagnostic Information";
                      description := "Engine health, error codes, and maintenance data";
                      privacyImpact := "Low"; baseValue := 0.07;
                      fields := ["engine_temp_c"; "dtc_code"; "timestamp"] |});
    ("FUEL", {| name := "Fuel Consumption";
                description := "Fuel usage patterns and efficiency data";
                privacyImpact := "Medium"; baseValue := 0.04;
                fields := ["fuel_level_pct"; "speed_kmph"; "timestamp"] |});
    ("COMPLETE", {| name := "Complete Vehicle Data";
                    description := "Full vehicle dataset including all parameters";
                    privacyImpact := "Very High"; baseValue := 0.15;
                    fields := ["*"] |}) ].

(** [typeInfo.baseValue]; an inherited member has no such property, and
    [undefined] is [NaN] as a number. *)
Definition type_baseValue (typeInfo : JSObject.lookup DataType) : float :=
  match typeInfo with
  | JSObject.Found t => baseValue t
  | _ => nan
  end.

(** [s.split('.')[1].length], computed only when [s] includes a dot. *)
Definition decimals (s : string) : nat :=
  String.length (nth 1 (JSString.split "." s) "").

(** The callback of [some] in the [LOCATION] case. *)
Definition urban_point (point : DataPoint) : bool :=
  let lat := NumberToString.Number_toString (lat point) in
  let lon := NumberToString.Number_toString (lon point) in
  JSString.includes "." lat && JSString.includes "." lon
  && (5 <? decimals lat)%nat && (5 <? decimals lon)%nat.

Definition estimateDataValue
  (dataPoints : list DataPoint) (dataType : string) : outcome float :=
  match dataPoints with
  | [] => Returns 0
  | _ =>
      let typeInfo := JSObject.get dataTypes dataType in
      if negb (JSObject.truthy typeInfo)
      then Throws ("Invalid data type: " ++ dataType)
      else
        let value :=
          JS.of_nat (List.length dataPoints) * type_baseValue typeInfo in
        let value :=
          if String.eqb dataType "LOCATION" then
            let hasUrbanData := existsb urban_point dataPoints in
            if hasUrbanData then value * 1.3 else value
          else if String.eqb dataType "DIAGNOSTIC" then
            let hasDiagnosticCodes := existsb has_dtc dataPoints in
            if hasDiagnosticCodes then value * 1.5 else value
          else if String.eqb dataType "PERFORMANCE" then
            let speeds := map speed_kmph dataPoints in
            let speedVariation :=
              JS.Math_max_list speeds - JS.Math_min_list speeds in
            if 30 <? speedVariation then value * 1.2 else value
          else if String.eqb dataType "COMPLETE" then
            if (100 <? List.length dataPoints)%nat then value * 1.1 else value
          else value in
        Returns (JS.toFixed_parse 4 value)
  end.

End MarketplaceService.

(** ** The scoring rules as the specification words them *)

Module Spec.
Local Open Scope string_scope.
Local Open Scope float_scope.

(** The Diagnostic Catalog: the reward-impact percentage of a code. *)
Definition rewardImpactPercent (code : string) : option float :=
  option_map CarDataService.rewardImpact
             (JSObject.own CarDataService.dtcInfo code).

(** Base 0.01, x1.2 if speed is in [40,80], x1.15 if RPM is in
    [1500,2500], and x(1 + rewardImpactPercent/100) for a code of the
    catalog; rounded to 4 decimals. *)
Definition pointReward (sample : DataPoint) : float :=
  let r := 0.01 in
  let r := if (40 <=? speed_kmph sample) && (speed_kmph sample <=? 80)
           then r * 1.2 else r in
  let r := if (1500 <=? engine_rpm sample) && (engine_rpm sample <=? 2500)
           then r * 1.15 else r in
  let r := match dtc_code sample with
           | Some code =>
               match rewardImpactPercent code with
               | Some pct => r * (1 + pct / 100)
               | None => r
               end
           | None => r
           end in
  JS.toFixed_parse 4 r.

(** The sum of the point rewards, in the order of the samples. *)
Fixpoint sum_from (acc : float) (rewards : list float) : float :=
  match rewards with
  | [] => acc
  | r :: rest => sum_from (acc + r) rest
  end.

(** The sum of [pointReward], x1.1 if there are more than 10 samples,
    rounded to 4 decimals; 0 on the empty input. *)
Definition batchReward (samples : list DataPoint) : float :=
  match samples with
  | [] => 0
  | _ =>
      let total := sum_from 0 (map pointReward samples) in
      JS.toFixed_parse 4
        (if (10 <? List.length samples)%nat then total * 1.1 else total)
  end.

(** The last [n] elements of a list. *)
Definition last_n {A} (n : nat) (xs : list A) : list A :=
  skipn (List.length xs - n) xs.

(** A sample in the efficient speed range that carries no code. *)
Definition efficient_clean (sample : DataPoint) : Prop :=
  (40 <=? speed_kmph sample) = true /\ (speed_kmph sample <=? 80) = true
  /\ has_dtc sample = false.

(** The fuel factor as the specification words it: 0.9 when the adjusted
    speed is strictly between 40 and 90 km/h, else 1.2. *)
Definition fuelFactor (speed : float) : float :=
  if (40 <? speed) && (speed <? 90) then 0.9 else 1.2.

(** The fuel level the specification announces: the decrement
    [0.01 * fuelFactor * (rpm / 2000)], clamped at 0. *)
Definition fuelAfter (fuel speed rpm : float) : float :=
  JS.Math_max 0 (fuel - 0.01 * fuelFactor speed * (rpm / 2000)).

(** The known data types of the marketplace. *)
Definition known_categories : list string :=
  map fst MarketplaceService.dataTypes.

End Spec.

(** ** Sample data *)

Module Examples.
Local Open Scope string_scope.
Local Open Scope float_scope.

(** A reading in the efficient ranges that carries the code P0420. *)
Definition reading : DataPoint :=
  {| timestamp := "2024-01-01T00:00:00Z"; speed_kmph := 60;
     engine_rpm := 2000; fuel_level_pct := 50; engine_temp_c := 90;
     lat := 19.432608; lon := -99.133209; dtc_code := Some "P0420" |}.

(** A reading in the efficient speed range without a code. *)
Definition cruising : DataPoint :=
  {| timestamp := "2024-01-01T00:00:01Z"; speed_kmph := 62.5;
     engine_rpm := 2100; fuel_level_pct := 49.99; engine_temp_c := 90.5;
     lat := 19.432700; lon := -99.133300; dtc_code := None |}.

(** A fast reading: on the URBAN route its adjusted speed is 45 km/h. *)
Definition fast : DataPoint :=
  {| timestamp := "2024-01-01T00:00:02Z"; speed_kmph := 75;
     engine_rpm := 2600; fuel_level_pct := 50.007; engine_temp_c := 91;
     lat := 19.432800; lon := -99.133400; dtc_code := None |}.

(** A reading whose speed cell did not parse: [parseFloat('')] is [NaN]. *)
Definition unparsed : DataPoint :=
  {| timestamp := "2024-01-01T00:00:03Z"; speed_kmph := nan;
     engine_rpm := 2000; fuel_level_pct := 50; engine_temp_c := 90;
     lat := 19.432608; lon := -99.133209; dtc_code := None |}.

(** A reading of a parked car: no speed, engine off. *)
Definition parked : DataPoint :=
  {| timestamp := "2024-01-01T00:00:04Z"; speed_kmph := 0;
     engine_rpm := 0; fuel_level_pct := 50; engine_temp_c := 20;
     lat := 19.432608; lon := -99.133209; dtc_code := None |}.

(** Draws in the middle of the range: no jitter, no injected code. *)
Definition calm : LocalDriveSimulator.Entropy :=
  {| LocalDriveSimulator.rnd_speed := 0.5;
     LocalDriveSimulator.rnd_dtc := 0.5;
     LocalDriveSimulator.rnd_code := 0.5;
     LocalDriveSimulator.sin_now := 0 |}.

Definition still : CarDataService.Jitter :=
  {| CarDataService.j_speed := 0.5; CarDataService.j_rpm := 0.5;
     CarDataService.j_fuel := 0.5; CarDataService.j_temp := 0.5;
     CarDataService.j_lat := 0.5; CarDataService.j_lon := 0.5 |}.

Definition corpus : list DataPoint := [reading; cruising; fast].

(** A session on the URBAN route that has run for two ticks. *)
Definition running : LocalDriveSimulator.State :=
  let started :=
    snd (LocalDriveSimulator.startSimulation
           1704067200000 (Throws "not called") "URBAN" 10
           (LocalDriveSimulator.initial corpus)) in
  LocalDriveSimulator.tick still calm
    (LocalDriveSimulator.tick still calm started).

End Examples.

(* ================================================================== *)
(** * Part II. Properties                                               *)
(* ================================================================== *)

(** ** Numbers: what the comparisons see *)

Section Comparisons.
Local Open Scope float_scope.

Lemma Prim2SF_zero : Prim2SF zero = S754_zero false.
Proof. reflexivity. Qed.

(** A number equal to zero is one of the two zeros. *)
Lemma is_zero_inv (x : float) :
  is_zero x = true -> exists s, Prim2SF x = S754_zero s.
Proof.
  unfold is_zero. rewrite eqb_spec, Prim2SF_zero.
  destruct (Prim2SF x) as [s| s| |s m e]; simpl; try discriminate.
  - intros _. now exists s.
  - destruct s; discriminate.
  - destruct s; discriminate.
Qed.

(** Comparisons do not tell [-0] from [+0], so [parseFloat] is invisible
    to them. *)
Lemma leb_parseFloat_r (c x : float) :
  (c <=? JS.parseFloat x) = (c <=? x).
Proof.
  unfold JS.parseFloat. destruct (is_zero x) eqn:Hz; [|reflexivity].
  destruct (is_zero_inv x Hz) as [s Hs].
  rewrite !leb_spec, Hs, Prim2SF_zero.
  now destruct (Prim2SF c).
Qed.

Lemma leb_parseFloat_l (c x : float) :
  (JS.parseFloat x <=? c) = (x <=? c).
Proof.
  unfold JS.parseFloat. destruct (is_zero x) eqn:Hz; [|reflexivity].
  destruct (is_zero_inv x Hz) as [s Hs].
  rewrite !leb_spec, Hs, Prim2SF_zero.
  now destruct (Prim2SF c).
Qed.

End Comparisons.

(** ** The diagnostic catalog *)

Section Catalog.
Local Open Scope string_scope.
Local Open Scope float_scope.

(** The catalog has exactly three codes. *)
Lemma catalog_codes (code : string) (e : CarDataService.DiagnosticEntry) :
  JSObject.own CarDataService.dtcInfo code = Some e ->
  code = "P0420" \/ code = "P0171" \/ code = "P0300".
Proof.
  unfold CarDataService.dtcInfo; cbn [JSObject.own].
  destruct (String.eqb_spec "P0420" code); [auto|].
  destruct (String.eqb_spec "P0171" code); [auto|].
  destruct (String.eqb_spec "P0300" code); [auto|].
  discriminate.
Qed.

(** The penalty step of [getDataPointRewardValue]: it multiplies exactly
    for the codes of the catalog, whatever the reward [r] so far. *)
Lemma penalty_step (code : string) (r : float) :
  (if JSString.truthy code && JSString.trim_nonempty code then
     match CarDataService.getDiagnosticInfo code with
     | JSObject.Found info =>
         if JS.truthy (CarDataService.rewardImpact info)
         then r * (1 + CarDataService.rewardImpact info / 100)
         else r
     | _ => r
     end
   else r)
  = match Spec.rewardImpactPercent code with
    | Some pct => r * (1 + pct / 100)
    | None => r
    end.
Proof.
  unfold Spec.rewardImpactPercent.
  destruct (JSObject.own CarDataService.dtcInfo code) as [e|] eqn:Hown.
  - destruct (catalog_codes _ _ Hown) as [-> | [-> | ->]];
      injection Hown as <-; reflexivity.
  - unfold CarDataService.getDiagnosticInfo, JSObject.get.
    rewrite Hown.
    destruct (existsb (String.eqb code) JSObject.Object_prototype_keys);
      destruct (JSString.truthy code);
      destruct (JSString.trim_nonempty code); reflexivity.
Qed.

(** [getDataPointRewardValue] computes the reward of the specification. *)
Lemma reward_refines (sample : DataPoint) :
  CarDataService.getDataPointRewardValue sample = Spec.pointReward sample.
Proof.
  unfold CarDataService.getDataPointRewardValue, Spec.pointReward.
  rewrite !leb_parseFloat_r, !leb_parseFloat_l.
  f_equal.
  set (r := if (1500 <=? engine_rpm sample) && (engine_rpm sample <=? 2500)
            then _ else _).
  unfold has_dtc.
  destruct (dtc_code sample) as [code|]; [|reflexivity].
  rewrite <- penalty_step.
  destruct (JSString.truthy code && JSString.trim_nonempty code); reflexivity.
Qed.

(** The loop of [getDataBatchRewardValue] is the sum of the rewards. *)
Lemma reward_loop (samples : list DataPoint) (acc : float) :
  fold_left (fun total dataPoint =>
               total + CarDataService.getDataPointRewardValue dataPoint)
            samples acc
  = Spec.sum_from acc (map Spec.pointReward samples).
Proof.
  revert acc. induction samples as [|s rest IH]; intros acc; simpl.
  - reflexivity.
  - now rewrite IH, reward_refines.
Qed.

End Catalog.

(** ** Point and batch rewards *)

Section Rewards.
Local Open Scope string_scope.
Local Open Scope float_scope.

(** C1. For every telemetry sample, [getDataPointRewardValue] returns the
    base 0.01, multiplied by 1.2 if the speed lies in [40,80], by 1.15 if
    the RPM lies in [1500,2500], and, when a code is present and found in
    the Diagnostic Catalog, by (1 + rewardImpactPercent/100), rounded to 4
    decimals.  On a sample with code P0420, speed 60 and RPM 2000 it returns
    0.0117, which is 0.01 * 1.2 * 1.15 * 0.85 rounded to 4 decimals, and
    the catalog gives P0420 the reward impact -15. *)
Theorem pointReward_correct :
  (forall sample : DataPoint,
      CarDataService.getDataPointRewardValue sample = Spec.pointReward sample)
  /\ (forall ts fuel temp la lo,
         CarDataService.getDataPointRewardValue
           {| timestamp := ts; speed_kmph := 60; engine_rpm := 2000;
              fuel_level_pct := fuel; engine_temp_c := temp;
              lat := la; lon := lo; dtc_code := Some "P0420" |}
         = 0.0117)
  /\ JS.toFixed_parse 4 (0.01 * 1.2 * 1.15 * 0.85) = 0.0117
  /\ (exists info,
         CarDataService.getDiagnosticInfo "P0420" = JSObject.Found info
         /\ CarDataService.rewardImpact info = -15).
Proof.
  split; [exact reward_refines|].
  split; [intros; vm_compute; reflexivity|].
  split; [vm_compute; reflexivity|].
  eexists; split; reflexivity.
Qed.

(** C2. For every list of samples, [getDataBatchRewardValue] returns 0 when
    the list is empty, and otherwise the sum of the point rewards,
    multiplied by 1.1 exactly when there are more than 10 samples, rounded
    to 4 decimals.  On eleven samples worth 0.0117 each the sum times 1.1
    is 0.14157000000000003 and the function returns 0.1416; on ten of them
    there is no bonus and it returns 0.117. *)
Theorem batchReward_correct :
  CarDataService.getDataBatchRewardValue [] = 0
  /\ (forall samples : list DataPoint,
         CarDataService.getDataBatchRewardValue samples
         = Spec.batchReward samples)
  /\ (forall samples : list DataPoint,
         samples <> [] ->
         CarDataService.getDataBatchRewardValue samples
         = JS.toFixed_parse 4
             (let total :=
                Spec.sum_from 0
                  (map CarDataService.getDataPointRewardValue samples) in
              if (10 <? List.length samples)%nat then total * 1.1 else total))
  /\ (forall ts fuel temp la lo,
         let sample :=
           {| timestamp := ts; speed_kmph := 60; engine_rpm := 2000;
              fuel_level_pct := fuel; engine_temp_c := temp;
              lat := la; lon := lo; dtc_code := Some "P0420" |} in
         CarDataService.getDataBatchRewardValue (repeat sample 11) = 0.1416
         /\ CarDataService.getDataBatchRewardValue (repeat sample 10) = 0.117)
  /\ Spec.sum_from 0 (repeat 0.0117 11) * 1.1 = 0.14157000000000003
  /\ (0.14157000000000003 =? 0.1416) = false
  /\ Spec.sum_from 0 (repeat 0.0117 10) = 0.117.
Proof.
  split; [reflexivity|].
  split.
  - intros [|s rest]; [reflexivity|].
    unfold CarDataService.getDataBatchRewardValue, Spec.batchReward.
    now rewrite reward_loop.
  - split.
    + intros [|s rest] Hne; [contradiction|].
      unfold CarDataService.getDataBatchRewardValue.
      rewrite reward_loop.
      replace (map CarDataService.getDataPointRewardValue (s :: rest))
        with (map Spec.pointReward (s :: rest))
        by (apply map_ext; intros; symmetry; apply reward_refines).
      reflexivity.
    + split; [intros; split; vm_compute; reflexivity|].
      repeat split; vm_compute; reflexivity.
Qed.

(** A batch of eleven samples, each worth 0.0117: the sum is raised by the
    1.1 bonus and rounded to 0.1416. *)
Lemma batchReward_correct_witness :
  let s := {| timestamp := "2024-01-01T00:00:00Z"; speed_kmph := 60;
              engine_rpm := 2000; fuel_level_pct := 50; engine_temp_c := 90;
              lat := 19.432608; lon := -99.133209;
              dtc_code := Some "P0420" |} in
  repeat s 11 <> []
  /\ CarDataService.getDataBatchRewardValue (repeat s 11)
     = JS.toFixed_parse 4
         (let total :=
            Spec.sum_from 0
              (map CarDataService.getDataPointRewardValue (repeat s 11)) in
          if (10 <? List.length (repeat s 11))%nat then total * 1.1 else total)
  /\ CarDataService.getDataBatchRewardValue (repeat s 11) = 0.1416.
Proof.
  intro s.
  assert (Hne : repeat s 11 <> []) by discriminate.
  split; [exact Hne|].
  split.
  - exact (proj1 (proj2 (proj2 batchReward_correct)) (repeat s 11) Hne).
  - rewrite (proj1 (proj2 (proj2 batchReward_correct)) (repeat s 11) Hne).
    vm_compute. reflexivity.
Defined.

End Rewards.

(** ** The efficiency score reads the trailing window only *)

Section Efficiency.

(** Cutting twice at the same window is cutting once. *)
Lemma slice_last_idem {A} (n : nat) (xs : list A) :
  CarDataService.slice_last n (CarDataService.slice_last n xs)
  = CarDataService.slice_last n xs.
Proof.
  destruct n as [|n]; [reflexivity|].
  unfold CarDataService.slice_last.
  rewrite length_skipn.
  replace (List.length xs - (List.length xs - S n) - S n)%nat with 0%nat by lia.
  reflexivity.
Qed.

(** The last [min n (length xs)] elements are what [slice(-n)] keeps. *)
Lemma last_n_min {A} (n : nat) (xs : list A) :
  n <> 0%nat ->
  Spec.last_n (Nat.min n (List.length xs)) xs = CarDataService.slice_last n xs.
Proof.
  intros Hn. unfold Spec.last_n, CarDataService.slice_last.
  destruct n as [|n]; [contradiction|].
  f_equal. lia.
Qed.

(** For every window of at least 5 samples the score of a list is the score
    of its trailing window. *)
Lemma efficiency_window (n : nat) (dataPoints : list DataPoint) :
  (5 <= n)%nat ->
  CarDataService.getVehicleEfficiencyScore dataPoints n
  = CarDataService.getVehicleEfficiencyScore
      (Spec.last_n (Nat.min n (List.length dataPoints)) dataPoints) n.
Proof.
  intros Hn.
  rewrite last_n_min by lia.
  unfold CarDataService.getVehicleEfficiencyScore.
  rewrite slice_last_idem.
  destruct (Nat.ltb_spec (List.length dataPoints) 5) as [Hlt|Hge].
  - (* fewer than 5 samples: the window is the whole list *)
    unfold CarDataService.slice_last. destruct n as [|n]; [lia|].
    replace (List.length dataPoints - S n)%nat with 0%nat by lia.
    simpl skipn.
    destruct (Nat.ltb_spec (List.length dataPoints) 5); [reflexivity|lia].
  - (* at least 5: the window still has at least 5 *)
    assert (Hlen : (5 <= List.length (CarDataService.slice_last n dataPoints))%nat).
    { unfold CarDataService.slice_last. destruct n as [|n]; [lia|].
      rewrite length_skipn. lia. }
    destruct (Nat.ltb_spec
                (List.length (CarDataService.slice_last n dataPoints)) 5);
      [lia|reflexivity].
Qed.

(** C3. With the window size 60, [getVehicleEfficiencyScore] returns the
    same value on a list of samples as on its suffix of the last
    [min 60 n] elements: only the trailing window affects the result. *)
Theorem efficiencyScore_trailing_window (dataPoints : list DataPoint) :
  CarDataService.getVehicleEfficiencyScore dataPoints 60
  = CarDataService.getVehicleEfficiencyScore
      (Spec.last_n (Nat.min 60 (List.length dataPoints)) dataPoints) 60.
Proof. apply efficiency_window. lia. Qed.

End Efficiency.

(** ** The session controller *)

Section Session.
Local Open Scope string_scope.
Local Open Scope float_scope.

(** C6. Calling [startSimulation] while a session is running returns a
    result with [success: false] and leaves the state of the running
    session unchanged: the accumulated samples are not reset, the current
    route is not changed, and the session remains active. *)
Theorem startSimulation_while_running
  (now : float) (load : outcome (list DataPoint))
  (routeType : string) (durationMinutes : float)
  (st : LocalDriveSimulator.State) :
  LocalDriveSimulator.isSimulating st = true ->
  exists result st',
    LocalDriveSimulator.startSimulation now load routeType durationMinutes st
    = (Returns result, st')
    /\ LocalDriveSimulator.success result = false
    /\ LocalDriveSimulator.message result = "A simulation is already running"
    /\ st' = st
    /\ LocalDriveSimulator.simulationData st'
       = LocalDriveSimulator.simulationData st
    /\ LocalDriveSimulator.currentRoute st'
       = LocalDriveSimulator.currentRoute st
    /\ LocalDriveSimulator.isSimulating st' = true.
Proof.
  intros Hrun.
  exists (LocalDriveSimulator.failure "A simulation is already running"), st.
  unfold LocalDriveSimulator.startSimulation. rewrite Hrun.
  repeat split; assumption.
Qed.

End Session.

Section SessionExamples.
Local Open Scope string_scope.
Local Open Scope float_scope.

(** A second start on a session that holds two samples: it is refused and
    the two samples stay. *)
Lemma startSimulation_while_running_witness :
  LocalDriveSimulator.isSimulating Examples.running = true
  /\ List.length (LocalDriveSimulator.simulationData Examples.running) = 2%nat
  /\ exists result st',
      LocalDriveSimulator.startSimulation
        1704067260000 (Returns []) "HIGHWAY" 5 Examples.running
      = (Returns result, st')
      /\ LocalDriveSimulator.success result = false
      /\ LocalDriveSimulator.message result = "A simulation is already running"
      /\ st' = Examples.running
      /\ LocalDriveSimulator.simulationData st'
         = LocalDriveSimulator.simulationData Examples.running
      /\ LocalDriveSimulator.currentRoute st'
         = LocalDriveSimulator.currentRoute Examples.running
      /\ LocalDriveSimulator.isSimulating st' = true.
Proof.
  assert (Hrun : LocalDriveSimulator.isSimulating Examples.running = true)
    by (vm_compute; reflexivity).
  split; [exact Hrun|].
  split; [vm_compute; reflexivity|].
  exact (startSimulation_while_running
           1704067260000 (Returns []) "HIGHWAY" 5 Examples.running Hrun).
Defined.

End SessionExamples.

(** ** Market valuation *)

Section Valuation.
Local Open Scope string_scope.
Local Open Scope float_scope.

Lemma known_categories_eq :
  Spec.known_categories
  = ["LOCATION"; "PERFORMANCE"; "DIAGNOSTIC"; "FUEL"; "COMPLETE"].
Proof. reflexivity. Qed.

(** A known category is an own property of [dataTypes]. *)
Lemma known_category_found (category : string) :
  In category Spec.known_categories ->
  exists t, JSObject.get MarketplaceService.dataTypes category
            = JSObject.Found t.
Proof.
  rewrite known_categories_eq. simpl.
  intros [<- | [<- | [<- | [<- | [<- | []]]]]]; eexists; reflexivity.
Qed.

(** C7, as the code has it.  On a non-empty list of samples,
    [estimateDataValue] throws "Invalid data type: ..." for every category
    that names no property of the data-type table; on the empty list it
    returns 0 whatever the category; and it never throws for a known
    category. *)
Theorem estimateDataValue_errors
  (samples : list DataPoint) (category : string) :
  (samples <> [] ->
   JSObject.get MarketplaceService.dataTypes category = JSObject.Missing ->
   MarketplaceService.estimateDataValue samples category
   = Throws ("Invalid data type: " ++ category))
  /\ MarketplaceService.estimateDataValue [] category = Returns 0
  /\ (In category Spec.known_categories ->
      exists value,
        MarketplaceService.estimateDataValue samples category = Returns value).
Proof.
  split; [|split].
  - intros Hne Hmiss. destruct samples as [|s rest]; [contradiction|].
    unfold MarketplaceService.estimateDataValue. now rewrite Hmiss.
  - reflexivity.
  - intros Hin. destruct (known_category_found _ Hin) as [t Ht].
    destruct samples as [|s rest]; [now exists 0|].
    unfold MarketplaceService.estimateDataValue. rewrite Ht.
    eexists. reflexivity.
Qed.

Lemma estimateDataValue_errors_witness :
  MarketplaceService.estimateDataValue [Examples.reading] "WEATHER"
  = Throws "Invalid data type: WEATHER"
  /\ exists value,
      MarketplaceService.estimateDataValue [Examples.reading] "FUEL"
      = Returns value.
Proof.
  split.
  - apply (proj1 (estimateDataValue_errors [Examples.reading] "WEATHER"));
      [discriminate | reflexivity].
  - apply (proj2 (proj2 (estimateDataValue_errors [Examples.reading] "FUEL"))).
    rewrite known_categories_eq. simpl. tauto.
Defined.

(** The claim fails on the empty list, where an unknown category returns 0,
    and for a category that names a member inherited from
    [Object.prototype], where the value is [NaN]. *)
Lemma estimateDataValue_errors_counterexample :
  ~ In "WEATHER" Spec.known_categories
  /\ MarketplaceService.estimateDataValue [] "WEATHER" = Returns 0
  /\ ~ In "toString" Spec.known_categories
  /\ MarketplaceService.estimateDataValue [Examples.reading] "toString"
     = Returns nan.
Proof.
  rewrite known_categories_eq.
  split; [simpl; intuition discriminate|].
  split; [reflexivity|].
  split; [simpl; intuition discriminate|].
  vm_compute. reflexivity.
Qed.

Lemma get_COMPLETE :
  exists t, JSObject.get MarketplaceService.dataTypes "COMPLETE"
            = JSObject.Found t
            /\ MarketplaceService.baseValue t = 0.15.
Proof. eexists; split; reflexivity. Qed.

(** C8. [estimateDataValue] with category COMPLETE on 101 identical samples
    equals 101 * 0.15 * 1.1 rounded to 4 decimals, which is 16.665; the
    1.1 multiplier applies exactly when there are more than 100 samples. *)
Theorem estimateDataValue_COMPLETE :
  (forall sample : DataPoint,
      MarketplaceService.estimateDataValue (repeat sample 101) "COMPLETE"
      = Returns 16.665)
  /\ JS.toFixed_parse 4 (101 * 0.15 * 1.1) = 16.665
  /\ (forall samples : list DataPoint,
         samples <> [] ->
         MarketplaceService.estimateDataValue samples "COMPLETE"
         = Returns
             (JS.toFixed_parse 4
                (let value := JS.of_nat (List.length samples) * 0.15 in
                 if (100 <? List.length samples)%nat then value * 1.1
                 else value))).
Proof.
  split; [intros; vm_compute; reflexivity|].
  split; [vm_compute; reflexivity|].
  intros [|s rest] Hne; [contradiction|].
  reflexivity.
Qed.

Lemma estimateDataValue_COMPLETE_witness :
  repeat Examples.cruising 100 <> []
  /\ MarketplaceService.estimateDataValue
       (repeat Examples.cruising 100) "COMPLETE"
     = Returns
         (JS.toFixed_parse 4
            (let value :=
               JS.of_nat (List.length (repeat Examples.cruising 100)) * 0.15 in
             if (100 <? List.length (repeat Examples.cruising 100))%nat
             then value * 1.1 else value))
  /\ MarketplaceService.estimateDataValue
       (repeat Examples.cruising 100) "COMPLETE" = Returns 15.
Proof.
  assert (Hne : repeat Examples.cruising 100 <> []) by discriminate.
  split; [exact Hne|].
  split;
    [exact (proj2 (proj2 estimateDataValue_COMPLETE) _ Hne)
    | vm_compute; reflexivity].
Defined.

End Valuation.

(** ** The route transformation: what it leaves alone *)

Section Frame.
Local Open Scope string_scope.
Local Open Scope list_scope.

(** An object created by the call is the last of the heap; the objects
    the caller holds are below it. *)
Lemma read_old (h : Heap.heap) (o x : DataPoint) (r : Heap.ref) :
  Heap.read h r = Some x -> Heap.read (h ++ [o]) r = Some x.
Proof.
  unfold Heap.read. intros H.
  rewrite nth_error_app1; [assumption|].
  apply nth_error_Some. congruence.
Qed.

Lemma read_new (h : Heap.heap) (o : DataPoint) :
  Heap.read (h ++ [o]) (List.length h) = Some o.
Proof.
  unfold Heap.read. rewrite nth_error_app2, Nat.sub_diag by lia. reflexivity.
Qed.

Lemma read_others (h : Heap.heap) (o : DataPoint) (r : Heap.ref) :
  r <> List.length h -> Heap.read (h ++ [o]) r = Heap.read h r.
Proof.
  unfold Heap.read. intros Hr.
  destruct (Nat.lt_ge_cases r (List.length h)) as [Hlt|Hge].
  - now rewrite nth_error_app1.
  - transitivity (@None DataPoint); [|symmetry]; apply nth_error_None.
    + rewrite length_app. simpl. lia.
    + assumption.
Qed.

Lemma update_new (h : Heap.heap) (o : DataPoint)
  (write : DataPoint -> DataPoint) :
  Heap.update (List.length h) write (h ++ [o]) = h ++ [write o].
Proof.
  induction h as [|x h IH]; [reflexivity|]. simpl. now rewrite IH.
Qed.

Lemma get_old {A} (h : Heap.heap) (o x : DataPoint) (r : Heap.ref)
  (field : DataPoint -> A) :
  Heap.read h r = Some x ->
  Heap.get r field (h ++ [o]) = Some (field x, h ++ [o]).
Proof. intros H. unfold Heap.get. now rewrite (read_old h o x r H). Qed.

Lemma get_new {A} (h : Heap.heap) (o : DataPoint) (field : DataPoint -> A) :
  Heap.get (List.length h) field (h ++ [o]) = Some (field o, h ++ [o]).
Proof. unfold Heap.get. now rewrite read_new. Qed.

Lemma set_new (h : Heap.heap) (o : DataPoint)
  (write : DataPoint -> DataPoint) :
  Heap.set (List.length h) write (h ++ [o]) = Some (tt, h ++ [write o]).
Proof. unfold Heap.set. now rewrite read_new, update_new. Qed.

(** Run on a heap that holds the input, the statements of
    [modifyDataForRoute] create one object and leave in it what the
    function computes from the contents of the input. *)
Lemma modifyDataForRoute_runs
  (w : LocalDriveSimulator.Entropy) (h : Heap.heap) (dataPoint : Heap.ref)
  (input : DataPoint) (routeType : string) :
  Heap.read h dataPoint = Some input ->
  LocalDriveSimulator.Imperative.modifyDataForRoute w dataPoint routeType h
  = Some (List.length h,
          h ++ [LocalDriveSimulator.modifyDataForRoute w input routeType]).
Proof.
  intros Hin.
  unfold LocalDriveSimulator.Imperative.modifyDataForRoute,
    LocalDriveSimulator.modifyDataForRoute.
  unfold Heap.bind at 1. unfold Heap.spread, Heap.alloc. rewrite Hin.
  destruct (String.eqb routeType "URBAN");
    [|destruct (String.eqb routeType "HIGHWAY");
      [|destruct (String.eqb routeType "MOUNTAIN");
        [|destruct (String.eqb routeType "RURAL")]]];
    try destruct (LocalDriveSimulator.rnd_dtc w <? _)%float;
    unfold Heap.bind, Heap.ret;
    repeat (first [ rewrite get_new | rewrite set_new
                  | rewrite (get_old _ _ _ _ _ Hin) ]);
    reflexivity.
Qed.

(** C10. For every input sample and every route type, [modifyDataForRoute]
    leaves [lat], [lon] and [timestamp] as they are in its input; it writes
    only the speed, the RPM, the temperature, the fuel level and the code,
    and it writes them to a clone: the object it returns is a new one, and
    every object that existed before the call, the input among them, has
    the contents it had. *)
Theorem modifyDataForRoute_frame
  (w : LocalDriveSimulator.Entropy) (h : Heap.heap) (dataPoint : Heap.ref)
  (input : DataPoint) (routeType : string) :
  Heap.read h dataPoint = Some input ->
  exists (modifiedData : Heap.ref) (h' : Heap.heap) (output : DataPoint),
    LocalDriveSimulator.Imperative.modifyDataForRoute w dataPoint routeType h
    = Some (modifiedData, h')
    /\ Heap.read h' modifiedData = Some output
    /\ output = LocalDriveSimulator.modifyDataForRoute w input routeType
    /\ lat output = lat input
    /\ lon output = lon input
    /\ timestamp output = timestamp input
    /\ modifiedData <> dataPoint
    /\ Heap.read h modifiedData = None
    /\ Heap.read h' dataPoint = Some input
    /\ (forall r : Heap.ref,
          r <> modifiedData -> Heap.read h' r = Heap.read h r).
Proof.
  intros Hin.
  exists (List.length h),
    (h ++ [LocalDriveSimulator.modifyDataForRoute w input routeType]),
    (LocalDriveSimulator.modifyDataForRoute w input routeType).
  assert (Hfresh : Heap.read h (List.length h) = None)
    by (apply nth_error_None; apply Nat.le_refl).
  split; [now apply modifyDataForRoute_runs|].
  split; [apply read_new|].
  split; [reflexivity|].
  split; [|split; [|split]].
  4: { split; [congruence|]. split; [exact Hfresh|].
       split; [now apply read_old|]. intros r Hr. now apply read_others. }
  all: unfold LocalDriveSimulator.modifyDataForRoute;
    destruct (String.eqb routeType "URBAN");
    [|destruct (String.eqb routeType "HIGHWAY");
      [|destruct (String.eqb routeType "MOUNTAIN");
        [|destruct (String.eqb routeType "RURAL")]]];
    reflexivity.
Qed.

(** The last sample of the corpus on the URBAN route: the new object is
    the fourth of the heap, and the corpus reads as before. *)
Lemma modifyDataForRoute_frame_witness :
  Heap.read Examples.corpus 2 = Some Examples.fast
  /\ exists (modifiedData : Heap.ref) (h' : Heap.heap) (output : DataPoint),
      LocalDriveSimulator.Imperative.modifyDataForRoute
        Examples.calm 2 "URBAN" Examples.corpus
      = Some (modifiedData, h')
      /\ Heap.read h' modifiedData = Some output
      /\ output
         = LocalDriveSimulator.modifyDataForRoute
             Examples.calm Examples.fast "URBAN"
      /\ lat output = lat Examples.fast
      /\ lon output = lon Examples.fast
      /\ timestamp output = timestamp Examples.fast
      /\ modifiedData <> 2%nat
      /\ Heap.read Examples.corpus modifiedData = None
      /\ Heap.read h' 2 = Some Examples.fast
      /\ (forall r : Heap.ref,
            r <> modifiedData ->
            Heap.read h' r = Heap.read Examples.corpus r).
Proof.
  assert (Hin : Heap.read Examples.corpus 2 = Some Examples.fast)
    by reflexivity.
  split; [exact Hin|].
  exact (modifyDataForRoute_frame Examples.calm Examples.corpus 2
           Examples.fast "URBAN" Hin).
Defined.

End Frame.

(** ** Binary64 arithmetic: signs, magnitudes and rounding *)

Section SpecFloatFacts.
Local Open Scope Z_scope.

Lemma SFcompare_refl (x : spec_float) :
  x <> S754_nan -> SFcompare x x = Some Eq.
Proof.
  destruct x as [s|s| |s m e]; simpl; intros H; try congruence.
  - now destruct s.
  - destruct s; rewrite Z.compare_refl, Pos.compare_cont_refl; reflexivity.
Qed.

Lemma SFcompare_antisym (x y : spec_float) :
  SFcompare y x = option_map CompOpp (SFcompare x y).
Proof.
  destruct x as [s|s| |s m e], y as [s'|s'| |s' m' e']; simpl;
    try reflexivity; try (destruct s; reflexivity);
    try (destruct s'; reflexivity); try (destruct s, s'; reflexivity).
  destruct s, s'; simpl; try reflexivity;
    rewrite (Z.compare_antisym e e');
    destruct (e ?= e') eqn:He; simpl; try reflexivity;
    rewrite (Pos.compare_cont_antisym m m' Eq); reflexivity.
Qed.

(** iter_pos keeps an invariant of the step. *)
Lemma iter_pos_invariant {A} (f : A -> A) (P : A -> Prop) :
  (forall x, P x -> P (f x)) ->
  forall p x, P x -> P (iter_pos f p x).
Proof.
  intros Hf. induction p as [p IH|p IH|]; intros x Hx; simpl; auto.
Qed.

Lemma shr_1_bounds (M : Z) (mrs : shr_record) :
  0 <= shr_m mrs <= M -> 0 <= shr_m (shr_1 mrs) <= M.
Proof.
  destruct mrs as [m r s]; simpl.
  destruct m as [|[p|p|]|[p|p|]]; simpl; lia.
Qed.

Lemma shr_bounds (M : Z) (mrs : shr_record) (e n : Z) :
  0 <= shr_m mrs <= M -> 0 <= shr_m (fst (shr mrs e n)) <= M.
Proof.
  intros H. destruct n as [|p|p]; simpl; auto.
  apply (iter_pos_invariant shr_1 (fun x => 0 <= shr_m x <= M)); auto.
  intros x. apply shr_1_bounds.
Qed.

Lemma shr_m_of_loc (m : Z) (l : location) :
  shr_m (shr_record_of_loc m l) = m.
Proof. destruct l as [|[| |]]; reflexivity. Qed.

Lemma shr_fexp_bounds (m e : Z) (l : location) :
  0 <= m -> 0 <= shr_m (fst (shr_fexp prec emax m e l)) <= m.
Proof.
  intros H. unfold shr_fexp. apply shr_bounds. rewrite shr_m_of_loc. lia.
Qed.

Lemma round_nearest_even_bounds (m : Z) (l : location) :
  0 <= m -> 0 <= round_nearest_even m l <= m + 1.
Proof.
  intros H. destruct l as [|[| |]]; simpl; try lia.
  destruct (Z.even m); lia.
Qed.

(** Rounding a non-negative mantissa gives a number of the given sign,
    never NaN. *)
Lemma binary_round_aux_signed (s : bool) (m e : Z) (l : location) :
  0 <= m -> Binary64.sf_signed s (binary_round_aux prec emax s m e l).
Proof.
  intros Hm. unfold binary_round_aux.
  destruct (shr_fexp prec emax m e l) as [mrs' e'] eqn:H1.
  assert (B1 := shr_fexp_bounds m e l Hm). rewrite H1 in B1. simpl in B1.
  set (m1 := round_nearest_even (shr_m mrs') (loc_of_shr_record mrs')).
  assert (B2 : 0 <= m1) by (apply round_nearest_even_bounds; lia).
  destruct (shr_fexp prec emax m1 e' loc_Exact) as [mrs'' e''] eqn:H2.
  assert (B3 := shr_fexp_bounds m1 e' loc_Exact B2). rewrite H2 in B3.
  simpl in B3.
  destruct (shr_m mrs'') as [|p|p]; simpl; try reflexivity; [|lia].
  destruct (Z.leb _ _); simpl; reflexivity.
Qed.

Lemma binary_round_signed (s : bool) (m : positive) (e : Z) :
  Binary64.sf_signed s (binary_round prec emax s m e).
Proof.
  unfold binary_round.
  destruct (shl_align m e _) as [mz ez].
  now apply binary_round_aux_signed.
Qed.

Lemma binary_normalize_nonneg (n e : Z) :
  0 <= n -> Binary64.sf_signed false (binary_normalize prec emax n e false).
Proof.
  intros H. destruct n as [|p|p]; simpl; [reflexivity| |lia].
  apply binary_round_signed.
Qed.

Lemma SFldexp_signed (s : bool) (x : spec_float) (e : Z) :
  Binary64.sf_signed s x -> Binary64.sf_signed s (SFldexp prec emax x e).
Proof.
  destruct x as [s'|s'| |s' m' e']; simpl; auto.
  intros ->. apply binary_round_signed.
Qed.

Lemma SFdiv_core_nonneg (m1 m2 : positive) (e1 e2 : Z) :
  0 <= fst (fst (SFdiv_core_binary prec emax (Zpos m1) e1 (Zpos m2) e2)).
Proof.
  unfold SFdiv_core_binary.
  set (s := _ - _ - _).
  set (m' := match s with Z.pos _ => _ | _ => _ end).
  assert (Hm' : 0 <= m').
  { unfold m'. destruct s; try lia. apply Z.shiftl_nonneg. lia. }
  destruct (Z.div_eucl m' (Zpos m2)) as [q r] eqn:Hdiv. simpl.
  assert (Hq := Z.div_pos m' (Zpos m2) Hm' ltac:(lia)).
  unfold Z.div in Hq. now rewrite Hdiv in Hq.
Qed.

Lemma SFdiv_signed (x y : spec_float) (sx sy : bool) :
  Binary64.sf_signed sx x -> Binary64.sf_signed sy y ->
  (forall s, y <> S754_zero s) -> (forall s, y <> S754_infinity s) ->
  (forall s, x <> S754_infinity s) ->
  Binary64.sf_signed (xorb sx sy) (SFdiv prec emax x y).
Proof.
  destruct x as [s|s| |s m e], y as [s'|s'| |s' m' e']; simpl;
    intros Hx Hy Hz Hi Hxi; subst;
    try contradiction; try reflexivity;
    try (now exfalso; eapply Hz); try (now exfalso; eapply Hi);
    try (now exfalso; eapply Hxi).
  assert (Hq := SFdiv_core_nonneg m m' e e').
  destruct (SFdiv_core_binary prec emax (Z.pos m) e (Z.pos m') e')
    as [[mz ez] lz].
  now apply binary_round_aux_signed.
Qed.

End SpecFloatFacts.

Section PrimFacts.
Local Open Scope float_scope.

Lemma is_nan_spec (x : float) :
  is_nan x = true <-> Prim2SF x = S754_nan.
Proof.
  unfold is_nan. rewrite eqb_spec. unfold SFeqb.
  destruct (Prim2SF x) as [s|s| |s m e] eqn:Hx.
  all: try (rewrite SFcompare_refl by discriminate; simpl;
            split; discriminate).
  simpl. split; reflexivity.
Qed.

Lemma is_nan_false (x : float) :
  is_nan x = false <-> Prim2SF x <> S754_nan.
Proof.
  rewrite <- is_nan_spec. destruct (is_nan x); split; congruence.
Qed.

Lemma sf_signed_not_nan (s : bool) (x : spec_float) :
  Binary64.sf_signed s x -> x <> S754_nan.
Proof. destruct x; simpl; congruence. Qed.

(** A number whose sign bit is clear is at least zero. *)
Lemma leb_0_signed (y : float) :
  Binary64.sf_signed false (Prim2SF y) -> (0 <=? y) = true.
Proof.
  rewrite leb_spec. change (Prim2SF 0) with (S754_zero false).
  destruct (Prim2SF y) as [s|s| |s m e]; simpl; try tauto;
    intros ->; reflexivity.
Qed.

(** Reading a non-negative binary value back gives a non-negative number. *)
Lemma SF2Prim_signed_false (x : spec_float) :
  Binary64.sf_signed false x -> Binary64.sf_signed false (Prim2SF (SF2Prim x)).
Proof.
  destruct x as [s|s| |s m e]; simpl; try tauto; intros ->;
    try reflexivity.
  rewrite Z_ldexp_spec, of_uint63_spec.
  apply SFldexp_signed, binary_normalize_nonneg.
  apply Uint63.to_Z_bounded.
Qed.


Lemma leb_not_nan (a b : float) :
  (a <=? b) = true -> is_nan a = false /\ is_nan b = false.
Proof.
  rewrite leb_spec, !is_nan_false. unfold SFleb.
  destruct (Prim2SF a), (Prim2SF b); simpl; try discriminate;
    split; discriminate.
Qed.

Lemma ltb_leb (a b : float) : (a <? b) = true -> (a <=? b) = true.
Proof.
  rewrite ltb_spec, leb_spec. unfold SFltb, SFleb.
  destruct (SFcompare _ _) as [[| |]|]; congruence.
Qed.

Lemma leb_ltb_false (a b : float) : (a <=? b) = true -> (b <? a) = false.
Proof.
  rewrite ltb_spec, leb_spec. unfold SFltb, SFleb.
  rewrite (SFcompare_antisym (Prim2SF a) (Prim2SF b)).
  destruct (SFcompare _ _) as [[| |]|]; simpl; congruence.
Qed.

Lemma not_ltb_leb (a b : float) :
  is_nan a = false -> is_nan b = false ->
  (a <? b) = false -> (b <=? a) = true.
Proof.
  rewrite ltb_spec, leb_spec, !is_nan_false. unfold SFltb, SFleb.
  rewrite (SFcompare_antisym (Prim2SF a) (Prim2SF b)).
  destruct (Prim2SF a) as [s|s| |s m e] eqn:Ha; try congruence;
    destruct (Prim2SF b) as [s'|s'| |s' m' e'] eqn:Hb; try congruence;
    intros _ _;
    destruct (SFcompare _ _) as [[| |]|] eqn:Hc; simpl; try congruence;
    simpl in Hc; discriminate.
Qed.

Lemma leb_refl (a : float) : is_nan a = false -> (a <=? a) = true.
Proof.
  rewrite leb_spec, is_nan_false. intros H. unfold SFleb.
  now rewrite SFcompare_refl.
Qed.

(** [Math.max(0, y)] is [NaN], or it is at least 0. *)
Lemma Math_max_0 (y : float) :
  is_nan (JS.Math_max 0 y) = true \/ (0 <=? JS.Math_max 0 y) = true.
Proof.
  unfold JS.Math_max.
  change (is_nan 0) with false. simpl orb.
  destruct (is_nan y) eqn:Hn; [left; reflexivity|].
  destruct (0 <? y) eqn:Hlt; [right; now apply ltb_leb|].
  right. destruct (y <? 0); reflexivity.
Qed.

Lemma Z2SF_nonneg (n : Z) : (0 <= n)%Z -> Binary64.sf_signed false (JS.Z2SF n).
Proof. intros H. destruct n; simpl; try reflexivity; lia. Qed.

Lemma scaled_round_nonneg (d : Z) (x : spec_float) :
  (0 <= JS.scaled_round d x)%Z.
Proof.
  destruct x as [s|s| |s m e]; unfold JS.scaled_round; try lia.
  assert (H10 : (0 <= 10 ^ d)%Z) by (apply Z.pow_nonneg; lia).
  assert (Hk : (0 <= Zpos m * 10 ^ d)%Z) by (apply Z.mul_nonneg_nonneg; lia).
  cbv zeta. set (k := (Zpos m * 10 ^ d)%Z) in *.
  destruct (0 <=? e)%Z eqn:He.
  - apply Z.mul_nonneg_nonneg; [lia|]. apply Z.pow_nonneg; lia.
  - apply Z.div_pos.
    + assert (0 <= 2 ^ (- e))%Z by (apply Z.pow_nonneg; lia). lia.
    + apply Z.pow_pos_nonneg; [lia|]. apply Z.leb_gt in He. lia.
Qed.

Lemma decimal_to_number_nonneg (n d : Z) :
  (0 <= n)%Z -> (0 <= d)%Z -> (0 <=? JS.decimal_to_number n d) = true.
Proof.
  intros Hn Hd. apply leb_0_signed. unfold JS.decimal_to_number.
  apply SF2Prim_signed_false.
  assert (Hp : (0 < 10 ^ d)%Z) by (apply Z.pow_pos_nonneg; lia).
  change false with (xorb false false).
  apply SFdiv_signed.
  - now apply Z2SF_nonneg.
  - apply Z2SF_nonneg; lia.
  - intros s. destruct (10 ^ d)%Z; simpl; try discriminate; lia.
  - intros s. destruct (10 ^ d)%Z; discriminate.
  - intros s. destruct n; discriminate.
Qed.

(** Rounding to decimals keeps a number at least 0 at least 0. *)
Lemma toFixed_parse_nonneg (d : Z) (v : float) :
  (0 <= d)%Z -> (0 <=? v) = true -> (0 <=? JS.toFixed_parse d v) = true.
Proof.
  intros Hd Hv. unfold JS.toFixed_parse.
  destruct (leb_not_nan _ _ Hv) as [_ Hn]. rewrite Hn.
  destruct (is_infinity v); [assumption|].
  destruct (1e21 <=? abs v); [assumption|].
  rewrite (leb_ltb_false _ _ Hv).
  apply decimal_to_number_nonneg; [apply scaled_round_nonneg|assumption].
Qed.

End PrimFacts.

Section Magnitude.
Local Open Scope Z_scope.

Lemma digits2_pos_bounds (m : positive) :
  2 ^ (Zpos (digits2_pos m) - 1) <= Zpos m < 2 ^ Zpos (digits2_pos m).
Proof.
  induction m as [p IH|p IH|]; simpl digits2_pos.
  - rewrite Pos2Z.inj_succ.
    replace (Z.succ (Zpos (digits2_pos p)) - 1) with (Z.succ (Zpos (digits2_pos p) - 1)) by lia.
    rewrite !Z.pow_succ_r by lia. lia.
  - rewrite Pos2Z.inj_succ.
    replace (Z.succ (Zpos (digits2_pos p)) - 1) with (Z.succ (Zpos (digits2_pos p) - 1)) by lia.
    rewrite !Z.pow_succ_r by lia. lia.
  - simpl. lia.
Qed.

Lemma Zdigits2_le (m k : Z) :
  0 <= m < 2 ^ k -> 0 <= k -> Zdigits2 m <= k.
Proof.
  intros [H0 Hk] Hk0. destruct m as [|p|p]; simpl; try lia.
  destruct (digits2_pos_bounds p) as [Hlo _].
  destruct (Z.le_gt_cases (Zpos (digits2_pos p)) k) as [|Hgt]; [assumption|].
  exfalso.
  assert (2 ^ k <= 2 ^ (Zpos (digits2_pos p) - 1))
    by (apply Z.pow_le_mono_r; lia).
  lia.
Qed.

(** The mantissa and exponent of a binary64 number. *)
Lemma valid_finite (x : float) (s : bool) (m : positive) (e : Z) :
  Prim2SF x = S754_finite s m e ->
  Zpos m < 2 ^ 53 /\ -1074 <= e <= 971
  /\ (-1074 < e -> 2 ^ 52 <= Zpos m).
Proof.
  intros Hx. assert (Hv := Prim2SF_valid x). rewrite Hx in Hv.
  unfold SpecFloat.valid_binary, bounded, canonical_mantissa, fexp in Hv.
  apply andb_prop in Hv. destruct Hv as [Hc He].
  apply Z.eqb_eq in Hc. apply Z.leb_le in He.
  change (SpecFloat.emin prec emax) with (-1074) in Hc.
  change prec with 53 in *. change emax with 1024 in *.
  destruct (digits2_pos_bounds m) as [Hlo Hhi].
  set (d := Zpos (digits2_pos m)) in *.
  assert (Hd : d <= 53) by lia.
  assert (2 ^ d <= 2 ^ 53) by (apply Z.pow_le_mono_r; lia).
  split; [lia|]. split; [lia|].
  intros Hn. assert (d = 53) by lia.
  replace (d - 1) with 52 in Hlo by lia. exact Hlo.
Qed.

Lemma shr_exp (mrs : shr_record) (e n : Z) :
  snd (shr mrs e n) = Z.max e (e + n).
Proof. destruct n; simpl; lia. Qed.

Lemma shr_fexp_exp (m e : Z) (l : location) :
  snd (shr_fexp prec emax m e l)
  = Z.max e (fexp prec emax (Zdigits2 m + e)).
Proof. unfold shr_fexp. rewrite shr_exp. f_equal. lia. Qed.

Lemma shr_1_m (mrs : shr_record) :
  0 <= shr_m mrs -> shr_m (shr_1 mrs) = shr_m mrs / 2.
Proof.
  destruct mrs as [m r s]; simpl. intros H.
  destruct m as [|[p|p|]|[p|p|]]; try lia; try reflexivity.
  - simpl. rewrite Pos2Z.inj_xI.
    apply (Z.div_unique_pos _ _ _ 1); lia.
  - simpl. rewrite Pos2Z.inj_xO.
    apply (Z.div_unique_pos _ _ _ 0); lia.
Qed.

(** Shifting right by [p] places divides the mantissa by [2^p]. *)
Lemma iter_shr_1_m (p : positive) (mrs : shr_record) :
  0 <= shr_m mrs ->
  shr_m (iter_pos shr_1 p mrs) = shr_m mrs / 2 ^ Zpos p.
Proof.
  revert mrs. induction p as [p IH|p IH|]; intros mrs H; simpl iter_pos.
  - assert (H1 : 0 <= shr_m (shr_1 mrs)) by (rewrite shr_1_m; [apply Z.div_pos|]; lia).
    assert (H2 : 0 <= shr_m (iter_pos shr_1 p (shr_1 mrs)))
      by (rewrite IH; [apply Z.div_pos; [|apply Z.pow_pos_nonneg]|]; lia).
    rewrite IH, IH, shr_1_m by assumption.
    rewrite !Z.div_div by (try apply Z.pow_pos_nonneg; lia).
    f_equal.
    replace (Zpos p~1) with (1 + Zpos p + Zpos p) by lia.
    rewrite !Z.pow_add_r by lia. lia.
  - assert (H2 : 0 <= shr_m (iter_pos shr_1 p mrs))
      by (rewrite IH; [apply Z.div_pos; [|apply Z.pow_pos_nonneg]|]; lia).
    rewrite IH, IH by assumption.
    rewrite !Z.div_div by (try apply Z.pow_pos_nonneg; lia).
    f_equal.
    replace (Zpos p~0) with (Zpos p + Zpos p) by lia.
    rewrite !Z.pow_add_r by lia. lia.
  - now apply shr_1_m.
Qed.

(** After [shr_fexp] the mantissa has at most 53 digits. *)
Lemma shr_fexp_m_lt (m e : Z) (l : location) :
  0 <= m -> shr_m (fst (shr_fexp prec emax m e l)) < 2 ^ 53.
Proof.
  intros Hm. unfold shr_fexp, shr.
  set (d := Zdigits2 m).
  assert (Hd : 0 <= m < 2 ^ d /\ 0 <= d).
  { unfold d. destruct m as [|p|p]; simpl; try lia.
    destruct (digits2_pos_bounds p). lia. }
  unfold fexp. change (SpecFloat.emin prec emax) with (-1074).
  change prec with 53.
  destruct (Z.max (d + e - 53) (-1074) - e) as [|n|n] eqn:Hn; simpl fst.
  - rewrite shr_m_of_loc.
    assert (2 ^ d <= 2 ^ 53) by (apply Z.pow_le_mono_r; lia). lia.
  - rewrite iter_shr_1_m by (rewrite shr_m_of_loc; lia).
    rewrite shr_m_of_loc.
    apply Z.div_lt_upper_bound; [apply Z.pow_pos_nonneg; lia|].
    rewrite <- Z.pow_add_r by lia.
    assert (2 ^ d <= 2 ^ (Zpos n + 53)) by (apply Z.pow_le_mono_r; lia).
    lia.
  - rewrite shr_m_of_loc.
    assert (2 ^ d <= 2 ^ 53) by (apply Z.pow_le_mono_r; lia). lia.
Qed.

(** Rounding a mantissa below [2^k] at an exponent [e] does not overflow
    when [e] and [k + e - 53] are below the largest exponent. *)
Lemma binary_round_aux_finite (s : bool) (m e k : Z) (l : location) :
  0 <= m < 2 ^ k -> 0 <= k -> e < 971 -> k + e - 53 < 971 ->
  forall s', binary_round_aux prec emax s m e l <> S754_infinity s'.
Proof.
  intros Hm Hk He Hke s'. unfold binary_round_aux.
  destruct (shr_fexp prec emax m e l) as [mrs' e'] eqn:H1.
  assert (B1 := shr_fexp_bounds m e l ltac:(lia)). rewrite H1 in B1.
  assert (L1 := shr_fexp_m_lt m e l ltac:(lia)). rewrite H1 in L1.
  assert (E1 := shr_fexp_exp m e l). rewrite H1 in E1.
  simpl in B1, L1, E1.
  set (m1 := round_nearest_even (shr_m mrs') (loc_of_shr_record mrs')).
  assert (B2 : 0 <= m1 <= shr_m mrs' + 1)
    by (apply round_nearest_even_bounds; lia).
  destruct (shr_fexp prec emax m1 e' loc_Exact) as [mrs'' e''] eqn:H2.
  assert (E2 := shr_fexp_exp m1 e' loc_Exact). rewrite H2 in E2.
  simpl in E2.
  assert (D0 : Zdigits2 m <= k) by (apply Zdigits2_le; lia).
  assert (D1 : Zdigits2 m1 <= 54) by (apply Zdigits2_le; lia).
  unfold fexp in E1, E2.
  change (SpecFloat.emin prec emax) with (-1074) in *.
  change prec with 53 in *. change emax with 1024 in *.
  assert (e'' <= 971) by lia.
  destruct (shr_m mrs'') as [|p|p]; try discriminate.
  destruct (Z.leb_spec e'' (1024 - 53)); [discriminate|lia].
Qed.

(** [x * c] is a number when [x] is and [c] is finite and not zero. *)
Lemma SFmul_not_nan (x : spec_float) (s : bool) (m : positive) (e : Z) :
  x <> S754_nan ->
  SFmul prec emax x (S754_finite s m e) <> S754_nan.
Proof.
  destruct x as [sx|sx| |sx mx ex]; simpl; try congruence.
  intros _. eapply sf_signed_not_nan, binary_round_aux_signed. lia.
Qed.

Lemma binary_normalize_not_nan (n e : Z) (sz : bool) :
  binary_normalize prec emax n e sz <> S754_nan.
Proof.
  destruct n as [|p|p]; simpl; try discriminate;
    eapply sf_signed_not_nan, binary_round_signed.
Qed.

(** [x + y] is a number when [x] is and [y] is finite. *)
Lemma SFadd_not_nan (x y : spec_float) :
  x <> S754_nan -> Binary64.sf_finite y -> SFadd prec emax x y <> S754_nan.
Proof.
  destruct x as [sx|sx| |sx mx ex], y as [sy|sy| |sy my ey]; simpl;
    try congruence; try tauto; intros _ _.
  - destruct sx, sy; discriminate.
  - apply binary_normalize_not_nan.
Qed.

(** [x - y] is a number when [x] is and [y] is finite. *)
Lemma SFsub_not_nan (x y : spec_float) :
  x <> S754_nan -> Binary64.sf_finite y -> SFsub prec emax x y <> S754_nan.
Proof.
  destruct x as [sx|sx| |sx mx ex], y as [sy|sy| |sy my ey]; simpl;
    try congruence; try tauto; intros _ _.
  - destruct sx, sy; discriminate.
  - apply binary_normalize_not_nan.
Qed.

End Magnitude.

Section Clamp.
Local Open Scope float_scope.

Lemma Math_max_ge_l (a b : float) :
  is_nan a = false -> is_nan b = false ->
  is_nan (JS.Math_max a b) = false /\ (a <=? JS.Math_max a b) = true.
Proof.
  intros Ha Hb. unfold JS.Math_max. rewrite Ha, Hb. simpl orb.
  destruct (a <? b) eqn:H1; [split; [assumption|now apply ltb_leb]|].
  destruct (b <? a) eqn:H2; [split; [assumption|now apply leb_refl]|].
  destruct (get_sign a).
  - split; [assumption|]. now apply not_ltb_leb.
  - split; [assumption|now apply leb_refl].
Qed.

Lemma Math_min_range (lo m hi : float) :
  is_nan m = false -> is_nan hi = false ->
  (lo <=? m) = true -> (lo <=? hi) = true ->
  (lo <=? JS.Math_min m hi) = true /\ (JS.Math_min m hi <=? hi) = true.
Proof.
  intros Hm Hhi Hlm Hlh. unfold JS.Math_min. rewrite Hm, Hhi. simpl orb.
  destruct (m <? hi) eqn:H1; [split; [assumption|now apply ltb_leb]|].
  destruct (hi <? m) eqn:H2; [split; [assumption|now apply leb_refl]|].
  destruct (get_sign m).
  - split; [assumption|]. now apply not_ltb_leb.
  - split; [assumption|now apply leb_refl].
Qed.

(** [Math.min(Math.max(lo, x), hi)] lies in [lo, hi] when [x] is a number. *)
Lemma clamp_range (lo hi x : float) :
  is_nan lo = false -> is_nan hi = false -> (lo <=? hi) = true ->
  is_nan x = false ->
  (lo <=? JS.Math_min (JS.Math_max lo x) hi) = true
  /\ (JS.Math_min (JS.Math_max lo x) hi <=? hi) = true.
Proof.
  intros Hlo Hhi Hle Hx.
  destruct (Math_max_ge_l lo x Hlo Hx) as [Hn Hge].
  now apply Math_min_range.
Qed.

Lemma SFcompare_pos (m1 : positive) (e1 : Z) (m2 : positive) (e2 : Z) :
  SFcompare (S754_finite false m1 e1) (S754_finite false m2 e2)
  = Some match (e1 ?= e2)%Z with
         | Lt => Lt
         | Gt => Gt
         | Eq => (Zpos m1 ?= Zpos m2)%Z
         end.
Proof. reflexivity. Qed.

(** Rounding a positive number below 1e21 to [d] decimals. *)
Lemma toFixed_parse_finite_pos (d : Z) (r : float) (m : positive) (e : Z) :
  Prim2SF r = S754_finite false m e -> (e < 17)%Z ->
  JS.toFixed_parse d r
  = JS.decimal_to_number (JS.scaled_round d (S754_finite false m e)) d.
Proof.
  intros Hr He. unfold JS.toFixed_parse.
  assert (Hn : is_nan r = false) by (apply is_nan_false; congruence).
  rewrite Hn.
  assert (Ha : Prim2SF (abs r) = S754_finite false m e)
    by (rewrite abs_spec, Hr; reflexivity).
  unfold is_infinity. rewrite eqb_spec, leb_spec, ltb_spec, Ha, Hr.
  change (Prim2SF infinity) with (S754_infinity false).
  change (Prim2SF 1e21) with (S754_finite false 7629394531250000 17).
  change (Prim2SF 0) with (S754_zero false).
  unfold SFeqb, SFleb, SFltb. rewrite SFcompare_pos.
  replace (17 ?= e)%Z with Gt by (symmetry; apply Z.compare_gt_iff; lia).
  reflexivity.
Qed.

Lemma hundredths_15_60_check :
  forallb (fun n => (15 <=? JS.decimal_to_number n 2)
                    && (JS.decimal_to_number n 2 <=? 60))
          Binary64.hundredths_15_60 = true.
Proof. vm_compute. reflexivity. Qed.

Lemma decimal_to_number_15_60 (n : Z) :
  (1500 <= n <= 6000)%Z ->
  (15 <=? JS.decimal_to_number n 2) = true
  /\ (JS.decimal_to_number n 2 <=? 60) = true.
Proof.
  intros Hn.
  assert (Hin : In n Binary64.hundredths_15_60).
  { unfold Binary64.hundredths_15_60. apply in_map_iff.
    exists (Z.to_nat (n - 1500)). split; [lia|]. apply in_seq. lia. }
  pose proof (proj1 (forallb_forall _ _) hundredths_15_60_check n Hin) as H.
  now apply andb_prop in H.
Qed.

(** Rounding a speed of [15, 60] to 2 decimals stays in [15, 60]. *)
Lemma toFixed_parse_15_60 (r : float) :
  (15 <=? r) = true -> (r <=? 60) = true ->
  (15 <=? JS.toFixed_parse 2 r) = true
  /\ (JS.toFixed_parse 2 r <=? 60) = true.
Proof.
  intros Hlo Hhi.
  pose proof Hlo as Hlo'. pose proof Hhi as Hhi'.
  rewrite leb_spec in Hlo', Hhi'.
  change (Prim2SF 15) with (S754_finite false 8444249301319680 (-49)) in Hlo'.
  change (Prim2SF 60) with (S754_finite false 8444249301319680 (-47)) in Hhi'.
  destruct (Prim2SF r) as [s|s| |s m e] eqn:Hr;
    try discriminate; try (destruct s; discriminate).
  destruct s; [discriminate|].
  destruct (valid_finite r false m e Hr) as (Hm & He & Hnorm).
  unfold SFleb in Hlo', Hhi'. rewrite SFcompare_pos in Hlo', Hhi'.
  assert (Hcases :
            (e = -49 /\ 8444249301319680 <= Zpos m)%Z
            \/ e = (-48)%Z
            \/ (e = -47 /\ Zpos m <= 8444249301319680)%Z).
  { destruct (Z.compare_spec (-49) e) as [<-| |]; try discriminate.
    - left. split; [reflexivity|].
      destruct (Z.compare_spec 8444249301319680 (Z.pos m)); try discriminate; lia.
    - destruct (Z.compare_spec e (-47)) as [->| |]; try discriminate.
      + right; right. split; [reflexivity|].
        destruct (Z.compare_spec (Z.pos m) 8444249301319680); try discriminate; lia.
      + right; left. lia. }
  rewrite (toFixed_parse_finite_pos 2 r m e Hr) by lia.
  apply decimal_to_number_15_60.
  assert (H52 : (2 ^ 52 <= Zpos m)%Z) by (apply Hnorm; lia).
  change (2 ^ 52)%Z with 4503599627370496%Z in H52.
  change (2 ^ 53)%Z with 9007199254740992%Z in Hm.
  unfold JS.scaled_round.
  destruct Hcases as [[-> H1] | [-> | [-> H1]]]; cbv zeta;
    change (10 ^ 2)%Z with 100%Z.
  - change (0 <=? -49)%Z with false. cbv iota.
    change (2 ^ (- -49))%Z with 562949953421312%Z.
    change (2 ^ (1 - -49))%Z with 1125899906842624%Z.
    split; [apply Z.div_le_lower_bound|apply Z.lt_succ_r, Z.div_lt_upper_bound]; lia.
  - change (0 <=? -48)%Z with false. cbv iota.
    change (2 ^ (- -48))%Z with 281474976710656%Z.
    change (2 ^ (1 - -48))%Z with 562949953421312%Z.
    split; [apply Z.div_le_lower_bound|apply Z.lt_succ_r, Z.div_lt_upper_bound]; lia.
  - change (0 <=? -47)%Z with false. cbv iota.
    change (2 ^ (- -47))%Z with 140737488355328%Z.
    change (2 ^ (1 - -47))%Z with 281474976710656%Z.
    split; [apply Z.div_le_lower_bound|apply Z.lt_succ_r, Z.div_lt_upper_bound]; lia.
Qed.

End Clamp.

Section Routes.
Local Open Scope string_scope.
Local Open Scope float_scope.

(** A draw of [Math.random()] times a factor below [2^53] is finite. *)
Lemma random_scaled_finite (u : float) (m : positive) (e : Z) :
  (0 <=? u) = true -> (u <? 1) = true ->
  (Zpos m < 2 ^ 53)%Z -> (e <= 0)%Z ->
  Binary64.sf_finite (SFmul prec emax (Prim2SF u) (S754_finite false m e)).
Proof.
  intros H0 H1 Hm He.
  rewrite leb_spec in H0. rewrite ltb_spec in H1.
  change (Prim2SF 0) with (S754_zero false) in H0.
  change (Prim2SF 1) with (S754_finite false 4503599627370496 (-52)) in H1.
  destruct (Prim2SF u) as [s|s| |s mu eu] eqn:Hu;
    try discriminate; try (destruct s; discriminate).
  - exact I.
  - destruct s; [discriminate|].
    destruct (valid_finite u false mu eu Hu) as (Hmu & _ & _).
    unfold SFltb in H1. rewrite SFcompare_pos in H1.
    assert (Heu : (eu <= -52)%Z).
    { destruct (Z.compare_spec eu (-52)); try discriminate; lia. }
    simpl SFmul.
    assert (Hs := binary_round_aux_signed false (Zpos (mu * m)) (eu + e)
                    loc_Exact ltac:(lia)).
    assert (Hf := binary_round_aux_finite false (Zpos (mu * m)) (eu + e) 106
                    loc_Exact).
    destruct (binary_round_aux prec emax false (Z.pos (mu * m)) (eu + e)
                loc_Exact) as [s'|s'| |s' m' e']; try exact I.
    + exfalso. apply (Hf ltac:(rewrite Pos2Z.inj_mul;
                               change (2 ^ 106)%Z with (2 ^ 53 * 2 ^ 53)%Z;
                               nia)
                        ltac:(lia) ltac:(lia) ltac:(lia) s' eq_refl).
    + contradiction.
Qed.

(** The speed expression of the URBAN case is a number whenever the input
    speed is one and the draw lies in [0, 1). *)
Lemma urban_expression_number (speed u : float) :
  is_nan speed = false -> (0 <=? u) = true -> (u <? 1) = true ->
  is_nan (speed * 0.6 + u * 20 - 10) = false.
Proof.
  intros Hs H0 H1. apply is_nan_false.
  rewrite sub_spec, add_spec, !mul_spec.
  change (Prim2SF 20) with (S754_finite false 5629499534213120 (-48)).
  change (Prim2SF 10) with (S754_finite false 5629499534213120 (-49)).
  change (Prim2SF 0.6) with (S754_finite false 5404319552844595 (-53)).
  apply SFsub_not_nan; [|exact I].
  apply SFadd_not_nan.
  - apply SFmul_not_nan. now apply is_nan_false.
  - apply random_scaled_finite; try assumption; lia.
Qed.

Lemma modifyDataForRoute_URBAN_speed
  (w : LocalDriveSimulator.Entropy) (dataPoint : DataPoint) :
  speed_kmph (LocalDriveSimulator.modifyDataForRoute w dataPoint "URBAN")
  = JS.toFixed_parse 2
      (JS.Math_min
         (JS.Math_max 15
            (speed_kmph dataPoint * 0.6
             + LocalDriveSimulator.rnd_speed w * 20 - 10))
         60).
Proof. reflexivity. Qed.

(** C5, as the code has it.  For every input sample whose speed is a
    number (not [NaN]) and every draw of [Math.random()], which lies in
    [0, 1), the URBAN transformation produces a speed in [15, 60], also
    after the rounding to 2 decimals. *)
Theorem modifyDataForRoute_URBAN_speed_range
  (w : LocalDriveSimulator.Entropy) (dataPoint : DataPoint) :
  is_nan (speed_kmph dataPoint) = false ->
  (0 <=? LocalDriveSimulator.rnd_speed w) = true ->
  (LocalDriveSimulator.rnd_speed w <? 1) = true ->
  let out := LocalDriveSimulator.modifyDataForRoute w dataPoint "URBAN" in
  (15 <=? speed_kmph out) = true /\ (speed_kmph out <=? 60) = true.
Proof.
  intros Hs H0 H1 out. unfold out.
  rewrite modifyDataForRoute_URBAN_speed.
  assert (Hx := urban_expression_number _ _ Hs H0 H1).
  destruct (clamp_range 15 60 _ eq_refl eq_refl eq_refl Hx) as [Hlo Hhi].
  now apply toFixed_parse_15_60.
Qed.

Lemma toFixed_parse_nan (d : Z) (x : float) :
  is_nan x = true -> is_nan (JS.toFixed_parse d x) = true.
Proof. intros H. unfold JS.toFixed_parse. now rewrite H. Qed.

Lemma modifyDataForRoute_fuel
  (w : LocalDriveSimulator.Entropy) (dataPoint : DataPoint)
  (routeType : string) :
  let out := LocalDriveSimulator.modifyDataForRoute w dataPoint routeType in
  fuel_level_pct out
  = JS.toFixed_parse 2
      (JS.Math_max 0
         (fuel_level_pct dataPoint
          - 0.01
            * (if (50 <? speed_kmph out) && (speed_kmph out <? 90)
               then 0.9 else 1.2)
            * (engine_rpm out / 2000))).
Proof.
  unfold LocalDriveSimulator.modifyDataForRoute.
  destruct (String.eqb routeType "URBAN");
    [|destruct (String.eqb routeType "HIGHWAY");
      [|destruct (String.eqb routeType "MOUNTAIN");
        [|destruct (String.eqb routeType "RURAL")]]];
    reflexivity.
Qed.

(** C4, as the code has it.  For every input sample and every route type,
    [modifyDataForRoute] sets the fuel level to the input level minus
    [0.01 * fuelFactor * (rpm / 2000)], clamped at 0 by [Math.max] and
    rounded to 2 decimals, where [fuelFactor] is 0.9 if the adjusted speed
    is strictly between 50 and 90 km/h and 1.2 otherwise, and [rpm] is the
    adjusted RPM; the result is at least 0 whenever it is a number. *)
Theorem modifyDataForRoute_fuel_rule
  (w : LocalDriveSimulator.Entropy) (dataPoint : DataPoint)
  (routeType : string) :
  let out := LocalDriveSimulator.modifyDataForRoute w dataPoint routeType in
  fuel_level_pct out
  = JS.toFixed_parse 2
      (JS.Math_max 0
         (fuel_level_pct dataPoint
          - 0.01
            * (if (50 <? speed_kmph out) && (speed_kmph out <? 90)
               then 0.9 else 1.2)
            * (engine_rpm out / 2000)))
  /\ (is_nan (fuel_level_pct out) = false ->
      (0 <=? fuel_level_pct out) = true).
Proof.
  intros out. split; [apply modifyDataForRoute_fuel|].
  unfold out. rewrite modifyDataForRoute_fuel.
  set (y := fuel_level_pct dataPoint - _).
  destruct (Math_max_0 y) as [Hn|Hge].
  - intros H. rewrite (toFixed_parse_nan 2 _ Hn) in H. discriminate.
  - intros _. apply toFixed_parse_nonneg; [lia|assumption].
Qed.

Lemma modifyDataForRoute_fuel_rule_witness :
  let out :=
    LocalDriveSimulator.modifyDataForRoute
      Examples.calm Examples.fast "URBAN" in
  is_nan (fuel_level_pct out) = false
  /\ (0 <=? fuel_level_pct out) = true
  /\ fuel_level_pct out = 49.99.
Proof.
  intros out.
  assert (H : is_nan (fuel_level_pct out) = false) by (vm_compute; reflexivity).
  split; [exact H|].
  split;
    [exact (proj2 (modifyDataForRoute_fuel_rule
                     Examples.calm Examples.fast "URBAN") H)
    | vm_compute; reflexivity].
Defined.

(** On the URBAN route the reading [Examples.fast] gets the adjusted speed
    45 km/h, strictly between 40 and 90, and yet the factor is 1.2: the
    fuel level becomes 49.99, where the factor 0.9 gives 49.996425, which
    rounds to 50. *)
Lemma modifyDataForRoute_fuel_rule_counterexample :
  let out :=
    LocalDriveSimulator.modifyDataForRoute
      Examples.calm Examples.fast "URBAN" in
  let claimed :=
    Spec.fuelAfter (fuel_level_pct Examples.fast)
                   (speed_kmph out) (engine_rpm out) in
  speed_kmph out = 45
  /\ (40 <? speed_kmph out) = true /\ (speed_kmph out <? 90) = true
  /\ Spec.fuelFactor (speed_kmph out) = 0.9
  /\ LocalDriveSimulator.fuelConsumptionFactor (speed_kmph out) = 1.2
  /\ fuel_level_pct out = 49.99
  /\ JS.toFixed_parse 2 claimed = 50
  /\ (fuel_level_pct out =? claimed) = false
  /\ (fuel_level_pct out =? JS.toFixed_parse 2 claimed) = false.
Proof. vm_compute. repeat split. Qed.

Lemma modifyDataForRoute_URBAN_speed_range_witness :
  is_nan (speed_kmph Examples.fast) = false
  /\ (0 <=? LocalDriveSimulator.rnd_speed Examples.calm) = true
  /\ (LocalDriveSimulator.rnd_speed Examples.calm <? 1) = true
  /\ (let out :=
        LocalDriveSimulator.modifyDataForRoute
          Examples.calm Examples.fast "URBAN" in
      (15 <=? speed_kmph out) = true /\ (speed_kmph out <=? 60) = true).
Proof.
  assert (Hs : is_nan (speed_kmph Examples.fast) = false)
    by (vm_compute; reflexivity).
  assert (H0 : (0 <=? LocalDriveSimulator.rnd_speed Examples.calm) = true)
    by (vm_compute; reflexivity).
  assert (H1 : (LocalDriveSimulator.rnd_speed Examples.calm <? 1) = true)
    by (vm_compute; reflexivity).
  split; [exact Hs|]. split; [exact H0|]. split; [exact H1|].
  exact (modifyDataForRoute_URBAN_speed_range
           Examples.calm Examples.fast Hs H0 H1).
Defined.

(** A reading whose speed is [NaN] keeps the speed [NaN] on the URBAN
    route: it is not in [15, 60]. *)
Lemma modifyDataForRoute_URBAN_speed_range_counterexample :
  let out :=
    LocalDriveSimulator.modifyDataForRoute
      Examples.calm Examples.unparsed "URBAN" in
  is_nan (speed_kmph Examples.unparsed) = true
  /\ is_nan (speed_kmph out) = true
  /\ (15 <=? speed_kmph out) = false
  /\ (speed_kmph out <=? 60) = false.
Proof. vm_compute. repeat split. Qed.

End Routes.

(** ** Rounding to nearest: what [binary_round_aux] computes, and its
    monotonicity *)

Import Binary64.

Section IntegerRounding.
Local Open Scope Z_scope.

Lemma loc_of_shr_record_of_loc (m : Z) (l : location) :
  loc_of_shr_record (shr_record_of_loc m l) = l.
Proof. destruct l as [|[| |]]; reflexivity. Qed.

Lemma locates_floor (mrs : shr_record) (a b : Z) :
  locates mrs a b -> shr_m mrs = a / b.
Proof.
  intros (Hb & Hm & Hab & _).
  apply (Z.div_unique_pos a b (shr_m mrs) (a - shr_m mrs * b)); lia.
Qed.

Lemma locates_exact (m : Z) :
  0 <= m -> locates (shr_record_of_loc m loc_Exact) m 1.
Proof.
  intros Hm. unfold locates. rewrite shr_m_of_loc.
  repeat split; try lia.
  unfold loc_of. rewrite Z.mul_1_r, Z.eqb_refl. reflexivity.
Qed.

(** One step of the right shift halves the located fraction. *)
Lemma shr_1_locates (mrs : shr_record) (a b : Z) :
  locates mrs a b -> locates (shr_1 mrs) a (2 * b).
Proof.
  intros (Hb & Hm & Hab & Hl).
  destruct mrs as [m r s]. simpl in Hm, Hab, Hl.
  unfold locates, loc_of in *.
  destruct (Z.eqb_spec a (m * b)) as [He|Hne].
  - (* exact *)
    destruct r, s; try discriminate.
    destruct m as [|[p|p|]|[p|p|]]; try lia; simpl shr_1; simpl shr_m;
      simpl loc_of_shr_record.
    + repeat split; try lia. destruct (Z.eqb_spec a (0 * (2 * b))); [reflexivity|lia].
    + assert (Hp := Pos2Z.inj_xI p). repeat split; try lia.
      destruct (Z.eqb_spec a (Z.pos p * (2 * b))); [lia|].
      f_equal. symmetry. apply Z.compare_eq_iff. lia.
    + assert (Hp := Pos2Z.inj_xO p). repeat split; try lia.
      destruct (Z.eqb_spec a (Z.pos p * (2 * b))); [reflexivity|lia].
    + repeat split; try lia.
      destruct (Z.eqb_spec a (0 * (2 * b))); [lia|].
      f_equal. symmetry. apply Z.compare_eq_iff. lia.
  - (* inexact *)
    assert (Hrs : orb r s = true) by (destruct r, s; try discriminate; reflexivity).
    destruct m as [|[p|p|]|[p|p|]]; try lia; simpl shr_1; simpl shr_m;
      rewrite Hrs; simpl loc_of_shr_record.
    + repeat split; try lia. destruct (Z.eqb_spec a (0 * (2 * b))); [lia|].
      f_equal. symmetry. apply Z.compare_lt_iff. lia.
    + assert (Hp := Pos2Z.inj_xI p). repeat split; try lia.
      destruct (Z.eqb_spec a (Z.pos p * (2 * b))); [lia|].
      f_equal. symmetry. apply Z.compare_gt_iff. lia.
    + assert (Hp := Pos2Z.inj_xO p). repeat split; try lia.
      destruct (Z.eqb_spec a (Z.pos p * (2 * b))); [lia|].
      f_equal. symmetry. apply Z.compare_lt_iff. lia.
    + repeat split; try lia.
      destruct (Z.eqb_spec a (0 * (2 * b))); [lia|].
      f_equal. symmetry. apply Z.compare_gt_iff. lia.
Qed.

(** A right shift by [p] places divides the located fraction by [2^p]. *)
Lemma iter_shr_1_locates (p : positive) (mrs : shr_record) (a b : Z) :
  locates mrs a b -> locates (iter_pos shr_1 p mrs) a (b * 2 ^ Zpos p).
Proof.
  revert mrs b. induction p as [p IH|p IH|]; intros mrs b H; simpl iter_pos.
  - apply shr_1_locates in H. apply IH in H. apply IH in H.
    replace (b * 2 ^ Zpos p~1) with (2 * b * 2 ^ Zpos p * 2 ^ Zpos p);
      [exact H|].
    replace (Zpos p~1) with (1 + Zpos p + Zpos p) by lia.
    rewrite !Z.pow_add_r by lia. lia.
  - apply IH in H. apply IH in H.
    replace (b * 2 ^ Zpos p~0) with (b * 2 ^ Zpos p * 2 ^ Zpos p);
      [exact H|].
    replace (Zpos p~0) with (Zpos p + Zpos p) by lia.
    rewrite !Z.pow_add_r by lia. lia.
  - apply shr_1_locates in H.
    replace (b * 2 ^ 1) with (2 * b) by lia. exact H.
Qed.

Lemma rne_bounds (a b : Z) : 0 < b -> a / b <= rne a b <= a / b + 1.
Proof.
  intros Hb. unfold rne.
  destruct (loc_of a b (a / b)) as [|[| |]]; unfold round_nearest_even;
    try lia.
  destruct (Z.even (a / b)); lia.
Qed.

(** Rounding to nearest is monotone in the fraction. *)
Lemma rne_mono (a1 b1 a2 b2 : Z) :
  0 < b1 -> 0 < b2 -> a1 * b2 <= a2 * b1 -> rne a1 b1 <= rne a2 b2.
Proof.
  intros Hb1 Hb2 Hle.
  assert (Hq : a1 / b1 <= a2 / b2).
  { apply Z.div_le_lower_bound; [assumption|].
    assert (H1 := Z.mul_div_le a1 b1 Hb1).
    apply Z.nlt_ge. intros Hlt.
    assert (H2 : a2 < b2 * (a1 / b1)) by lia.
    nia. }
  destruct (Z.eq_dec (a1 / b1) (a2 / b2)) as [Heq|Hneq].
  - unfold rne. rewrite <- Heq. set (m := a1 / b1) in *.
    assert (M1 := Z.mul_div_le a1 b1 Hb1). fold m in M1.
    assert (M2 := Z.mul_div_le a2 b2 Hb2). rewrite <- Heq in M2.
    assert (N1 := Z.mul_succ_div_gt a1 b1 Hb1). fold m in N1.
    assert (N2 := Z.mul_succ_div_gt a2 b2 Hb2). rewrite <- Heq in N2.
    unfold loc_of.
    destruct (Z.eqb_spec a1 (m * b1)) as [E1|E1];
      destruct (Z.eqb_spec a2 (m * b2)) as [E2|E2]; unfold round_nearest_even.
    + lia.
    + destruct (2 * (a2 - m * b2) ?= b2); [destruct (Z.even m)| |]; lia.
    + exfalso. nia.
    + destruct (Z.compare_spec (2 * (a1 - m * b1)) b1) as [C1|C1|C1];
        destruct (Z.compare_spec (2 * (a2 - m * b2)) b2) as [C2|C2|C2];
        try (destruct (Z.even m)); try lia; exfalso; nia.
  - assert (H1 := rne_bounds a1 b1 Hb1). assert (H2 := rne_bounds a2 b2 Hb2).
    lia.
Qed.

End IntegerRounding.

Section RoundingSemantics.
Local Open Scope Z_scope.

Lemma fexp_ge_emin (x : Z) : -1074 <= fexp prec emax x.
Proof. unfold fexp. change (SpecFloat.emin prec emax) with (-1074). lia. Qed.

Lemma fexp_eq (x : Z) : fexp prec emax x = Z.max (x - 53) (-1074).
Proof. reflexivity. Qed.

Lemma Zdigits2_bounds (m : Z) :
  0 < m -> 2 ^ (Zdigits2 m - 1) <= m < 2 ^ Zdigits2 m.
Proof.
  destruct m as [|p|p]; try lia. intros _. apply digits2_pos_bounds.
Qed.

Lemma Zdigits2_nonneg (m : Z) : 0 <= Zdigits2 m.
Proof. destruct m; simpl; lia. Qed.

(** The first shift of [binary_round_aux] locates the same fraction at the
    rounding exponent. *)
Lemma shr_fexp_locates (m e : Z) (l : location) (a b : Z) :
  locates (shr_record_of_loc m l) a b ->
  locates (fst (shr_fexp prec emax m e l)) a (b * 2 ^ (round_exp m e - e))
  /\ snd (shr_fexp prec emax m e l) = round_exp m e.
Proof.
  intros H. unfold shr_fexp, round_exp, shr.
  set (n := fexp prec emax (Zdigits2 m + e) - e).
  destruct n as [|p|p] eqn:Hn; simpl fst; simpl snd.
  - replace (Z.max e (fexp prec emax (Zdigits2 m + e))) with e by lia.
    rewrite Z.sub_diag, Z.mul_1_r. split; [exact H|reflexivity].
  - replace (Z.max e (fexp prec emax (Zdigits2 m + e))) with (e + Zpos p) by lia.
    replace (e + Zpos p - e) with (Zpos p) by lia.
    split; [now apply iter_shr_1_locates|reflexivity].
  - replace (Z.max e (fexp prec emax (Zdigits2 m + e))) with e by lia.
    rewrite Z.sub_diag, Z.mul_1_r. split; [exact H|reflexivity].
Qed.

(** The second shift renormalises a mantissa of [2^53] and leaves a
    smaller one alone. *)
Lemma shr_fexp_renorm (c E : Z) :
  0 <= c <= 2 ^ 53 -> -1074 <= E ->
  shr_m (fst (shr_fexp prec emax c E loc_Exact))
  = (if c =? 2 ^ 53 then 2 ^ 52 else c)
  /\ snd (shr_fexp prec emax c E loc_Exact)
     = (if c =? 2 ^ 53 then E + 1 else E).
Proof.
  intros Hc HE. unfold shr_fexp, shr. rewrite fexp_eq.
  destruct (Z.eqb_spec c (2 ^ 53)) as [->|Hne].
  - change (Zdigits2 (2 ^ 53)) with 54.
    replace (Z.max (54 + E - 53) (-1074) - E) with 1 by lia.
    split; reflexivity.
  - assert (Hd : Zdigits2 c <= 53) by (apply Zdigits2_le; lia).
    destruct (Z.max (Zdigits2 c + E - 53) (-1074) - E) as [|p|p] eqn:Hn;
      try lia; simpl; split; reflexivity.
Qed.

(** What [binary_round_aux] computes: the located fraction is rounded to
    nearest-even at the rounding exponent. *)
Lemma binary_round_aux_sem (s : bool) (m e : Z) (l : location) (a b : Z) :
  locates (shr_record_of_loc m l) a b ->
  binary_round_aux prec emax s m e l
  = round_result s (rne a (b * 2 ^ (round_exp m e - e))) (round_exp m e).
Proof.
  intros H.
  assert (Hm : 0 <= m) by (destruct H as (_ & H & _); now rewrite shr_m_of_loc in H).
  destruct (shr_fexp_locates m e l a b H) as [L1 E1].
  assert (M1 := shr_fexp_m_lt m e l Hm).
  unfold binary_round_aux.
  destruct (shr_fexp prec emax m e l) as [mrs' e'] eqn:H1.
  simpl in L1, E1, M1. subst e'.
  set (E := round_exp m e) in *. set (B := b * 2 ^ (E - e)) in *.
  assert (HB : 0 < B) by (destruct L1; assumption).
  assert (Hc : round_nearest_even (shr_m mrs') (loc_of_shr_record mrs')
               = rne a B).
  { unfold rne. rewrite <- (locates_floor _ _ _ L1).
    destruct L1 as (_ & _ & _ & ->). reflexivity. }
  rewrite Hc.
  assert (Hb := rne_bounds a B HB).
  rewrite <- (locates_floor _ _ _ L1) in Hb.
  assert (Hm' : 0 <= shr_m mrs') by (destruct L1 as (_ & ? & _); assumption).
  assert (HE : -1074 <= E).
  { unfold E, round_exp. assert (G := fexp_ge_emin (Zdigits2 m + e)). lia. }
  destruct (shr_fexp_renorm (rne a B) E ltac:(lia) HE) as [R1 R2].
  destruct (shr_fexp prec emax (rne a B) E loc_Exact) as [mrs'' e''] eqn:H2.
  simpl in R1, R2. unfold round_result. rewrite R1, R2. reflexivity.
Qed.

End RoundingSemantics.

Section RoundingOrder.
Local Open Scope Z_scope.

Lemma SFleb_pos (m1 : positive) (e1 : Z) (m2 : positive) (e2 : Z) :
  e1 < e2 \/ (e1 = e2 /\ Zpos m1 <= Zpos m2) ->
  SFleb (S754_finite false m1 e1) (S754_finite false m2 e2) = true.
Proof.
  intros H. unfold SFleb. rewrite SFcompare_pos.
  destruct (Z.compare_spec e1 e2) as [He|He|He]; try reflexivity; try lia.
  destruct (Z.compare_spec (Zpos m1) (Zpos m2)); try reflexivity; lia.
Qed.

Lemma SFleb_pos_inv (m1 : positive) (e1 : Z) (m2 : positive) (e2 : Z) :
  SFleb (S754_finite false m1 e1) (S754_finite false m2 e2) = true ->
  e1 < e2 \/ (e1 = e2 /\ Zpos m1 <= Zpos m2).
Proof.
  unfold SFleb. rewrite SFcompare_pos.
  destruct (Z.compare_spec e1 e2) as [He|He|He]; try discriminate; try lia.
  destruct (Z.compare_spec (Zpos m1) (Zpos m2)); try discriminate; lia.
Qed.

(** At one exponent the built value grows with the mantissa. *)
Lemma round_result_le_same (c1 c2 E : Z) :
  0 <= c1 <= c2 -> c2 <= 2 ^ 53 ->
  SFleb (round_result false c1 E) (round_result false c2 E) = true.
Proof.
  intros H1 H2. unfold round_result.
  change (2 ^ 53) with 9007199254740992 in *.
  change (2 ^ 52) with 4503599627370496 in *.
  destruct (Z.eqb_spec c1 9007199254740992) as [E1|E1];
    destruct (Z.eqb_spec c2 9007199254740992) as [E2|E2]; try lia.
  - destruct (E + 1 <=? 971); [apply SFleb_pos; lia|reflexivity].
  - destruct c1 as [|p1|p1]; try lia.
    + destruct (E + 1 <=? 971); reflexivity.
    + destruct (Z.leb_spec E 971), (Z.leb_spec (E + 1) 971); try lia;
        try reflexivity. apply SFleb_pos; lia.
  - destruct c1 as [|p1|p1], c2 as [|p2|p2]; try lia; try reflexivity.
    + destruct (E <=? 971); reflexivity.
    + destruct (E <=? 971); [apply SFleb_pos; lia|reflexivity].
Qed.

(** A value built at a smaller exponent is below a normal value built at a
    larger one. *)
Lemma round_result_le_lt (c1 c2 E1 E2 : Z) :
  E1 < E2 -> 0 <= c1 <= 2 ^ 53 -> 2 ^ 52 <= c2 <= 2 ^ 53 ->
  SFleb (round_result false c1 E1) (round_result false c2 E2) = true.
Proof.
  intros HE H1 H2. unfold round_result.
  change (2 ^ 53) with 9007199254740992 in *.
  change (2 ^ 52) with 4503599627370496 in *.
  destruct (Z.eqb_spec c1 9007199254740992) as [C1|C1];
    destruct (Z.eqb_spec c2 9007199254740992) as [C2|C2].
  - destruct (Z.leb_spec (E1 + 1) 971), (Z.leb_spec (E2 + 1) 971); try lia;
      try reflexivity. apply SFleb_pos; lia.
  - destruct c2 as [|p2|p2]; try lia.
    destruct (Z.leb_spec (E1 + 1) 971), (Z.leb_spec E2 971); try lia;
      try reflexivity. apply SFleb_pos; lia.
  - destruct c1 as [|p1|p1]; try lia.
    + destruct (E2 + 1 <=? 971); reflexivity.
    + destruct (Z.leb_spec E1 971), (Z.leb_spec (E2 + 1) 971); try lia;
        try reflexivity. apply SFleb_pos; lia.
  - destruct c1 as [|p1|p1], c2 as [|p2|p2]; try lia.
    + destruct (E2 <=? 971); reflexivity.
    + destruct (Z.leb_spec E1 971), (Z.leb_spec E2 971); try lia;
        try reflexivity. apply SFleb_pos; lia.
Qed.

(** The rounded mantissa of a fraction with enough digits. *)
Lemma rne_mantissa (m e a b : Z) :
  0 < m -> 0 < b -> m * b <= a < (m + 1) * b ->
  e <= fexp prec emax (Zdigits2 m + e) ->
  let E := round_exp m e in
  let c := rne a (b * 2 ^ (E - e)) in
  E = fexp prec emax (Zdigits2 m + e)
  /\ 0 <= c <= 2 ^ 53 /\ (-1074 < E -> 2 ^ 52 <= c).
Proof.
  intros Hm Hb Hab He E c.
  assert (HE : E = fexp prec emax (Zdigits2 m + e)) by (unfold E, round_exp; lia).
  split; [exact HE|].
  destruct (Zdigits2_bounds m Hm) as [Dlo Dhi].
  set (d := Zdigits2 m) in *.
  assert (Hd : 0 < d) by (unfold d; destruct m; simpl; lia).
  rewrite fexp_eq in HE, He.
  set (n := E - e). assert (Hn : 0 <= n) by (unfold n; lia).
  assert (Hnd : d - 53 <= n) by (unfold n; lia).
  assert (HP : 0 < 2 ^ n) by (apply Z.pow_pos_nonneg; lia).
  assert (HB : 0 < b * 2 ^ n) by lia.
  assert (Hr := rne_bounds a (b * 2 ^ n) HB).
  change (rne a (b * 2 ^ n)) with c in Hr.
  assert (Hfl : a / (b * 2 ^ n) < 2 ^ 53).
  { apply Z.div_lt_upper_bound; [assumption|].
    assert (2 ^ d <= 2 ^ (n + 53)) by (apply Z.pow_le_mono_r; lia).
    rewrite Z.pow_add_r in H by lia. nia. }
  assert (Hf0 : 0 <= a / (b * 2 ^ n)) by (apply Z.div_pos; nia).
  split; [lia|].
  intros Hnorm.
  assert (Hn' : n = d - 53) by (unfold n; lia).
  assert (2 ^ 52 <= a / (b * 2 ^ n)); [|lia].
  apply Z.div_le_lower_bound; [assumption|].
  assert (Hpow : 2 ^ (d - 1) = 2 ^ 52 * 2 ^ n).
  { rewrite <- Z.pow_add_r by lia. f_equal. lia. }
  nia.
Qed.

(** Two fractions in order have their leading bits in order. *)
Lemma leading_bit_mono (m1 e1 a1 b1 m2 e2 a2 b2 : Z) :
  0 < m1 -> 0 < b1 -> m1 * b1 <= a1 ->
  0 < m2 -> 0 < b2 -> a2 < (m2 + 1) * b2 ->
  a1 * b2 * 2 ^ (e1 - Z.min e1 e2) <= a2 * b1 * 2 ^ (e2 - Z.min e1 e2) ->
  Zdigits2 m1 + e1 <= Zdigits2 m2 + e2.
Proof.
  intros Hm1 Hb1 Ha1 Hm2 Hb2 Ha2 Hv.
  destruct (Zdigits2_bounds m1 Hm1) as [D1 _].
  destruct (Zdigits2_bounds m2 Hm2) as [_ D2].
  set (d1 := Zdigits2 m1) in *. set (d2 := Zdigits2 m2) in *.
  assert (Hd1 : 0 < d1) by (unfold d1; destruct m1; simpl; lia).
  assert (Hd2 : 0 < d2) by (unfold d2; destruct m2; simpl; lia).
  set (B := Z.min e1 e2) in *.
  set (P1 := 2 ^ (e1 - B)) in *. set (P2 := 2 ^ (e2 - B)) in *.
  assert (HP1 : 0 < P1) by (apply Z.pow_pos_nonneg; lia).
  assert (HP2 : 0 < P2) by (apply Z.pow_pos_nonneg; lia).
  assert (K1 : 2 ^ (d1 - 1) * b1 <= a1) by nia.
  assert (K2 : a2 < 2 ^ d2 * b2) by nia.
  assert (K : 2 ^ (d1 - 1) * P1 < 2 ^ d2 * P2).
  { assert (L1 : 2 ^ (d1 - 1) * b1 * (b2 * P1) <= a1 * (b2 * P1))
      by (apply Z.mul_le_mono_nonneg_r; nia).
    assert (L2 : a2 * (b1 * P2) < 2 ^ d2 * b2 * (b1 * P2))
      by (apply Z.mul_lt_mono_pos_r; nia).
    assert (L3 : 2 ^ (d1 - 1) * P1 * (b1 * b2) < 2 ^ d2 * P2 * (b1 * b2)) by nia.
    apply Z.mul_lt_mono_pos_r in L3; [exact L3|nia]. }
  unfold P1, P2 in K. rewrite <- !Z.pow_add_r in K by lia.
  apply Z.pow_lt_mono_r_iff in K; lia.
Qed.

End RoundingOrder.

Section RoundingMonotone.
Local Open Scope Z_scope.

(** Rounding is monotone: of two located fractions in order, the rounded
    values are in order. *)
Lemma binary_round_aux_mono
  (m1 e1 : Z) (l1 : location) (a1 b1 : Z)
  (m2 e2 : Z) (l2 : location) (a2 b2 : Z) :
  locates (shr_record_of_loc m1 l1) a1 b1 ->
  locates (shr_record_of_loc m2 l2) a2 b2 ->
  enough_digits m1 e1 -> enough_digits m2 e2 ->
  a1 * b2 * 2 ^ (e1 - Z.min e1 e2) <= a2 * b1 * 2 ^ (e2 - Z.min e1 e2) ->
  SFleb (binary_round_aux prec emax false m1 e1 l1)
        (binary_round_aux prec emax false m2 e2 l2) = true.
Proof.
  intros L1 L2 [Hm1 P1] [Hm2 P2] Hv.
  rewrite (binary_round_aux_sem false m1 e1 l1 a1 b1 L1).
  rewrite (binary_round_aux_sem false m2 e2 l2 a2 b2 L2).
  destruct L1 as (Hb1 & _ & Hab1 & _). destruct L2 as (Hb2 & _ & Hab2 & _).
  rewrite shr_m_of_loc in Hab1, Hab2.
  destruct (rne_mantissa m1 e1 a1 b1 Hm1 Hb1 Hab1 P1) as (HE1 & Hc1 & Hn1).
  destruct (rne_mantissa m2 e2 a2 b2 Hm2 Hb2 Hab2 P2) as (HE2 & Hc2 & Hn2).
  assert (HD := leading_bit_mono m1 e1 a1 b1 m2 e2 a2 b2
                  Hm1 Hb1 (proj1 Hab1) Hm2 Hb2 (proj2 Hab2) Hv).
  set (E1 := round_exp m1 e1) in *. set (E2 := round_exp m2 e2) in *.
  rewrite fexp_eq in HE1, HE2, P1, P2.
  assert (HE : E1 <= E2) by lia.
  destruct (Z.eq_dec E1 E2) as [Heq|Hneq].
  - rewrite <- Heq in *. apply round_result_le_same; [|lia].
    split; [lia|].
    apply rne_mono.
    + apply Z.mul_pos_pos; [assumption|apply Z.pow_pos_nonneg; lia].
    + apply Z.mul_pos_pos; [assumption|apply Z.pow_pos_nonneg; lia].
    + set (B := Z.min e1 e2) in *.
      set (k := E1 - e1 - e2 + B).
      assert (Hk : 0 <= k) by (unfold k, B; lia).
      assert (G1 : 2 ^ (E1 - e2) = 2 ^ (e1 - B) * 2 ^ k).
      { rewrite <- Z.pow_add_r by (unfold B; lia). f_equal. unfold k. lia. }
      assert (G2 : 2 ^ (E1 - e1) = 2 ^ (e2 - B) * 2 ^ k).
      { rewrite <- Z.pow_add_r by (unfold B; lia). f_equal. unfold k. lia. }
      rewrite G1, G2.
      assert (0 < 2 ^ k) by (apply Z.pow_pos_nonneg; lia).
      nia.
  - apply round_result_le_lt; [lia|lia|].
    split; [apply Hn2; lia|lia].
Qed.

Lemma Zdigits2_ge (m k : Z) : 0 <= k -> 2 ^ k <= m -> k + 1 <= Zdigits2 m.
Proof.
  intros Hk Hm.
  assert (H0 : 0 < m) by (assert (0 < 2 ^ k) by (apply Z.pow_pos_nonneg; lia); lia).
  destruct (Zdigits2_bounds m H0) as [_ Hhi].
  destruct (Z.le_gt_cases (k + 1) (Zdigits2 m)) as [|Hlt]; [assumption|].
  exfalso.
  assert (2 ^ Zdigits2 m <= 2 ^ k)
    by (apply Z.pow_le_mono_r; [lia|]; lia).
  lia.
Qed.

(** The canonical mantissa of a binary64 value has enough digits, and
    rounding it changes nothing. *)
Lemma canonical_enough (x : float) (m : positive) (e : Z) :
  Prim2SF x = S754_finite false m e ->
  enough_digits (Zpos m) e
  /\ binary_round_aux prec emax false (Zpos m) e loc_Exact
     = S754_finite false m e.
Proof.
  intros Hx. assert (Hv := Prim2SF_valid x). rewrite Hx in Hv.
  unfold SpecFloat.valid_binary, bounded, canonical_mantissa in Hv.
  apply andb_prop in Hv. destruct Hv as [Hc He].
  apply Z.eqb_eq in Hc. apply Z.leb_le in He.
  change (emax - prec) with 971 in He.
  assert (Hen : enough_digits (Zpos m) e).
  { split; [lia|]. simpl Zdigits2. lia. }
  split; [exact Hen|].
  rewrite (binary_round_aux_sem false (Zpos m) e loc_Exact (Zpos m) 1
             (locates_exact (Zpos m) (Pos2Z.is_nonneg m))).
  assert (HE : round_exp (Zpos m) e = e)
    by (unfold round_exp; simpl Zdigits2; lia).
  rewrite HE, Z.sub_diag, Z.mul_1_r.
  assert (Hr : rne (Zpos m) 1 = Zpos m).
  { unfold rne, loc_of. rewrite Z.div_1_r, Z.mul_1_r, Z.eqb_refl. reflexivity. }
  rewrite Hr.
  destruct (valid_finite x false m e Hx) as (Hlt & _ & _).
  unfold round_result.
  destruct (Z.eqb_spec (Zpos m) (2 ^ 53)) as [Heq|_]; [lia|].
  destruct (Z.leb_spec e 971); [reflexivity|lia].
Qed.

End RoundingMonotone.

Section Addition.
Local Open Scope Z_scope.

Lemma pos_iter_xO (m d : positive) :
  Zpos (Pos.iter xO m d) = Zpos m * 2 ^ Zpos d.
Proof.
  induction d as [|d IH] using Pos.peano_ind.
  - simpl. lia.
  - rewrite Pos.iter_succ, Pos2Z.inj_xO, IH, Pos2Z.inj_succ, Z.pow_succ_r; lia.
Qed.

Lemma shl_align_sem (mx : positive) (ex ez : Z) :
  Zpos (fst (shl_align mx ex ez))
  = Zpos mx * 2 ^ (ex - snd (shl_align mx ex ez))
  /\ snd (shl_align mx ex ez) = Z.min ex ez.
Proof.
  unfold shl_align. destruct (ez - ex) as [|d|d] eqn:Hd; simpl fst; simpl snd.
  - rewrite Z.sub_diag. split; lia.
  - rewrite Z.sub_diag. split; lia.
  - rewrite pos_iter_xO. split; [|lia]. do 2 f_equal. lia.
Qed.

Lemma Zdigits2_shift (m k : Z) :
  0 < m -> 0 <= k -> Zdigits2 (m * 2 ^ k) = Zdigits2 m + k.
Proof.
  intros Hm Hk. destruct (Zdigits2_bounds m Hm) as [Dlo Dhi].
  assert (Hd : 0 < Zdigits2 m) by (destruct m; simpl; lia).
  assert (HP : 0 < 2 ^ k) by (apply Z.pow_pos_nonneg; lia).
  apply Z.le_antisymm.
  - apply Zdigits2_le; [|lia]. rewrite Z.pow_add_r by lia. nia.
  - replace (Zdigits2 m + k) with (Zdigits2 m - 1 + k + 1) by lia.
    apply Zdigits2_ge; [lia|]. rewrite Z.pow_add_r by lia. nia.
Qed.

(** [binary_round] first gives the mantissa enough digits, keeping the
    value, and then rounds. *)
Lemma binary_round_sem (p : positive) (e : Z) :
  exists (mz : positive) (ez : Z),
    binary_round prec emax false p e
    = binary_round_aux prec emax false (Zpos mz) ez loc_Exact
    /\ Zpos mz = Zpos p * 2 ^ (e - ez) /\ ez <= e
    /\ enough_digits (Zpos mz) ez.
Proof.
  unfold binary_round.
  destruct (shl_align_sem p e (fexp prec emax (Zpos (digits2_pos p) + e)))
    as [Hm He].
  destruct (shl_align p e (fexp prec emax (Zpos (digits2_pos p) + e)))
    as [mz ez]. cbn [fst snd] in Hm, He.
  exists mz, ez. split; [reflexivity|]. split; [exact Hm|]. split; [lia|].
  split; [lia|].
  rewrite Hm, Zdigits2_shift by lia. simpl Zdigits2.
  replace (Zpos (digits2_pos p) + (e - ez) + ez)
    with (Zpos (digits2_pos p) + e) by lia.
  lia.
Qed.

Lemma shl_align_fst (mx : positive) (ex ez : Z) :
  ez <= ex -> Zpos (fst (shl_align mx ex ez)) = Zpos mx * 2 ^ (ex - ez).
Proof.
  intros H. destruct (shl_align_sem mx ex ez) as [H1 H2].
  rewrite H1, H2. do 2 f_equal. lia.
Qed.

Lemma SFleb_zero_l (s : bool) (y : spec_float) :
  Binary64.sf_signed false y -> SFleb (S754_zero s) y = true.
Proof. destruct y as [s'|s'| |s' m e]; simpl; try tauto; intros ->; reflexivity. Qed.

Lemma SFleb_inf_r (x : spec_float) :
  x <> S754_nan -> SFleb x (S754_infinity false) = true.
Proof. destruct x as [s|s| |s m e]; try congruence; intros _; destruct s; reflexivity. Qed.

(** Adding a positive number to a number that is at least 0 does not
    decrease it. *)
Lemma SFadd_increases (x r : float) (mr : positive) (er : Z) :
  Binary64.sf_signed false (Prim2SF x) ->
  Prim2SF r = S754_finite false mr er ->
  Binary64.sf_signed false (SFadd prec emax (Prim2SF x) (Prim2SF r))
  /\ SFleb (Prim2SF x) (SFadd prec emax (Prim2SF x) (Prim2SF r)) = true.
Proof.
  intros Hx Hr. rewrite Hr.
  destruct (Prim2SF x) as [s|s| |s m e] eqn:Ex; simpl in Hx; try tauto; subst s.
  - simpl. split; reflexivity.
  - simpl. split; reflexivity.
  - unfold SFadd. set (ez := Z.min e er).
    rewrite (shl_align_fst m e ez), (shl_align_fst mr er ez) by (unfold ez; lia).
    unfold cond_Zopp.
    set (M1 := Zpos m * 2 ^ (e - ez)). set (M2 := Zpos mr * 2 ^ (er - ez)).
    assert (H1 : 0 < M1)
      by (apply Z.mul_pos_pos; [lia|apply Z.pow_pos_nonneg; unfold ez; lia]).
    assert (H2 : 0 < M2)
      by (apply Z.mul_pos_pos; [lia|apply Z.pow_pos_nonneg; unfold ez; lia]).
    destruct (M1 + M2) as [|p|p] eqn:Hp; try lia.
    unfold binary_normalize.
    destruct (binary_round_sem p ez) as (mz & ez' & -> & Hmz & Hez & Hen).
    split; [apply binary_round_aux_signed; lia|].
    destruct (canonical_enough x m e Ex) as [Hen1 <-].
    apply (binary_round_aux_mono (Zpos m) e loc_Exact (Zpos m) 1
             (Zpos mz) ez' loc_Exact (Zpos mz) 1);
      try assumption; try (apply locates_exact; lia).
    replace (Z.min e ez') with ez' by (unfold ez in *; lia).
    rewrite Z.sub_diag, !Z.mul_1_r, Hmz, <- Hp.
    assert (G : 2 ^ (e - ez') = 2 ^ (e - ez) * 2 ^ (ez - ez'))
      by (rewrite <- Z.pow_add_r by (unfold ez in *; lia); f_equal; lia).
    rewrite G. fold M1.
    assert (0 < 2 ^ (ez - ez')) by (apply Z.pow_pos_nonneg; lia).
    nia.
Qed.

(** The order of two positive binary64 values is the order of the numbers
    they stand for. *)
Lemma SFleb_value (x y : float) (m1 : positive) (e1 : Z)
  (m2 : positive) (e2 : Z) :
  Prim2SF x = S754_finite false m1 e1 ->
  Prim2SF y = S754_finite false m2 e2 ->
  SFleb (Prim2SF x) (Prim2SF y) = true ->
  Zpos m1 * 2 ^ (e1 - Z.min e1 e2) <= Zpos m2 * 2 ^ (e2 - Z.min e1 e2).
Proof.
  intros Hx Hy. rewrite Hx, Hy. intros H.
  apply SFleb_pos_inv in H.
  destruct (valid_finite x false m1 e1 Hx) as (L1 & R1 & N1).
  destruct (valid_finite y false m2 e2 Hy) as (L2 & R2 & N2).
  destruct H as [Hlt|[-> Hle]].
  - replace (Z.min e1 e2) with e1 by lia. rewrite Z.sub_diag, Z.mul_1_r.
    assert (2 ^ 52 <= Zpos m2) by (apply N2; lia).
    assert (2 ^ 1 <= 2 ^ (e2 - e1)) by (apply Z.pow_le_mono_r; lia).
    change (2 ^ 1) with 2 in *. change (2 ^ 53) with (2 * 2 ^ 52) in L1.
    nia.
  - rewrite Z.min_id, Z.sub_diag. lia.
Qed.

End Addition.

Section Multiplication.
Local Open Scope Z_scope.

Lemma mul_enough_digits (m mc : positive) (e ec : Z) :
  2 ^ 52 <= Zpos mc -> enough_digits (Zpos (m * mc)) (e + ec).
Proof.
  intros Hc. split; [lia|].
  destruct (Zdigits2_bounds (Zpos m) ltac:(lia)) as [Dlo _].
  set (d := Zdigits2 (Zpos m)) in *.
  assert (Hd : 0 < d) by (unfold d; simpl; lia).
  assert (Hk : d + 51 + 1 <= Zdigits2 (Zpos (m * mc))).
  { apply Zdigits2_ge; [lia|].
    replace (d + 51) with (d - 1 + 52) by lia.
    rewrite Z.pow_add_r, Pos2Z.inj_mul by lia. nia. }
  rewrite fexp_eq. lia.
Qed.

Lemma SFmul_signed (x : spec_float) (mc : positive) (ec : Z) :
  Binary64.sf_signed false x ->
  Binary64.sf_signed false (SFmul prec emax x (S754_finite false mc ec)).
Proof.
  destruct x as [s|s| |s m e]; simpl; try tauto; intros ->; try reflexivity.
  apply binary_round_aux_signed. lia.
Qed.

(** Multiplying by a constant that is at least 1 is monotone. *)
Lemma SFmul_mono (x y : float) (mc : positive) (ec : Z) :
  2 ^ 52 <= Zpos mc ->
  Binary64.sf_signed false (Prim2SF x) ->
  Binary64.sf_signed false (Prim2SF y) ->
  SFleb (Prim2SF x) (Prim2SF y) = true ->
  SFleb (SFmul prec emax (Prim2SF x) (S754_finite false mc ec))
        (SFmul prec emax (Prim2SF y) (S754_finite false mc ec)) = true.
Proof.
  intros Hc Hx Hy Hle.
  assert (Sy := SFmul_signed (Prim2SF y) mc ec Hy).
  destruct (Prim2SF x) as [s|s| |s m1 e1] eqn:Ex; simpl in Hx; try tauto;
    subst.
  - apply SFleb_zero_l. exact Sy.
  - destruct (Prim2SF y) as [s|s| |s m2 e2] eqn:Ey; simpl in Hy; try tauto;
      subst; try discriminate. reflexivity.
  - destruct (Prim2SF y) as [s|s| |s m2 e2] eqn:Ey; simpl in Hy; try tauto;
      subst; try discriminate.
    + simpl SFmul. apply SFleb_inf_r.
      eapply sf_signed_not_nan, binary_round_aux_signed. lia.
    + assert (Hv : Zpos m1 * 2 ^ (e1 - Z.min e1 e2)
                   <= Zpos m2 * 2 ^ (e2 - Z.min e1 e2)).
      { apply (SFleb_value x y); try assumption. now rewrite Ex, Ey. }
      simpl SFmul.
      apply (binary_round_aux_mono
               (Zpos (m1 * mc)) (e1 + ec) loc_Exact (Zpos (m1 * mc)) 1
               (Zpos (m2 * mc)) (e2 + ec) loc_Exact (Zpos (m2 * mc)) 1);
        try (apply locates_exact; lia);
        try (now apply mul_enough_digits).
      replace (Z.min (e1 + ec) (e2 + ec)) with (Z.min e1 e2 + ec) by lia.
      replace (e1 + ec - (Z.min e1 e2 + ec)) with (e1 - Z.min e1 e2) by lia.
      replace (e2 + ec - (Z.min e1 e2 + ec)) with (e2 - Z.min e1 e2) by lia.
      rewrite !Pos2Z.inj_mul. nia.
Qed.

(** Multiplying a number that is at least 0 by a constant that is at least
    1 does not decrease it. *)
Lemma SFmul_increases (x : float) (mc : positive) (ec : Z) :
  2 ^ 52 <= Zpos mc -> ec <= 0 -> 2 ^ (- ec) <= Zpos mc ->
  Binary64.sf_signed false (Prim2SF x) ->
  SFleb (Prim2SF x) (SFmul prec emax (Prim2SF x) (S754_finite false mc ec))
  = true.
Proof.
  intros Hc Hec Hone Hx.
  destruct (Prim2SF x) as [s|s| |s m e] eqn:Ex; simpl in Hx; try tauto; subst;
    try reflexivity.
  - destruct (canonical_enough x m e Ex) as [Hen Hid].
    simpl SFmul. rewrite <- Hid at 1.
    apply (binary_round_aux_mono
             (Zpos m) e loc_Exact (Zpos m) 1
             (Zpos (m * mc)) (e + ec) loc_Exact (Zpos (m * mc)) 1);
      try (apply locates_exact; lia); try assumption;
      try (now apply mul_enough_digits).
    replace (Z.min e (e + ec)) with (e + ec) by lia.
    replace (e - (e + ec)) with (- ec) by lia.
    rewrite Z.sub_diag, !Z.mul_1_r, Pos2Z.inj_mul. nia.
Qed.

Lemma SFleb_trans (x y z : spec_float) :
  Binary64.sf_signed false x -> Binary64.sf_signed false y ->
  Binary64.sf_signed false z ->
  SFleb x y = true -> SFleb y z = true -> SFleb x z = true.
Proof.
  destruct x as [s1|s1| |s1 m1 e1]; simpl; try tauto; intros ->;
    destruct y as [s2|s2| |s2 m2 e2]; simpl; try tauto; intros ->;
    destruct z as [s3|s3| |s3 m3 e3]; simpl; try tauto; intros ->;
    try reflexivity; try discriminate.
  intros H1 H2. apply SFleb_pos_inv in H1. apply SFleb_pos_inv in H2.
  apply SFleb_pos. lia.
Qed.

End Multiplication.

Section Division.
Local Open Scope Z_scope.

(** The quotient of two integers, as [SFdiv] prepares it for rounding:
    the fraction [n * 2^s / t] is located, at the exponent [- s]. *)
Lemma SFdiv_integers_sem (n t : positive) :
  Z.even (Zpos t) = true -> Zpos t < 2 ^ 64 ->
  exists (q s : Z) (l : location),
    SFdiv prec emax (S754_finite false n 0) (S754_finite false t 0)
    = binary_round_aux prec emax false q (- s) l
    /\ 0 <= s
    /\ locates (shr_record_of_loc q l) (Zpos n * 2 ^ s) (Zpos t)
    /\ enough_digits q (- s).
Proof.
  intros Hev Ht. unfold SFdiv, SFdiv_core_binary.
  set (d1 := Zdigits2 (Zpos n)). set (d2 := Zdigits2 (Zpos t)).
  rewrite !Z.add_0_r, Z.sub_diag, Z.sub_0_l.
  set (e' := Z.min (fexp prec emax (d1 - d2)) 0).
  set (s := - e').
  assert (Hs : 0 <= s) by (unfold s, e'; lia).
  set (m' := match s with Z.pos _ => Z.shiftl (Zpos n) s | 0 => Zpos n
                     | Z.neg _ => 0 end).
  assert (Hm' : m' = Zpos n * 2 ^ s).
  { unfold m'. destruct s as [|p|p] eqn:Es; try lia.
    rewrite Z.shiftl_mul_pow2 by lia. reflexivity. }
  assert (Hpos : 0 < 2 ^ s) by (apply Z.pow_pos_nonneg; lia).
  assert (Hdiv := Z_div_mod m' (Zpos t) ltac:(lia)).
  destruct (Z.div_eucl m' (Zpos t)) as [q r]. destruct Hdiv as [Hqr Hr].
  exists q, s, (new_location (Zpos t) r).
  replace e' with (- s) by (unfold s; lia).
  split; [reflexivity|]. split; [exact Hs|].
  assert (Hq0 : 0 <= q) by nia.
  destruct (Zdigits2_bounds (Zpos n) ltac:(lia)) as [D1 _]. fold d1 in D1.
  destruct (Zdigits2_bounds (Zpos t) ltac:(lia)) as [_ D2]. fold d2 in D2.
  assert (Hd1 : 0 < d1) by (unfold d1; simpl; lia).
  assert (Hd2 : 0 < d2 <= 64).
  { split; [unfold d2; simpl; lia|]. apply Zdigits2_le; lia. }
  split.
  - (* the quotient and the remainder locate the fraction *)
    unfold locates. rewrite shr_m_of_loc, loc_of_shr_record_of_loc.
    rewrite <- Hm'. repeat split; try lia.
    unfold new_location. rewrite Hev. unfold new_location_even, loc_of.
    destruct (Z.eqb_spec r 0) as [->|Hne];
      destruct (Z.eqb_spec m' (q * Zpos t)) as [He|He]; try lia.
    + reflexivity.
    + do 2 f_equal. lia.
  - (* the quotient has enough digits *)
    set (k := d1 + s - 1 - d2).
    assert (Hk : 0 <= k).
    { unfold k, s, e'. rewrite fexp_eq. lia. }
    assert (Hq : 2 ^ k <= q).
    { assert (Hp : 2 ^ (d1 - 1) * 2 ^ s = 2 ^ k * 2 ^ d2).
      { rewrite <- !Z.pow_add_r by lia. f_equal. unfold k. lia. }
      assert (0 < 2 ^ k) by (apply Z.pow_pos_nonneg; lia).
      assert (Hlow : 2 ^ k * Zpos t <= m') by nia.
      apply Z.nlt_ge. intros Hlt.
      assert ((q + 1) * Zpos t <= 2 ^ k * Zpos t)
        by (apply Z.mul_le_mono_nonneg_r; lia).
      lia. }
    assert (Hdq := Zdigits2_ge q k Hk Hq).
    split.
    + assert (0 < 2 ^ k) by (apply Z.pow_pos_nonneg; lia). lia.
    + rewrite fexp_eq. unfold k, s, e' in *. rewrite fexp_eq in *. lia.
Qed.

(** The value built by rounding is a valid binary64 value. *)
Lemma round_result_valid (c E : Z) :
  0 <= c <= 2 ^ 53 -> -1074 <= E -> (-1074 < E -> 2 ^ 52 <= c) ->
  SpecFloat.valid_binary prec emax (round_result false c E) = true.
Proof.
  intros Hc HE Hn. unfold round_result.
  destruct (Z.eqb_spec c (2 ^ 53)) as [->|Hne].
  - change (2 ^ 52) with (Zpos 4503599627370496).
    cbv iota beta.
    destruct (Z.leb_spec (E + 1) 971); [|reflexivity].
    unfold SpecFloat.valid_binary, bounded, canonical_mantissa.
    change (Zpos (digits2_pos 4503599627370496)) with 53.
    rewrite fexp_eq.
    apply andb_true_intro. split; [apply Z.eqb_eq|apply Z.leb_le]; 
      change (emax - prec) with 971; lia.
  - destruct c as [|p|p]; try lia; [reflexivity|].
    destruct (Z.leb_spec E 971); [|reflexivity].
    unfold SpecFloat.valid_binary, bounded, canonical_mantissa.
    assert (Hd : Zdigits2 (Zpos p) <= 53) by (apply Zdigits2_le; lia).
    simpl Zdigits2 in Hd.
    rewrite fexp_eq.
    apply andb_true_intro. split; [apply Z.eqb_eq|apply Z.leb_le];
      change (emax - prec) with 971; try lia.
    destruct (Z.eq_dec E (-1074)) as [->|HneE]; [lia|].
    assert (Hge := Zdigits2_ge (Zpos p) 52 ltac:(lia) (Hn ltac:(lia))).
    simpl Zdigits2 in Hge. lia.
Qed.

Lemma binary_round_aux_valid (m e : Z) (l : location) (a b : Z) :
  locates (shr_record_of_loc m l) a b -> enough_digits m e ->
  SpecFloat.valid_binary prec emax (binary_round_aux prec emax false m e l)
  = true.
Proof.
  intros L [Hm P].
  rewrite (binary_round_aux_sem false m e l a b L).
  destruct L as (Hb & _ & Hab & _). rewrite shr_m_of_loc in Hab.
  destruct (rne_mantissa m e a b Hm Hb Hab P) as (HE & Hc & Hn).
  apply round_result_valid; try assumption.
  rewrite HE. apply fexp_ge_emin.
Qed.

End Division.

Section Decimals.
Local Open Scope Z_scope.

(** The binary64 value nearest to [n / 10^4]. *)
Lemma decimal_sf (n : Z) :
  0 <= n ->
  SpecFloat.valid_binary prec emax
    (SFdiv prec emax (JS.Z2SF n) (JS.Z2SF (10 ^ 4))) = true
  /\ Binary64.sf_signed false
       (SFdiv prec emax (JS.Z2SF n) (JS.Z2SF (10 ^ 4))).
Proof.
  intros Hn. change (JS.Z2SF (10 ^ 4)) with (S754_finite false 10000 0).
  destruct n as [|p|p]; try lia.
  - split; reflexivity.
  - unfold JS.Z2SF.
    destruct (SFdiv_integers_sem p 10000 eq_refl ltac:(reflexivity))
      as (q & s & l & -> & Hs & L & Hen).
    split.
    + now apply (binary_round_aux_valid q (- s) l _ _ L).
    + apply binary_round_aux_signed. destruct Hen; lia.
Qed.

Lemma decimal_sf_mono (n1 n2 : Z) :
  0 <= n1 <= n2 ->
  SFleb (SFdiv prec emax (JS.Z2SF n1) (JS.Z2SF (10 ^ 4)))
        (SFdiv prec emax (JS.Z2SF n2) (JS.Z2SF (10 ^ 4))) = true.
Proof.
  intros Hn.
  destruct (decimal_sf n2 ltac:(lia)) as [_ S2].
  revert S2. change (JS.Z2SF (10 ^ 4)) with (S754_finite false 10000 0).
  intros S2.
  destruct n1 as [|p1|p1]; try lia.
  - apply SFleb_zero_l. exact S2.
  - destruct n2 as [|p2|p2]; try lia. unfold JS.Z2SF.
    destruct (SFdiv_integers_sem p1 10000 eq_refl ltac:(reflexivity))
      as (q1 & s1 & l1 & -> & Hs1 & L1 & Hen1).
    destruct (SFdiv_integers_sem p2 10000 eq_refl ltac:(reflexivity))
      as (q2 & s2 & l2 & -> & Hs2 & L2 & Hen2).
    apply (binary_round_aux_mono q1 (- s1) l1 _ _ q2 (- s2) l2 _ _ L1 L2);
      try assumption.
    set (B := Z.min (- s1) (- s2)).
    assert (G1 : 2 ^ (- B) = 2 ^ s1 * 2 ^ (- s1 - B))
      by (rewrite <- Z.pow_add_r by (unfold B; lia); f_equal; lia).
    assert (G2 : 2 ^ (- B) = 2 ^ s2 * 2 ^ (- s2 - B))
      by (rewrite <- Z.pow_add_r by (unfold B; lia); f_equal; lia).
    assert (0 < 2 ^ (- B)) by (apply Z.pow_pos_nonneg; unfold B; lia).
    transitivity (Zpos p1 * 10000 * 2 ^ (- B)); [rewrite G1 at 1; lia|].
    transitivity (Zpos p2 * 10000 * 2 ^ (- B)); [nia|rewrite G2 at 1; lia].
Qed.

Lemma decimal_sf_le_1e21 (n : Z) :
  0 <= n <= 10 ^ 25 ->
  SFleb (SFdiv prec emax (JS.Z2SF n) (JS.Z2SF (10 ^ 4)))
        (Prim2SF 1e21) = true.
Proof.
  intros Hn.
  assert (H21 : Prim2SF 1e21 = S754_finite false 7629394531250000 17)
    by reflexivity.
  destruct (canonical_enough 1e21%float _ _ H21) as [Hen Hid].
  rewrite H21.
  change (JS.Z2SF (10 ^ 4)) with (S754_finite false 10000 0).
  destruct n as [|p|p]; try lia; [reflexivity|].
  unfold JS.Z2SF.
  destruct (SFdiv_integers_sem p 10000 eq_refl ltac:(reflexivity))
    as (q & s & l & -> & Hs & L & Hen1).
  rewrite <- Hid.
  apply (binary_round_aux_mono q (- s) l _ _
           7629394531250000 17 loc_Exact 7629394531250000 1 L);
    try assumption; [apply locates_exact; lia|].
  replace (Z.min (- s) 17) with (- s) by lia.
  rewrite Z.sub_diag, !Z.mul_1_r.
  replace (17 - - s) with (17 + s) by lia.
  rewrite Z.pow_add_r by lia.
  assert (0 < 2 ^ s) by (apply Z.pow_pos_nonneg; lia).
  change (10 ^ 25) with (7629394531250000 * 2 ^ 17 * 10000) in Hn.
  nia.
Qed.

(** [scaled_round] with the powers of two put over a common exponent. *)
Lemma scaled_round_uniform (s : bool) (m : positive) (e d B : Z) :
  B <= e -> B <= 0 ->
  JS.scaled_round d (S754_finite s m e)
  = (2 * (Zpos m * 10 ^ d) * 2 ^ (e - B) + 2 ^ (- B)) / 2 ^ (1 - B).
Proof.
  intros HB HB0. unfold JS.scaled_round. cbv zeta.
  set (k := Zpos m * 10 ^ d).
  assert (P1 : 0 < 2 ^ (- B)) by (apply Z.pow_pos_nonneg; lia).
  assert (G1 : 2 ^ (1 - B) = 2 * 2 ^ (- B)).
  { replace (1 - B) with (Z.succ (- B)) by lia. apply Z.pow_succ_r. lia. }
  destruct (Z.leb_spec 0 e) as [He|He].
  - assert (G2 : 2 ^ (e - B) = 2 ^ e * 2 ^ (- B))
      by (rewrite <- Z.pow_add_r by lia; f_equal; lia).
    apply (Z.div_unique_pos _ _ _ (2 ^ (- B))); [lia|].
    rewrite G1, G2. ring.
  - assert (P2 : 0 < 2 ^ (e - B)) by (apply Z.pow_pos_nonneg; lia).
    assert (G2 : 2 ^ (- B) = 2 ^ (e - B) * 2 ^ (- e))
      by (rewrite <- Z.pow_add_r by lia; f_equal; lia).
    assert (G3 : 2 ^ (1 - B) = 2 ^ (e - B) * 2 ^ (1 - e))
      by (rewrite <- Z.pow_add_r by lia; f_equal; lia).
    rewrite G3.
    replace (2 * k * 2 ^ (e - B) + 2 ^ (- B))
      with (2 ^ (e - B) * (2 * k + 2 ^ (- e))) by (rewrite G2; ring).
    rewrite Z.div_mul_cancel_l; [reflexivity| |lia].
    assert (0 < 2 ^ (1 - e)) by (apply Z.pow_pos_nonneg; lia). lia.
Qed.

Lemma scaled_round_mono (x y : float) (m1 : positive) (e1 : Z)
  (m2 : positive) (e2 : Z) (d : Z) :
  0 <= d ->
  Prim2SF x = S754_finite false m1 e1 ->
  Prim2SF y = S754_finite false m2 e2 ->
  SFleb (Prim2SF x) (Prim2SF y) = true ->
  JS.scaled_round d (Prim2SF x) <= JS.scaled_round d (Prim2SF y).
Proof.
  intros Hd Hx Hy Hle.
  assert (Hv := SFleb_value x y m1 e1 m2 e2 Hx Hy Hle).
  rewrite Hx, Hy.
  set (B' := Z.min e1 e2) in *. set (B := Z.min B' 0).
  rewrite (scaled_round_uniform false m1 e1 d B),
          (scaled_round_uniform false m2 e2 d B) by (unfold B, B'; lia).
  apply Z.div_le_mono; [apply Z.pow_pos_nonneg; unfold B; lia|].
  assert (G1 : 2 ^ (e1 - B) = 2 ^ (e1 - B') * 2 ^ (B' - B))
    by (rewrite <- Z.pow_add_r by (unfold B, B'; lia); f_equal; lia).
  assert (G2 : 2 ^ (e2 - B) = 2 ^ (e2 - B') * 2 ^ (B' - B))
    by (rewrite <- Z.pow_add_r by (unfold B, B'; lia); f_equal; lia).
  rewrite G1, G2.
  assert (0 <= 2 ^ (B' - B)) by (apply Z.pow_nonneg; lia).
  assert (0 <= 10 ^ d) by (apply Z.pow_nonneg; lia).
  assert (Zpos m1 * 2 ^ (e1 - B') * (2 ^ (B' - B) * 10 ^ d)
          <= Zpos m2 * 2 ^ (e2 - B') * (2 ^ (B' - B) * 10 ^ d))
    by (apply Z.mul_le_mono_nonneg_r; nia).
  nia.
Qed.

(** Below 1e21 the scaled integer is at most [10^25]. *)
Lemma scaled_round_below_1e21 (x : float) (m : positive) (e : Z) :
  Prim2SF x = S754_finite false m e ->
  SFleb (Prim2SF 1e21) (Prim2SF x) = false ->
  0 <= JS.scaled_round 4 (Prim2SF x) <= 10 ^ 25.
Proof.
  intros Hx Hlt. split; [apply scaled_round_nonneg|].
  destruct (valid_finite x false m e Hx) as (Hm & _ & _).
  rewrite Hx in *.
  change (Prim2SF 1e21) with (S754_finite false 7629394531250000 17) in Hlt.
  unfold SFleb in Hlt. rewrite SFcompare_pos in Hlt.
  assert (Hcases : e < 17 \/ (e = 17 /\ Zpos m < 7629394531250000)).
  { destruct (Z.compare_spec 17 e); try discriminate; try lia.
    subst e. right. split; [reflexivity|].
    destruct (Z.compare_spec 7629394531250000 (Zpos m)); try discriminate; lia. }
  set (B := Z.min e 0).
  rewrite (scaled_round_uniform false m e 4 B) by (unfold B; lia).
  assert (P : 0 < 2 ^ (- B)) by (apply Z.pow_pos_nonneg; unfold B; lia).
  assert (G1 : 2 ^ (1 - B) = 2 * 2 ^ (- B)).
  { replace (1 - B) with (Z.succ (- B)) by lia. apply Z.pow_succ_r.
    unfold B; lia. }
  apply Z.lt_succ_r, Z.div_lt_upper_bound; [rewrite G1; lia|].
  rewrite G1.
  assert (Hval : Zpos m * 2 ^ (e - B) < 10 ^ 21 * 2 ^ (- B)).
  { change (2 ^ 53) with 9007199254740992 in Hm.
    destruct (Z.leb_spec 0 e) as [He|He].
    - replace B with 0 by (unfold B; lia).
      rewrite Z.sub_0_r. change (2 ^ (- 0)) with 1. rewrite Z.mul_1_r.
      destruct Hcases as [Hlt17|[-> Hm21]].
      + assert (2 ^ e <= 2 ^ 16) by (apply Z.pow_le_mono_r; lia).
        assert (0 < 2 ^ e) by (apply Z.pow_pos_nonneg; lia).
        change (2 ^ 16) with 65536 in *.
        change (10 ^ 21) with 1000000000000000000000. nia.
      + change (2 ^ 17) with 131072.
        change (10 ^ 21) with 1000000000000000000000. lia.
    - replace B with e by (unfold B; lia).
      rewrite Z.sub_diag, Z.mul_1_r.
      assert (0 < 2 ^ (- e)) by (apply Z.pow_pos_nonneg; lia).
      change (10 ^ 21) with 1000000000000000000000. nia. }
  change (10 ^ 4) with 10000. change (10 ^ 25) with (10 ^ 21 * 10000).
  nia.
Qed.

End Decimals.

Section RoundingToDecimals.
Local Open Scope float_scope.

Lemma leb_trans (a b c : float) :
  Binary64.sf_signed false (Prim2SF a) ->
  Binary64.sf_signed false (Prim2SF b) ->
  Binary64.sf_signed false (Prim2SF c) ->
  (a <=? b) = true -> (b <=? c) = true -> (a <=? c) = true.
Proof. rewrite !leb_spec. apply SFleb_trans. Qed.

Lemma Prim2SF_decimal (n : Z) :
  (0 <= n)%Z ->
  Prim2SF (JS.decimal_to_number n 4)
  = SFdiv prec emax (JS.Z2SF n) (JS.Z2SF (10 ^ 4)).
Proof.
  intros Hn. unfold JS.decimal_to_number.
  apply Prim2SF_SF2Prim. now apply decimal_sf.
Qed.

(** Rounding a positive number to [d] decimals: unchanged from 1e21 on,
    the nearest decimal below. *)
Lemma toFixed_parse_pos (d : Z) (x : float) (m : positive) (e : Z) :
  Prim2SF x = S754_finite false m e ->
  JS.toFixed_parse d x
  = if 1e21 <=? x then x
    else JS.decimal_to_number (JS.scaled_round d (Prim2SF x)) d.
Proof.
  intros Hx. unfold JS.toFixed_parse.
  assert (Hn : is_nan x = false) by (apply is_nan_false; congruence).
  rewrite Hn.
  assert (Ha : abs x = x).
  { apply Prim2SF_inj. rewrite abs_spec, Hx. reflexivity. }
  unfold is_infinity. rewrite Ha.
  assert (Hi : (x =? infinity) = false).
  { rewrite eqb_spec, Hx. reflexivity. }
  assert (H0 : (x <? 0) = false).
  { rewrite ltb_spec, Hx. reflexivity. }
  rewrite Hi, H0. reflexivity.
Qed.

Lemma toFixed_parse_zero (x : float) (s : bool) :
  Prim2SF x = S754_zero s -> JS.toFixed_parse 4 x = 0.
Proof.
  intros Hx. unfold JS.toFixed_parse.
  assert (Hn : is_nan x = false) by (apply is_nan_false; congruence).
  assert (Ha : Prim2SF (abs x) = S754_zero false)
    by (rewrite abs_spec, Hx; reflexivity).
  unfold is_infinity. rewrite Hn, eqb_spec, leb_spec, ltb_spec, Ha, Hx.
  change (Prim2SF infinity) with (S754_infinity false).
  change (Prim2SF 1e21) with (S754_finite false 7629394531250000 17).
  change (Prim2SF 0) with (S754_zero false).
  reflexivity.
Qed.

Lemma toFixed_parse_inf (x : float) :
  Prim2SF x = S754_infinity false -> JS.toFixed_parse 4 x = x.
Proof.
  intros Hx. unfold JS.toFixed_parse.
  assert (Hn : is_nan x = false) by (apply is_nan_false; congruence).
  assert (Ha : Prim2SF (abs x) = S754_infinity false)
    by (rewrite abs_spec, Hx; reflexivity).
  unfold is_infinity. rewrite Hn, eqb_spec, Ha. reflexivity.
Qed.

(** Rounding to 4 decimals keeps a number at least 0 in the same class. *)
Lemma toFixed_parse_signed (x : float) :
  Binary64.sf_signed false (Prim2SF x) ->
  Binary64.sf_signed false (Prim2SF (JS.toFixed_parse 4 x)).
Proof.
  intros Hx.
  destruct (Prim2SF x) as [s|s| |s m e] eqn:Ex; simpl in Hx; try tauto; subst.
  - rewrite (toFixed_parse_zero x _ Ex). reflexivity.
  - rewrite (toFixed_parse_inf x Ex), Ex. reflexivity.
  - rewrite (toFixed_parse_pos 4 x m e Ex).
    destruct (1e21 <=? x); [rewrite Ex; reflexivity|].
    rewrite Prim2SF_decimal by apply scaled_round_nonneg.
    apply decimal_sf, scaled_round_nonneg.
Qed.

(** Rounding to 4 decimals is monotone on the numbers that are at least 0. *)
Lemma toFixed_parse_mono (x y : float) :
  Binary64.sf_signed false (Prim2SF x) ->
  Binary64.sf_signed false (Prim2SF y) ->
  (x <=? y) = true ->
  (JS.toFixed_parse 4 x <=? JS.toFixed_parse 4 y) = true.
Proof.
  intros Hx Hy Hle.
  assert (Sx := toFixed_parse_signed x Hx).
  assert (Sy := toFixed_parse_signed y Hy).
  pose proof Hle as Hle'. rewrite leb_spec in Hle'.
  destruct (Prim2SF x) as [s1|s1| |s1 m1 e1] eqn:Ex; simpl in Hx; try tauto;
    subst.
  - rewrite (toFixed_parse_zero x _ Ex). now apply leb_0_signed.
  - destruct (Prim2SF y) as [s2|s2| |s2 m2 e2] eqn:Ey; simpl in Hy; try tauto;
      subst; try discriminate.
    rewrite (toFixed_parse_inf x Ex), (toFixed_parse_inf y Ey).
    rewrite leb_spec, Ex, Ey. reflexivity.
  - destruct (Prim2SF y) as [s2|s2| |s2 m2 e2] eqn:Ey; simpl in Hy; try tauto;
      subst; try discriminate.
    + rewrite (toFixed_parse_inf y Ey). rewrite leb_spec, Ey.
      apply SFleb_inf_r. eapply sf_signed_not_nan. exact Sx.
    + rewrite (toFixed_parse_pos 4 x m1 e1 Ex) in *.
      rewrite (toFixed_parse_pos 4 y m2 e2 Ey) in *.
      destruct (1e21 <=? x) eqn:Bx; destruct (1e21 <=? y) eqn:By.
      * exact Hle.
      * exfalso.
        assert (H : (1e21 <=? y) = true).
        { apply (leb_trans _ x); try assumption;
            try (rewrite ?Ex, ?Ey; reflexivity). }
        congruence.
      * apply (leb_trans _ 1e21); try assumption;
          try (rewrite ?Ey; reflexivity).
        rewrite leb_spec, Prim2SF_decimal by apply scaled_round_nonneg.
        apply decimal_sf_le_1e21.
        apply (scaled_round_below_1e21 x m1 e1 Ex).
        now rewrite <- leb_spec.
      * rewrite leb_spec, !Prim2SF_decimal by apply scaled_round_nonneg.
        apply decimal_sf_mono. split; [apply scaled_round_nonneg|].
        apply (scaled_round_mono x y m1 e1 m2 e2); try assumption; [lia|].
        now rewrite Ex, Ey.
Qed.

End RoundingToDecimals.

Section BatchMonotone.
Local Open Scope string_scope.
Local Open Scope float_scope.

(** Every point reward is a positive finite number. *)
Lemma reward_positive (sample : DataPoint) :
  exists m e,
    Prim2SF (CarDataService.getDataPointRewardValue sample)
    = S754_finite false m e.
Proof.
  rewrite reward_refines. unfold Spec.pointReward.
  destruct ((40 <=? speed_kmph sample) && (speed_kmph sample <=? 80));
    destruct ((1500 <=? engine_rpm sample) && (engine_rpm sample <=? 2500));
    (destruct (dtc_code sample) as [code|]; [|do 2 eexists; reflexivity]);
    unfold Spec.rewardImpactPercent;
    (destruct (JSObject.own CarDataService.dtcInfo code) as [e|] eqn:Hown;
     [|do 2 eexists; reflexivity]);
    destruct (catalog_codes _ _ Hown) as [-> | [-> | ->]];
    injection Hown as <-; do 2 eexists; reflexivity.
Qed.

(** The running total of [getDataBatchRewardValue]. *)
Lemma total_signed (samples : list DataPoint) (acc : float) :
  Binary64.sf_signed false (Prim2SF acc) ->
  Binary64.sf_signed false
    (Prim2SF (fold_left (fun total dataPoint =>
                           total + CarDataService.getDataPointRewardValue dataPoint)
                        samples acc))
  /\ (acc <=? fold_left (fun total dataPoint =>
                           total + CarDataService.getDataPointRewardValue dataPoint)
                        samples acc) = true.
Proof.
  revert acc. induction samples as [|s rest IH]; intros acc Hacc.
  - split; [exact Hacc|]. rewrite leb_spec.
    unfold SFleb. rewrite SFcompare_refl; [reflexivity|].
    eapply sf_signed_not_nan; exact Hacc.
  - simpl fold_left.
    destruct (reward_positive s) as (m & e & Hr).
    destruct (SFadd_increases acc _ m e Hacc Hr) as [Hs Hle].
    rewrite <- add_spec in Hs, Hle. rewrite <- leb_spec in Hle.
    destruct (IH _ Hs) as [Hs' Hle'].
    split; [exact Hs'|].
    now apply (leb_trans _ (acc + CarDataService.getDataPointRewardValue s)).
Qed.

Lemma bonus_signed (x : float) :
  Binary64.sf_signed false (Prim2SF x) ->
  Binary64.sf_signed false (Prim2SF (x * 1.1)).
Proof.
  intros H. rewrite mul_spec.
  change (Prim2SF 1.1) with (S754_finite false 4953959590107546 (-52)).
  now apply SFmul_signed.
Qed.

Lemma bonus_increases (x : float) :
  Binary64.sf_signed false (Prim2SF x) -> (x <=? x * 1.1) = true.
Proof.
  intros H. rewrite leb_spec, mul_spec.
  change (Prim2SF 1.1) with (S754_finite false 4953959590107546 (-52)).
  apply SFmul_increases; try assumption; lia.
Qed.

Lemma bonus_mono (x y : float) :
  Binary64.sf_signed false (Prim2SF x) ->
  Binary64.sf_signed false (Prim2SF y) ->
  (x <=? y) = true -> (x * 1.1 <=? y * 1.1) = true.
Proof.
  intros Hx Hy H. rewrite leb_spec, !mul_spec.
  change (Prim2SF 1.1) with (S754_finite false 4953959590107546 (-52)).
  apply SFmul_mono; try assumption; [lia|].
  now rewrite <- leb_spec.
Qed.

(** The batch reward does not decrease when samples are appended. *)
Lemma batchReward_append (samples more : list DataPoint) :
  (CarDataService.getDataBatchRewardValue samples
   <=? CarDataService.getDataBatchRewardValue (samples ++ more)) = true.
Proof.
  set (step := fun total dataPoint =>
                 total + CarDataService.getDataPointRewardValue dataPoint).
  assert (H0 : Binary64.sf_signed false (Prim2SF 0)) by reflexivity.
  destruct samples as [|s rest].
  - (* from the empty batch *)
    simpl app. destruct more as [|s' rest']; [reflexivity|].
    unfold CarDataService.getDataBatchRewardValue. fold step.
    destruct (total_signed (s' :: rest') 0 H0) as [Hs _]. fold step in Hs.
    apply toFixed_parse_nonneg; [lia|]. apply leb_0_signed.
    destruct (10 <? List.length (s' :: rest'))%nat;
      [now apply bonus_signed|exact Hs].
  - change ((s :: rest) ++ more)%list with (s :: (rest ++ more))%list.
    unfold CarDataService.getDataBatchRewardValue. fold step.
    change (s :: rest ++ more)%list with ((s :: rest) ++ more)%list.
    rewrite fold_left_app, length_app.
    set (S1 := fold_left step (s :: rest) 0).
    destruct (total_signed (s :: rest) 0 H0) as [Hs1 _]. fold step S1 in Hs1.
    destruct (total_signed more S1 Hs1) as [Hs2 Hle]. fold step in Hs2, Hle.
    set (S2 := fold_left step more S1) in *.
    destruct (Nat.ltb_spec 10 (List.length (s :: rest))) as [L1|L1];
      destruct (Nat.ltb_spec 10 (List.length (s :: rest) + List.length more))
        as [L2|L2]; try lia.
    + apply toFixed_parse_mono; try (now apply bonus_signed).
      now apply bonus_mono.
    + apply toFixed_parse_mono; try assumption; try (now apply bonus_signed).
      apply (leb_trans _ S2); try assumption; try (now apply bonus_signed).
      now apply bonus_increases.
    + now apply toFixed_parse_mono.
Qed.

(** C9. [getDataBatchRewardValue] is monotonically non-decreasing under
    appending samples whose speed lies in the efficient range [40,80] and
    which carry no code: the batch reward of the longer list is greater
    than or equal to that of the shorter list. *)
Theorem batchReward_monotone (samples more : list DataPoint) :
  Forall Spec.efficient_clean more ->
  (CarDataService.getDataBatchRewardValue samples
   <=? CarDataService.getDataBatchRewardValue (samples ++ more)) = true.
Proof. intros _. apply batchReward_append. Qed.


(** Two readings, then two more in the efficient range without a code:
    the batch reward goes from 0.0237 to 0.0513. *)
Lemma batchReward_monotone_witness :
  Forall Spec.efficient_clean [Examples.cruising; Examples.cruising]
  /\ (CarDataService.getDataBatchRewardValue [Examples.reading; Examples.fast]
      <=? CarDataService.getDataBatchRewardValue
            ([Examples.reading; Examples.fast]
             ++ [Examples.cruising; Examples.cruising])) = true.
Proof.
  assert (H : Forall Spec.efficient_clean
                [Examples.cruising; Examples.cruising]).
  { repeat constructor. }
  split; [exact H|].
  exact (batchReward_monotone
           [Examples.reading; Examples.fast]
           [Examples.cruising; Examples.cruising] H).
Defined.

End BatchMonotone.

(** ** The diagnostic catalog and the point reward, case by case *)

Section CatalogLookup.
Local Open Scope string_scope.
Local Open Scope float_scope.

Lemma existsb_eqb_In (key : string) (keys : list string) :
  existsb (String.eqb key) keys = true <-> In key keys.
Proof.
  rewrite existsb_exists. split.
  - intros (k & Hin & Heq). apply String.eqb_eq in Heq. now subst.
  - intros Hin. exists key. split; [assumption|apply String.eqb_refl].
Qed.

Lemma own_catalog_In (code : string) :
  (exists e, JSObject.own CarDataService.dtcInfo code = Some e)
  <-> In code ["P0420"; "P0171"; "P0300"].
Proof.
  split.
  - intros (e & H). destruct (catalog_codes _ _ H) as [-> | [-> | ->]];
      simpl; tauto.
  - intros [<- | [<- | [<- | []]]]; eexists; reflexivity.
Qed.

(** X1. [getDiagnosticInfo] returns an entry of the catalog exactly for the
    three codes P0420, P0171 and P0300, and [null] exactly for the codes
    that are neither one of the three nor the name of a member of
    [Object.prototype]; the empty code is one of the latter. *)
Theorem getDiagnosticInfo_catalog (dtcCode : string) :
  ((exists info,
       CarDataService.getDiagnosticInfo dtcCode = JSObject.Found info)
   <-> In dtcCode ["P0420"; "P0171"; "P0300"])
  /\ (CarDataService.getDiagnosticInfo dtcCode = JSObject.Missing
      <-> ~ In dtcCode ["P0420"; "P0171"; "P0300"]
          /\ ~ In dtcCode JSObject.Object_prototype_keys)
  /\ CarDataService.getDiagnosticInfo "" = JSObject.Missing.
Proof.
  split; [|split; [|reflexivity]].
  - rewrite <- own_catalog_In.
    unfold CarDataService.getDiagnosticInfo, JSObject.get.
    destruct (JSObject.own CarDataService.dtcInfo dtcCode) as [e|] eqn:Hown.
    + assert (Ht : JSString.truthy dtcCode = true).
      { destruct (catalog_codes _ _ Hown) as [-> | [-> | ->]]; reflexivity. }
      rewrite Ht. simpl. split; intros _; eexists; reflexivity.
    + split; [|intros (e & He); discriminate].
      intros (info & H).
      destruct (JSString.truthy dtcCode
                && JSObject.truthy
                     (if existsb (String.eqb dtcCode)
                           JSObject.Object_prototype_keys
                      then JSObject.Inherited dtcCode else JSObject.Missing));
        [|discriminate].
      destruct (existsb (String.eqb dtcCode) JSObject.Object_prototype_keys);
        discriminate.
  - rewrite <- own_catalog_In, <- existsb_eqb_In.
    unfold CarDataService.getDiagnosticInfo, JSObject.get.
    destruct (JSObject.own CarDataService.dtcInfo dtcCode) as [e|] eqn:Hown.
    + assert (Ht : JSString.truthy dtcCode = true).
      { destruct (catalog_codes _ _ Hown) as [-> | [-> | ->]]; reflexivity. }
      rewrite Ht. simpl. split; [discriminate|].
      intros [H _]. exfalso. apply H. now exists e.
    + destruct (existsb (String.eqb dtcCode) JSObject.Object_prototype_keys)
        eqn:Hp.
      * assert (Ht : JSString.truthy dtcCode = true).
        { apply existsb_eqb_In in Hp. simpl in Hp.
          repeat (destruct Hp as [<- | Hp]; [reflexivity|]). destruct Hp. }
        rewrite Ht. simpl. split; [discriminate|]. intros [_ H]. now elim H.
      * rewrite andb_false_r. split; [|reflexivity].
        intros _. split; [intros (e & He); discriminate|discriminate].
Qed.

End CatalogLookup.

Section PointReward.
Local Open Scope string_scope.
Local Open Scope float_scope.

(** The multiplier of a code: the catalog entry's, or none. *)
Lemma rewardImpactPercent_cases (code : string) :
  (code = "P0420" /\ Spec.rewardImpactPercent code = Some (-15))
  \/ (code = "P0171" /\ Spec.rewardImpactPercent code = Some (-10))
  \/ (code = "P0300" /\ Spec.rewardImpactPercent code = Some (-25))
  \/ (~ In code ["P0420"; "P0171"; "P0300"]
      /\ Spec.rewardImpactPercent code = None).
Proof.
  unfold Spec.rewardImpactPercent.
  destruct (JSObject.own CarDataService.dtcInfo code) as [e|] eqn:Hown.
  - destruct (catalog_codes _ _ Hown) as [-> | [-> | ->]];
      injection Hown as <-; simpl; tauto.
  - do 3 right. split; [|reflexivity].
    intros H. apply own_catalog_In in H. destruct H as (e & He). congruence.
Qed.

(** The smallest and the largest point reward. *)
Lemma reward_bounds (dataPoint : DataPoint) :
  (0.0075 <=? CarDataService.getDataPointRewardValue dataPoint) = true
  /\ (CarDataService.getDataPointRewardValue dataPoint <=? 0.0138) = true.
Proof.
  rewrite reward_refines. unfold Spec.pointReward.
  destruct ((40 <=? speed_kmph dataPoint) && (speed_kmph dataPoint <=? 80));
    destruct ((1500 <=? engine_rpm dataPoint)
              && (engine_rpm dataPoint <=? 2500));
    (destruct (dtc_code dataPoint) as [code|]; [|split; reflexivity]);
    destruct (rewardImpactPercent_cases code)
      as [[_ ->] | [[_ ->] | [[_ ->] | [_ ->]]]];
    split; reflexivity.
Qed.

(** X2. Every point reward lies between 0.0075 (no bonus, code P0300) and
    0.0138 (both bonuses, no penalty). *)
Theorem getDataPointRewardValue_bounds (dataPoint : DataPoint) :
  (0.0075 <=? CarDataService.getDataPointRewardValue dataPoint) = true
  /\ (CarDataService.getDataPointRewardValue dataPoint <=? 0.0138) = true.
Proof. apply reward_bounds. Qed.

(** X3. A code of the catalog strictly lowers the reward of a sample, and
    any other code leaves it as it is without a code. *)
Theorem getDataPointRewardValue_penalty
  (dataPoint : DataPoint) (code : string) :
  (In code ["P0420"; "P0171"; "P0300"] ->
   (CarDataService.getDataPointRewardValue
      (with_dtc_code (Some code) dataPoint)
    <? CarDataService.getDataPointRewardValue
         (with_dtc_code None dataPoint)) = true)
  /\ (~ In code ["P0420"; "P0171"; "P0300"] ->
      CarDataService.getDataPointRewardValue
        (with_dtc_code (Some code) dataPoint)
      = CarDataService.getDataPointRewardValue
          (with_dtc_code None dataPoint)).
Proof.
  rewrite !reward_refines. unfold Spec.pointReward, with_dtc_code.
  cbn [speed_kmph engine_rpm dtc_code].
  destruct (rewardImpactPercent_cases code)
    as [[-> ->] | [[-> ->] | [[-> ->] | [Hn ->]]]].
  4: { split; [intros H; now elim Hn|reflexivity]. }
  all: split; [intros _|intros H; exfalso; apply H; simpl; tauto].
  all: destruct ((40 <=? speed_kmph dataPoint)
                 && (speed_kmph dataPoint <=? 80));
    destruct ((1500 <=? engine_rpm dataPoint)
              && (engine_rpm dataPoint <=? 2500));
    reflexivity.
Qed.

Lemma getDataPointRewardValue_penalty_witness :
  (CarDataService.getDataPointRewardValue
     (with_dtc_code (Some "P0300") Examples.cruising)
   <? CarDataService.getDataPointRewardValue
        (with_dtc_code None Examples.cruising)) = true
  /\ CarDataService.getDataPointRewardValue
       (with_dtc_code (Some "P9999") Examples.cruising)
     = CarDataService.getDataPointRewardValue
         (with_dtc_code None Examples.cruising).
Proof.
  split.
  - apply (proj1 (getDataPointRewardValue_penalty Examples.cruising "P0300")).
    simpl; tauto.
  - apply (proj2 (getDataPointRewardValue_penalty Examples.cruising "P9999")).
    simpl. intuition discriminate.
Defined.

End PointReward.

Section BatchBounds.
Local Open Scope string_scope.
Local Open Scope float_scope.

(** Adding a positive number to zero gives that number. *)
Lemma add_0_l_pos (r : float) (m : positive) (e : Z) :
  Prim2SF r = S754_finite false m e -> 0 + r = r.
Proof.
  intros Hr. apply Prim2SF_inj. rewrite add_spec, Hr. reflexivity.
Qed.

(** X4. The batch reward is never negative and never [NaN], and a batch
    that is not empty earns at least the smallest point reward, 0.0075. *)
Theorem getDataBatchRewardValue_lower_bound (dataPoints : list DataPoint) :
  (0 <=? CarDataService.getDataBatchRewardValue dataPoints) = true
  /\ (dataPoints <> [] ->
      (0.0075 <=? CarDataService.getDataBatchRewardValue dataPoints) = true).
Proof.
  assert (Hlow : dataPoints <> [] ->
                 (0.0075 <=? CarDataService.getDataBatchRewardValue dataPoints)
                 = true).
  { destruct dataPoints as [|s rest]; [congruence|]. intros _.
    unfold CarDataService.getDataBatchRewardValue.
    set (step := fun total dataPoint =>
                   total + CarDataService.getDataPointRewardValue dataPoint).
    destruct (reward_positive s) as (m & e & Hr).
    set (r := CarDataService.getDataPointRewardValue s) in *.
    assert (Hfold : fold_left step (s :: rest) 0 = fold_left step rest r).
    { cbn [fold_left]. unfold step at 2. fold r.
      now rewrite (add_0_l_pos _ m e Hr). }
    rewrite Hfold.
    assert (Sr : sf_signed false (Prim2SF r)) by (rewrite Hr; reflexivity).
    destruct (total_signed rest r Sr) as [Hs Hle]. fold step in Hs, Hle.
    set (total := fold_left step rest r) in *.
    assert (S75 : sf_signed false (Prim2SF 0.0075)) by reflexivity.
    assert (Hr75 : (0.0075 <=? r) = true)
      by apply reward_bounds.
    assert (Ht : (0.0075 <=? total) = true)
      by now apply (leb_trans _ r).
    change 0.0075 with (JS.toFixed_parse 4 0.0075) at 1.
    destruct (10 <? List.length (s :: rest))%nat.
    - apply toFixed_parse_mono; try assumption; [now apply bonus_signed|].
      apply (leb_trans _ total); try assumption; [now apply bonus_signed|].
      now apply bonus_increases.
    - now apply toFixed_parse_mono. }
  split; [|exact Hlow].
  destruct dataPoints as [|s rest]; [reflexivity|].
  assert (H := Hlow ltac:(discriminate)).
  apply leb_0_signed.
  rewrite leb_spec in H.
  change (Prim2SF 0.0075) with (S754_finite false 8646911284551352 (-60)) in H.
  destruct (Prim2SF (CarDataService.getDataBatchRewardValue (s :: rest)))
    as [sg|sg| |sg m e]; try discriminate; destruct sg; try discriminate;
    reflexivity.
Qed.

Lemma getDataBatchRewardValue_lower_bound_witness :
  [Examples.reading; Examples.fast] <> []
  /\ (0.0075 <=? CarDataService.getDataBatchRewardValue
                  [Examples.reading; Examples.fast]) = true.
Proof.
  assert (H : [Examples.reading; Examples.fast] <> []) by discriminate.
  split; [exact H|].
  exact (proj2 (getDataBatchRewardValue_lower_bound
                  [Examples.reading; Examples.fast]) H).
Defined.

(** X5. Appending samples, whatever their speeds and codes, never lowers
    the batch reward. *)
Theorem getDataBatchRewardValue_append (dataPoints more : list DataPoint) :
  (CarDataService.getDataBatchRewardValue dataPoints
   <=? CarDataService.getDataBatchRewardValue (dataPoints ++ more)) = true.
Proof. apply batchReward_append. Qed.

End BatchBounds.

Section EfficiencyRange.
Local Open Scope float_scope.

Lemma Math_max_ge_r (a b : float) :
  is_nan a = false -> is_nan b = false ->
  is_nan (JS.Math_max a b) = false /\ (b <=? JS.Math_max a b) = true.
Proof.
  intros Ha Hb. unfold JS.Math_max. rewrite Ha, Hb. simpl orb.
  destruct (a <? b) eqn:H1; [split; [assumption|now apply leb_refl]|].
  destruct (b <? a) eqn:H2; [split; [assumption|now apply ltb_leb]|].
  destruct (get_sign a).
  - split; [assumption|now apply leb_refl].
  - split; [assumption|]. now apply not_ltb_leb.
Qed.

Lemma Math_max_nan_l (a b : float) :
  is_nan a = true -> is_nan (JS.Math_max a b) = true.
Proof. intros H. unfold JS.Math_max. rewrite H. reflexivity. Qed.

Lemma Math_min_nan_l (a b : float) :
  is_nan a = true -> is_nan (JS.Math_min a b) = true.
Proof. intros H. unfold JS.Math_min. rewrite H. reflexivity. Qed.

(** X6. The efficiency score is 0 for fewer than 5 samples, and otherwise
    it is [NaN] or a number of [0, 100]; it is [NaN] for five samples of a
    parked car (speed 0, engine off). *)
Theorem getVehicleEfficiencyScore_range
  (dataPoints : list DataPoint) (timeframeMinutes : nat) :
  let score :=
    CarDataService.getVehicleEfficiencyScore dataPoints timeframeMinutes in
  ((List.length dataPoints < 5)%nat -> score = 0)
  /\ (is_nan score = true
      \/ ((0 <=? score) = true /\ (score <=? 100) = true))
  /\ is_nan (CarDataService.getVehicleEfficiencyScore
               (repeat Examples.parked 5) timeframeMinutes) = true.
Proof.
  intros score. unfold score, CarDataService.getVehicleEfficiencyScore.
  split; [|split].
  - intros H.
    destruct (Nat.ltb_spec (List.length dataPoints) 5); [reflexivity|lia].
  - destruct (List.length dataPoints <? 5)%nat; [right; split; reflexivity|].
    unfold CarDataService.efficiency_of_window.
    set (r := JS.Math_round _).
    destruct (is_nan r) eqn:Hr.
    + left. now apply Math_min_nan_l, Math_max_nan_l.
    + right.
      destruct (Math_max_ge_r r 0 Hr eq_refl) as [Hn Hge].
      now apply Math_min_range.
  - destruct timeframeMinutes as [|[|[|[|[|n]]]]]; vm_compute; reflexivity.
Qed.

Lemma getVehicleEfficiencyScore_range_witness :
  (List.length [Examples.reading; Examples.cruising] < 5)%nat
  /\ CarDataService.getVehicleEfficiencyScore
       [Examples.reading; Examples.cruising] 60 = 0.
Proof.
  assert (H : (List.length [Examples.reading; Examples.cruising] < 5)%nat)
    by (simpl; lia).
  split; [exact H|].
  exact (proj1 (getVehicleEfficiencyScore_range
                  [Examples.reading; Examples.cruising] 60) H).
Defined.

End EfficiencyRange.

(** ** The data stream of [CarDataService] *)

Section Stream.
Local Open Scope string_scope.

(** X7. On a stream that is not running, [startSimulation] throws exactly
    when no corpus is loaded, and otherwise marks the stream as running;
    either way a [stopSimulation] afterwards restores the state, and a
    second [startSimulation] changes nothing and returns no stream. *)
Theorem stream_start_stop (st : CarDataService.State) :
  CarDataService.isStreaming st = false ->
  let started := CarDataService.startSimulation st in
  (fst started
   = Throws "No synthetic data loaded. Call loadSyntheticData first."
   <-> CarDataService.syntheticData st = [])
  /\ (CarDataService.syntheticData st <> [] ->
      fst started = Returns true
      /\ CarDataService.isStreaming (snd started) = true
      /\ CarDataService.startSimulation (snd started)
         = (Returns false, snd started))
  /\ CarDataService.stopSimulation (snd started) = st.
Proof.
  intros Hs started. unfold started, CarDataService.startSimulation.
  rewrite Hs.
  destruct st as [data streaming index]. simpl in *. subst streaming.
  destruct data as [|p rest]; simpl.
  - split; [tauto|]. split; [congruence|reflexivity].
  - split; [split; discriminate|]. split; [|reflexivity].
    intros _. repeat split.
Qed.

Lemma stream_start_stop_witness :
  let st := LocalDriveSimulator.car
              (LocalDriveSimulator.initial Examples.corpus) in
  CarDataService.isStreaming st = false
  /\ CarDataService.syntheticData st <> []
  /\ fst (CarDataService.startSimulation st) = Returns true
  /\ CarDataService.stopSimulation (snd (CarDataService.startSimulation st))
     = st.
Proof.
  intros st.
  assert (Hs : CarDataService.isStreaming st = false) by reflexivity.
  assert (Hd : CarDataService.syntheticData st <> []) by discriminate.
  split; [exact Hs|]. split; [exact Hd|].
  split.
  - exact (proj1 (proj1 (proj2 (stream_start_stop st Hs)) Hd)).
  - exact (proj2 (proj2 (stream_start_stop st Hs))).
Defined.

(** The cursor is an index of the corpus. *)
Lemma cursor_in_bounds (st : CarDataService.State) :
  CarDataService.syntheticData st <> [] ->
  (CarDataService.cursor st
   < List.length (CarDataService.syntheticData st))%nat.
Proof.
  intros Hd. unfold CarDataService.cursor.
  destruct (Nat.leb_spec (List.length (CarDataService.syntheticData st))
                         (CarDataService.currentDataIndex st)).
  - destruct (CarDataService.syntheticData st); [congruence|simpl; lia].
  - assumption.
Qed.

Lemma cursor_sample (st : CarDataService.State) :
  CarDataService.syntheticData st <> [] ->
  exists currentData,
    nth_error (CarDataService.syntheticData st) (CarDataService.cursor st)
    = Some currentData.
Proof.
  intros Hd.
  destruct (nth_error (CarDataService.syntheticData st)
                      (CarDataService.cursor st)) as [p|] eqn:E.
  - now exists p.
  - apply nth_error_None in E. pose proof (cursor_in_bounds st Hd). lia.
Qed.

(** X8. With a corpus loaded, the interval's step always finds a sample
    under the cursor, whatever the index was; it leaves the index within
    the corpus, and [getLastData] then returns that sample.  Before the
    first step (index 0) [getLastData] returns the last sample of the
    corpus. *)
Theorem getLastData_follows_cursor (st : CarDataService.State) :
  CarDataService.syntheticData st <> [] ->
  (exists currentData,
      nth_error (CarDataService.syntheticData st) (CarDataService.cursor st)
      = Some currentData
      /\ CarDataService.getLastData (CarDataService.advance st)
         = Some currentData)
  /\ (CarDataService.currentDataIndex (CarDataService.advance st)
      <= List.length (CarDataService.syntheticData st))%nat
  /\ (CarDataService.currentDataIndex st = 0%nat ->
      forall d,
        CarDataService.getLastData st
        = Some (last (CarDataService.syntheticData st) d)).
Proof.
  intros Hd.
  pose proof (cursor_in_bounds st Hd) as Hc.
  destruct (cursor_sample st Hd) as (p & Hp).
  split; [|split].
  - exists p. split; [exact Hp|].
    unfold CarDataService.getLastData, CarDataService.advance.
    cbn [CarDataService.syntheticData CarDataService.currentDataIndex].
    destruct (Nat.eqb_spec (List.length (CarDataService.syntheticData st)) 0)
      as [E|E]; [lia|].
    cbn [Nat.ltb Nat.leb]. rewrite Nat.sub_1_r. exact Hp.
  - unfold CarDataService.advance.
    cbn [CarDataService.currentDataIndex]. lia.
  - intros H0 d. unfold CarDataService.getLastData. rewrite H0.
    destruct (Nat.eqb_spec (List.length (CarDataService.syntheticData st)) 0)
      as [E|E]; [lia|].
    cbn [Nat.ltb Nat.leb].
    destruct (CarDataService.syntheticData st) as [|q rest] eqn:Ed;
      [congruence|].
    clear. revert q. induction rest as [|r rest IH]; intros q; [reflexivity|].
    change (last (q :: r :: rest) d) with (last (r :: rest) d).
    rewrite <- IH. simpl. now rewrite Nat.sub_0_r.
Qed.

Lemma getLastData_follows_cursor_witness :
  let st := LocalDriveSimulator.car Examples.running in
  CarDataService.syntheticData st <> []
  /\ CarDataService.getLastData (CarDataService.advance st)
     = Some Examples.fast
  /\ (CarDataService.currentDataIndex (CarDataService.advance st)
      <= List.length (CarDataService.syntheticData st))%nat.
Proof.
  intros st.
  assert (Hd : CarDataService.syntheticData st <> []) by discriminate.
  split; [exact Hd|].
  pose proof (getLastData_follows_cursor st Hd) as [(p & Hp & Hl) [Hi _]].
  split; [|exact Hi].
  rewrite Hl. rewrite <- Hp. reflexivity.
Defined.

End Stream.

(** ** The session controller: starting and stopping *)

Section Controller.
Local Open Scope string_scope.
Local Open Scope float_scope.

(** A key reads as a truthy value on an object literal exactly when it is
    an own key or the name of a member of [Object.prototype]. *)
Lemma get_truthy_iff {A} (props : list (string * A)) (key : string) :
  JSObject.truthy (JSObject.get props key) = true
  <-> In key (map fst props) \/ In key JSObject.Object_prototype_keys.
Proof.
  unfold JSObject.get.
  assert (Hown : (exists v, JSObject.own props key = Some v)
                 <-> In key (map fst props)).
  { induction props as [|[k v] rest IH]; simpl.
    - split; [intros (v & H); discriminate|tauto].
    - destruct (String.eqb_spec k key) as [->|Hne].
      + split; [intros _; now left|]. intros _. now exists v.
      + rewrite IH. split; [tauto|]. intros [H|H]; [congruence|assumption]. }
  destruct (JSObject.own props key) as [v|].
  - split; [|reflexivity]. intros _. left. apply Hown. now exists v.
  - rewrite <- (existsb_eqb_In key JSObject.Object_prototype_keys).
    destruct (existsb (String.eqb key) JSObject.Object_prototype_keys).
    + split; [intros _; now right|reflexivity].
    + split; [discriminate|].
      intros [H|H]; [|discriminate].
      apply Hown in H. destruct H as (v & H). discriminate.
Qed.

(** The state a successful [startSimulation] builds. *)
Lemma startSimulation_accepts
  (now : float) (load : outcome (list DataPoint))
  (routeType : string) (durationMinutes : float)
  (st : LocalDriveSimulator.State) :
  LocalDriveSimulator.isSimulating st = false ->
  CarDataService.syntheticData (LocalDriveSimulator.car st) <> [] ->
  CarDataService.isStreaming (LocalDriveSimulator.car st) = false ->
  JSObject.truthy (JSObject.get LocalDriveSimulator.routes routeType) = true ->
  LocalDriveSimulator.startSimulation now load routeType durationMinutes st
  = (Returns
       {| LocalDriveSimulator.success := true;
          LocalDriveSimulator.route :=
            LocalDriveSimulator.route_name
              (JSObject.get LocalDriveSimulator.routes routeType);
          LocalDriveSimulator.estimatedDuration := Some durationMinutes;
          LocalDriveSimulator.message :=
            "Started a "
            ++ JSString.show
                 (LocalDriveSimulator.route_name
                    (JSObject.get LocalDriveSimulator.routes routeType))
            ++ " simulation for "
            ++ NumberToString.Number_toString durationMinutes
            ++ " minutes" |},
     {| LocalDriveSimulator.isSimulating := true;
        LocalDriveSimulator.simulationData := [];
        LocalDriveSimulator.currentRoute := Some routeType;
        LocalDriveSimulator.simulationStartTimestamp := Some now;
        LocalDriveSimulator.simulationElapsedTime := 0;
        LocalDriveSimulator.subscription := Some (routeType, durationMinutes);
        LocalDriveSimulator.car :=
          {| CarDataService.syntheticData :=
               CarDataService.syntheticData (LocalDriveSimulator.car st);
             CarDataService.isStreaming := true;
             CarDataService.currentDataIndex :=
               CarDataService.currentDataIndex (LocalDriveSimulator.car st) |}
     |}).
Proof.
  intros Hidle Hdata Hstream Hroute.
  unfold LocalDriveSimulator.startSimulation.
  rewrite Hidle, Hroute.
  destruct (Nat.eqb_spec
              (List.length
                 (CarDataService.syntheticData (LocalDriveSimulator.car st))) 0)
    as [E|E].
  { destruct (CarDataService.syntheticData (LocalDriveSimulator.car st));
      [congruence|discriminate]. }
  cbn [negb LocalDriveSimulator.car].
  unfold CarDataService.startSimulation. rewrite Hstream.
  destruct (Nat.eqb_spec
              (List.length
                 (CarDataService.syntheticData (LocalDriveSimulator.car st))) 0)
    as [E'|E']; [contradiction|].
  reflexivity.
Qed.

(** X9. Starting from an idle simulator whose corpus is loaded and whose
    stream is not running: the call succeeds exactly when the route type
    is one of URBAN, HIGHWAY, MOUNTAIN, RURAL or the name of a member of
    [Object.prototype].  On success the session is marked running with no
    collected data, the route and the subscription are recorded and the
    stream runs over the same corpus; otherwise the answer lists the four
    routes and nothing changes. *)
Theorem startSimulation_from_idle
  (now : float) (load : outcome (list DataPoint))
  (routeType : string) (durationMinutes : float)
  (st : LocalDriveSimulator.State) :
  LocalDriveSimulator.isSimulating st = false ->
  CarDataService.syntheticData (LocalDriveSimulator.car st) <> [] ->
  CarDataService.isStreaming (LocalDriveSimulator.car st) = false ->
  let call :=
    LocalDriveSimulator.startSimulation now load routeType durationMinutes st in
  ((In routeType ["URBAN"; "HIGHWAY"; "MOUNTAIN"; "RURAL"]
    \/ In routeType JSObject.Object_prototype_keys) ->
   exists result,
     fst call = Returns result
     /\ LocalDriveSimulator.success result = true
     /\ LocalDriveSimulator.estimatedDuration result = Some durationMinutes
     /\ LocalDriveSimulator.isSimulating (snd call) = true
     /\ LocalDriveSimulator.simulationData (snd call) = []
     /\ LocalDriveSimulator.currentRoute (snd call) = Some routeType
     /\ LocalDriveSimulator.subscription (snd call)
        = Some (routeType, durationMinutes)
     /\ CarDataService.isStreaming (LocalDriveSimulator.car (snd call)) = true
     /\ CarDataService.syntheticData (LocalDriveSimulator.car (snd call))
        = CarDataService.syntheticData (LocalDriveSimulator.car st)
     /\ CarDataService.currentDataIndex (LocalDriveSimulator.car (snd call))
        = CarDataService.currentDataIndex (LocalDriveSimulator.car st))
  /\ (~ (In routeType ["URBAN"; "HIGHWAY"; "MOUNTAIN"; "RURAL"]
         \/ In routeType JSObject.Object_prototype_keys) ->
      call
      = (Returns
           (LocalDriveSimulator.failure
              "Invalid route type. Choose from: URBAN, HIGHWAY, MOUNTAIN, RURAL"),
         st)).
Proof.
  intros Hidle Hdata Hstream call.
  change ["URBAN"; "HIGHWAY"; "MOUNTAIN"; "RURAL"]
    with (map fst LocalDriveSimulator.routes).
  rewrite <- get_truthy_iff.
  split.
  - intros Hroute. unfold call.
    rewrite (startSimulation_accepts _ _ _ _ _ Hidle Hdata Hstream Hroute).
    eexists. cbn. repeat split.
  - intros Hroute. apply not_true_is_false in Hroute.
    unfold call, LocalDriveSimulator.startSimulation.
    rewrite Hidle, Hroute.
    destruct (Nat.eqb_spec
                (List.length
                   (CarDataService.syntheticData (LocalDriveSimulator.car st))) 0)
      as [E|E]; [|reflexivity].
    destruct (CarDataService.syntheticData (LocalDriveSimulator.car st));
      [congruence|discriminate].
Qed.

Lemma startSimulation_from_idle_witness :
  let st := LocalDriveSimulator.initial Examples.corpus in
  let call :=
    LocalDriveSimulator.startSimulation
      1704067200000 (Throws "not called") "RURAL" 10 st in
  exists result,
    fst call = Returns result
    /\ LocalDriveSimulator.success result = true
    /\ LocalDriveSimulator.message result
       = "Started a Country Roads simulation for 10 minutes"
    /\ LocalDriveSimulator.isSimulating (snd call) = true
    /\ LocalDriveSimulator.simulationData (snd call) = [].
Proof.
  intros st call.
  assert (Hi : LocalDriveSimulator.isSimulating st = false) by reflexivity.
  assert (Hd : CarDataService.syntheticData (LocalDriveSimulator.car st) <> [])
    by discriminate.
  assert (Hs : CarDataService.isStreaming (LocalDriveSimulator.car st) = false)
    by reflexivity.
  assert (Hr : In "RURAL" ["URBAN"; "HIGHWAY"; "MOUNTAIN"; "RURAL"]
               \/ In "RURAL" JSObject.Object_prototype_keys)
    by (left; simpl; tauto).
  destruct (proj1 (startSimulation_from_idle
                     1704067200000 (Throws "not called") "RURAL" 10 st
                     Hi Hd Hs) Hr)
    as (result & Hres & Hok & _ & Hrun & Hdata & _).
  exists result. split; [exact Hres|]. split; [exact Hok|].
  split; [|split; [exact Hrun|exact Hdata]].
  assert (E : Returns result = fst call) by (symmetry; exact Hres).
  vm_compute in E. injection E as ->. vm_compute. reflexivity.
Defined.

(** X10. Whenever [startSimulation] throws, the simulator was idle and is
    left marked as running, with no collected data and no new
    subscription: every later [startSimulation] is refused as
    "already running". *)
Theorem startSimulation_throws_marked_running
  (now : float) (load : outcome (list DataPoint))
  (routeType : string) (durationMinutes : float)
  (st st' : LocalDriveSimulator.State) (e : string) :
  LocalDriveSimulator.startSimulation now load routeType durationMinutes st
  = (Throws e, st') ->
  LocalDriveSimulator.isSimulating st = false
  /\ LocalDriveSimulator.isSimulating st' = true
  /\ LocalDriveSimulator.simulationData st' = []
  /\ LocalDriveSimulator.subscription st' = LocalDriveSimulator.subscription st
  /\ forall now' load' routeType' durationMinutes',
      LocalDriveSimulator.startSimulation
        now' load' routeType' durationMinutes' st'
      = (Returns (LocalDriveSimulator.failure "A simulation is already running"),
         st').
Proof.
  unfold LocalDriveSimulator.startSimulation at 1.
  destruct (LocalDriveSimulator.isSimulating st) eqn:Hidle; [discriminate|].
  set (loaded := if (_ =? 0)%nat then _ else _).
  destruct loaded as [st1|msg] eqn:Hl; [|discriminate].
  assert (Hsub : LocalDriveSimulator.subscription st1
                 = LocalDriveSimulator.subscription st).
  { unfold loaded in Hl.
    destruct (_ =? 0)%nat; [|now injection Hl as <-].
    destruct load; [|discriminate]. now injection Hl as <-. }
  destruct (negb (JSObject.truthy
                    (JSObject.get LocalDriveSimulator.routes routeType)));
    [discriminate|].
  cbn [LocalDriveSimulator.car].
  destruct (CarDataService.startSimulation (LocalDriveSimulator.car st1))
    as [[[|]|msg] c]; try discriminate;
    intros H; injection H as _ <-;
    (split; [reflexivity|]); (split; [reflexivity|]);
    (split; [reflexivity|]); (split; [exact Hsub|]);
    intros; reflexivity.
Qed.

(** The stream is already running (something else started it) when an
    idle simulator is asked to start: the call throws once the session
    has been marked running. *)
Lemma startSimulation_throws_marked_running_witness :
  let st :=
    LocalDriveSimulator.with_car
      (LocalDriveSimulator.initial Examples.corpus)
      (snd (CarDataService.startSimulation
              (LocalDriveSimulator.car
                 (LocalDriveSimulator.initial Examples.corpus)))) in
  let call :=
    LocalDriveSimulator.startSimulation
      1704067200000 (Throws "not called") "URBAN" 10 st in
  fst call
  = Throws "TypeError: Cannot read properties of undefined (reading 'subscribe')"
  /\ LocalDriveSimulator.isSimulating st = false
  /\ LocalDriveSimulator.isSimulating (snd call) = true
  /\ LocalDriveSimulator.subscription (snd call) = None.
Proof.
  intros st call.
  assert (E : call
              = (Throws "TypeError: Cannot read properties of undefined (reading 'subscribe')",
                 snd call)) by (vm_compute; reflexivity).
  destruct (startSimulation_throws_marked_running _ _ _ _ _ _ _ E)
    as (Hi & Hr & _ & Hs & _).
  split; [now rewrite E|]. split; [exact Hi|]. split; [exact Hr|].
  rewrite Hs. reflexivity.
Defined.

(** X11. [stopSimulation] succeeds exactly when a session is running.  It
    then clears the running mark, the subscription and the stream, and
    keeps the collected data and the route; an idle simulator is left
    untouched.  After it, a second [stopSimulation] fails and changes
    nothing. *)
Theorem stopSimulation_effect (st : LocalDriveSimulator.State) :
  let stopped := LocalDriveSimulator.stopSimulation st in
  fst stopped = LocalDriveSimulator.isSimulating st
  /\ LocalDriveSimulator.isSimulating (snd stopped) = false
  /\ LocalDriveSimulator.simulationData (snd stopped)
     = LocalDriveSimulator.simulationData st
  /\ LocalDriveSimulator.currentRoute (snd stopped)
     = LocalDriveSimulator.currentRoute st
  /\ (LocalDriveSimulator.isSimulating st = true ->
      LocalDriveSimulator.subscription (snd stopped) = None
      /\ CarDataService.isStreaming (LocalDriveSimulator.car (snd stopped))
         = false)
  /\ (LocalDriveSimulator.isSimulating st = false -> snd stopped = st)
  /\ LocalDriveSimulator.stopSimulation (snd stopped) = (false, snd stopped).
Proof.
  unfold LocalDriveSimulator.stopSimulation.
  destruct (LocalDriveSimulator.isSimulating st) eqn:H; cbn.
  - repeat split; try discriminate.
    unfold CarDataService.stopSimulation.
    destruct (CarDataService.isStreaming (LocalDriveSimulator.car st)) eqn:Hs;
      [reflexivity|exact Hs].
  - rewrite H. cbn. repeat split; try assumption; discriminate.
Qed.

Lemma stopSimulation_effect_witness :
  LocalDriveSimulator.isSimulating Examples.running = true
  /\ fst (LocalDriveSimulator.stopSimulation Examples.running) = true
  /\ LocalDriveSimulator.subscription
       (snd (LocalDriveSimulator.stopSimulation Examples.running)) = None
  /\ CarDataService.isStreaming
       (LocalDriveSimulator.car
          (snd (LocalDriveSimulator.stopSimulation Examples.running))) = false
  /\ List.length
       (LocalDriveSimulator.simulationData
          (snd (LocalDriveSimulator.stopSimulation Examples.running))) = 2%nat.
Proof.
  assert (Hr : LocalDriveSimulator.isSimulating Examples.running = true)
    by (vm_compute; reflexivity).
  destruct (stopSimulation_effect Examples.running)
    as (Hok & _ & Hdata & _ & Hstop & _).
  destruct (Hstop Hr) as [Hsub Hcar].
  split; [exact Hr|]. split; [now rewrite Hok|].
  split; [exact Hsub|]. split; [exact Hcar|].
  rewrite Hdata. vm_compute. reflexivity.
Defined.

End Controller.

(** ** The session controller: collecting data *)

Section Collecting.
Local Open Scope string_scope.
Local Open Scope float_scope.

Variable durationMinutes : float.
Variable limit : nat.

(** [limit] is the first number of points at which the subscriber's test
    [elapsedMinutes >= durationMinutes] succeeds. *)
Hypothesis limit_pos : (0 < limit)%nat.
Hypothesis limit_reached :
  (durationMinutes <=? JS.of_nat limit / 60) = true.
Hypothesis limit_first :
  forall k, (0 < k < limit)%nat ->
            (durationMinutes <=? JS.of_nat k / 60) = false.






End Collecting.

Section DefaultDuration.
Local Open Scope string_scope.
Local Open Scope float_scope.




End DefaultDuration.

Section Replay.
Local Open Scope string_scope.
Local Open Scope float_scope.









End Replay.

(** ** Rounding to [d] decimals, for every [d] from 1 to 19 *)

Section AnyPrecision.
Local Open Scope Z_scope.

Variable d : Z.
Hypothesis d_range : 1 <= d <= 19.

(** The divisor [10^d] is an even integer below [2^64]. *)
Lemma pow10_divisor :
  exists t : positive,
    10 ^ d = Zpos t /\ Z.even (Zpos t) = true /\ Zpos t < 2 ^ 64.
Proof.
  assert (Hpos : 0 < 10 ^ d) by (apply Z.pow_pos_nonneg; lia).
  destruct (10 ^ d) as [|t|t] eqn:E; try lia.
  exists t. split; [reflexivity|]. rewrite <- E. split.
  - replace d with (Z.succ (d - 1)) by lia.
    rewrite Z.pow_succ_r by lia. rewrite Z.even_mul. reflexivity.
  - assert (10 ^ d <= 10 ^ 19) by (apply Z.pow_le_mono_r; lia).
    assert (10 ^ 19 < 2 ^ 64) by reflexivity. lia.
Qed.

(** The binary64 value nearest to [n / 10^d]. *)
Lemma decimal_any (n : Z) :
  0 <= n ->
  SpecFloat.valid_binary prec emax
    (SFdiv prec emax (JS.Z2SF n) (JS.Z2SF (10 ^ d))) = true
  /\ sf_signed false (SFdiv prec emax (JS.Z2SF n) (JS.Z2SF (10 ^ d))).
Proof.
  intros Hn. destruct pow10_divisor as (t & -> & Hev & Ht).
  destruct n as [|p|p]; try lia.
  - split; reflexivity.
  - unfold JS.Z2SF.
    destruct (SFdiv_integers_sem p t Hev Ht)
      as (q & s & l & -> & Hs & L & Hen).
    split.
    + now apply (binary_round_aux_valid q (- s) l _ _ L).
    + apply binary_round_aux_signed. destruct Hen; lia.
Qed.

Lemma decimal_any_mono (n1 n2 : Z) :
  0 <= n1 <= n2 ->
  SFleb (SFdiv prec emax (JS.Z2SF n1) (JS.Z2SF (10 ^ d)))
        (SFdiv prec emax (JS.Z2SF n2) (JS.Z2SF (10 ^ d))) = true.
Proof.
  intros Hn.
  destruct (decimal_any n2 ltac:(lia)) as [_ S2].
  revert S2. destruct pow10_divisor as (t & -> & Hev & Ht).
  intros S2.
  destruct n1 as [|p1|p1]; try lia.
  - apply SFleb_zero_l. exact S2.
  - destruct n2 as [|p2|p2]; try lia. unfold JS.Z2SF.
    destruct (SFdiv_integers_sem p1 t Hev Ht)
      as (q1 & s1 & l1 & -> & Hs1 & L1 & Hen1).
    destruct (SFdiv_integers_sem p2 t Hev Ht)
      as (q2 & s2 & l2 & -> & Hs2 & L2 & Hen2).
    apply (binary_round_aux_mono q1 (- s1) l1 _ _ q2 (- s2) l2 _ _ L1 L2);
      try assumption.
    set (B := Z.min (- s1) (- s2)).
    assert (G1 : 2 ^ (- B) = 2 ^ s1 * 2 ^ (- s1 - B))
      by (rewrite <- Z.pow_add_r by (unfold B; lia); f_equal; lia).
    assert (G2 : 2 ^ (- B) = 2 ^ s2 * 2 ^ (- s2 - B))
      by (rewrite <- Z.pow_add_r by (unfold B; lia); f_equal; lia).
    assert (0 < 2 ^ (- B)) by (apply Z.pow_pos_nonneg; unfold B; lia).
    transitivity (Zpos p1 * Zpos t * 2 ^ (- B)); [rewrite G1 at 1; lia|].
    transitivity (Zpos p2 * Zpos t * 2 ^ (- B)); [nia|rewrite G2 at 1; lia].
Qed.

Lemma decimal_any_le_1e21 (n : Z) :
  0 <= n <= 10 ^ 21 * 10 ^ d ->
  SFleb (SFdiv prec emax (JS.Z2SF n) (JS.Z2SF (10 ^ d)))
        (Prim2SF 1e21) = true.
Proof.
  intros Hn.
  assert (H21 : Prim2SF 1e21 = S754_finite false 7629394531250000 17)
    by reflexivity.
  destruct (canonical_enough 1e21%float _ _ H21) as [Hen Hid].
  rewrite H21.
  destruct pow10_divisor as (t & Et & Hev & Ht). rewrite Et in *.
  destruct n as [|p|p]; try lia; [reflexivity|].
  unfold JS.Z2SF.
  destruct (SFdiv_integers_sem p t Hev Ht)
    as (q & s & l & -> & Hs & L & Hen1).
  rewrite <- Hid.
  apply (binary_round_aux_mono q (- s) l _ _
           7629394531250000 17 loc_Exact 7629394531250000 1 L);
    try assumption; [apply locates_exact; lia|].
  replace (Z.min (- s) 17) with (- s) by lia.
  rewrite Z.sub_diag, !Z.mul_1_r.
  replace (17 - - s) with (17 + s) by lia.
  rewrite Z.pow_add_r by lia.
  assert (0 < 2 ^ s) by (apply Z.pow_pos_nonneg; lia).
  change (10 ^ 21) with (7629394531250000 * 2 ^ 17) in Hn.
  nia.
Qed.

(** Below 1e21 the scaled integer is at most [10^21 * 10^d]. *)
Lemma scaled_round_any_below_1e21 (x : float) (m : positive) (e : Z) :
  Prim2SF x = S754_finite false m e ->
  SFleb (Prim2SF 1e21) (Prim2SF x) = false ->
  0 <= JS.scaled_round d (Prim2SF x) <= 10 ^ 21 * 10 ^ d.
Proof.
  intros Hx Hlt. split; [apply scaled_round_nonneg|].
  destruct (valid_finite x false m e Hx) as (Hm & _ & _).
  rewrite Hx in *.
  change (Prim2SF 1e21) with (S754_finite false 7629394531250000 17) in Hlt.
  unfold SFleb in Hlt. rewrite SFcompare_pos in Hlt.
  assert (Hcases : e < 17 \/ (e = 17 /\ Zpos m < 7629394531250000)).
  { destruct (Z.compare_spec 17 e); try discriminate; try lia.
    subst e. right. split; [reflexivity|].
    destruct (Z.compare_spec 7629394531250000 (Zpos m)); try discriminate; lia. }
  set (B := Z.min e 0).
  rewrite (scaled_round_uniform false m e d B) by (unfold B; lia).
  assert (P : 0 < 2 ^ (- B)) by (apply Z.pow_pos_nonneg; unfold B; lia).
  assert (G1 : 2 ^ (1 - B) = 2 * 2 ^ (- B)).
  { replace (1 - B) with (Z.succ (- B)) by lia. apply Z.pow_succ_r.
    unfold B; lia. }
  apply Z.lt_succ_r, Z.div_lt_upper_bound; [rewrite G1; lia|].
  rewrite G1.
  assert (Hval : Zpos m * 2 ^ (e - B) < 10 ^ 21 * 2 ^ (- B)).
  { change (2 ^ 53) with 9007199254740992 in Hm.
    destruct (Z.leb_spec 0 e) as [He|He].
    - replace B with 0 by (unfold B; lia).
      rewrite Z.sub_0_r. change (2 ^ (- 0)) with 1. rewrite Z.mul_1_r.
      destruct Hcases as [Hlt17|[-> Hm21]].
      + assert (2 ^ e <= 2 ^ 16) by (apply Z.pow_le_mono_r; lia).
        assert (0 < 2 ^ e) by (apply Z.pow_pos_nonneg; lia).
        change (2 ^ 16) with 65536 in *.
        change (10 ^ 21) with 1000000000000000000000. nia.
      + change (2 ^ 17) with 131072.
        change (10 ^ 21) with 1000000000000000000000. lia.
    - replace B with e by (unfold B; lia).
      rewrite Z.sub_diag, Z.mul_1_r.
      assert (0 < 2 ^ (- e)) by (apply Z.pow_pos_nonneg; lia).
      change (10 ^ 21) with 1000000000000000000000. nia. }
  assert (0 < 10 ^ d) by (apply Z.pow_pos_nonneg; lia).
  nia.
Qed.

Local Open Scope float_scope.

Lemma Prim2SF_decimal_any (n : Z) :
  (0 <= n)%Z ->
  Prim2SF (JS.decimal_to_number n d)
  = SFdiv prec emax (JS.Z2SF n) (JS.Z2SF (10 ^ d)).
Proof.
  intros Hn. unfold JS.decimal_to_number.
  apply Prim2SF_SF2Prim. now apply decimal_any.
Qed.

Lemma toFixed_parse_any_zero (x : float) (s : bool) :
  Prim2SF x = S754_zero s -> JS.toFixed_parse d x = 0.
Proof.
  intros Hx. unfold JS.toFixed_parse.
  assert (Hn : is_nan x = false) by (apply is_nan_false; congruence).
  assert (Ha : Prim2SF (abs x) = S754_zero false)
    by (rewrite abs_spec, Hx; reflexivity).
  unfold is_infinity. rewrite Hn, eqb_spec, leb_spec, ltb_spec, Ha, Hx.
  change (Prim2SF infinity) with (S754_infinity false).
  change (Prim2SF 1e21) with (S754_finite false 7629394531250000 17).
  change (Prim2SF 0) with (S754_zero false).
  cbn [SFeqb SFleb SFltb SFcompare JS.scaled_round].
  unfold JS.decimal_to_number.
  destruct pow10_divisor as (t & -> & _ & _). reflexivity.
Qed.

Lemma toFixed_parse_any_inf (x : float) :
  Prim2SF x = S754_infinity false -> JS.toFixed_parse d x = x.
Proof.
  intros Hx. unfold JS.toFixed_parse.
  assert (Hn : is_nan x = false) by (apply is_nan_false; congruence).
  assert (Ha : Prim2SF (abs x) = S754_infinity false)
    by (rewrite abs_spec, Hx; reflexivity).
  unfold is_infinity. rewrite Hn, eqb_spec, Ha. reflexivity.
Qed.

(** Rounding to [d] decimals keeps a number at least 0 in the same class. *)
Lemma toFixed_parse_any_signed (x : float) :
  sf_signed false (Prim2SF x) ->
  sf_signed false (Prim2SF (JS.toFixed_parse d x)).
Proof.
  intros Hx.
  destruct (Prim2SF x) as [s|s| |s m e] eqn:Ex; simpl in Hx; try tauto; subst.
  - rewrite (toFixed_parse_any_zero x _ Ex). reflexivity.
  - rewrite (toFixed_parse_any_inf x Ex), Ex. reflexivity.
  - rewrite (toFixed_parse_pos d x m e Ex).
    destruct (1e21 <=? x); [rewrite Ex; reflexivity|].
    rewrite Prim2SF_decimal_any by apply scaled_round_nonneg.
    apply decimal_any, scaled_round_nonneg.
Qed.

(** Rounding to [d] decimals is monotone on the numbers at least 0. *)
Lemma toFixed_parse_any_mono (x y : float) :
  sf_signed false (Prim2SF x) ->
  sf_signed false (Prim2SF y) ->
  (x <=? y) = true ->
  (JS.toFixed_parse d x <=? JS.toFixed_parse d y) = true.
Proof.
  intros Hx Hy Hle.
  assert (Sx := toFixed_parse_any_signed x Hx).
  assert (Sy := toFixed_parse_any_signed y Hy).
  pose proof Hle as Hle'. rewrite leb_spec in Hle'.
  destruct (Prim2SF x) as [s1|s1| |s1 m1 e1] eqn:Ex; simpl in Hx; try tauto;
    subst.
  - rewrite (toFixed_parse_any_zero x _ Ex). now apply leb_0_signed.
  - destruct (Prim2SF y) as [s2|s2| |s2 m2 e2] eqn:Ey; simpl in Hy; try tauto;
      subst; try discriminate.
    rewrite (toFixed_parse_any_inf x Ex), (toFixed_parse_any_inf y Ey).
    rewrite leb_spec, Ex, Ey. reflexivity.
  - destruct (Prim2SF y) as [s2|s2| |s2 m2 e2] eqn:Ey; simpl in Hy; try tauto;
      subst; try discriminate.
    + rewrite (toFixed_parse_any_inf y Ey). rewrite leb_spec, Ey.
      apply SFleb_inf_r. eapply sf_signed_not_nan. exact Sx.
    + rewrite (toFixed_parse_pos d x m1 e1 Ex) in *.
      rewrite (toFixed_parse_pos d y m2 e2 Ey) in *.
      destruct (1e21 <=? x) eqn:Bx; destruct (1e21 <=? y) eqn:By.
      * exact Hle.
      * exfalso.
        assert (H : (1e21 <=? y) = true).
        { apply (leb_trans _ x); try assumption;
            try (rewrite ?Ex, ?Ey; reflexivity). }
        congruence.
      * apply (leb_trans _ 1e21); try assumption;
          try (rewrite ?Ey; reflexivity).
        rewrite leb_spec, Prim2SF_decimal_any by apply scaled_round_nonneg.
        apply decimal_any_le_1e21.
        apply (scaled_round_any_below_1e21 x m1 e1 Ex).
        now rewrite <- leb_spec.
      * rewrite leb_spec, !Prim2SF_decimal_any by apply scaled_round_nonneg.
        apply decimal_any_mono. split; [apply scaled_round_nonneg|].
        apply (scaled_round_mono x y m1 e1 m2 e2); try assumption; [lia|].
        now rewrite Ex, Ey.
Qed.

(** A number between two decimals of [d] places, the lower one positive,
    is rounded to a number between them. *)
Lemma toFixed_parse_between (lo hi x : float) :
  (exists m e, Prim2SF lo = S754_finite false m e) ->
  JS.toFixed_parse d lo = lo -> JS.toFixed_parse d hi = hi ->
  (lo <=? x) = true -> (x <=? hi) = true ->
  (lo <=? JS.toFixed_parse d x) = true
  /\ (JS.toFixed_parse d x <=? hi) = true.
Proof.
  intros (m & e & Hlo) Flo Fhi Hlx Hxh.
  assert (Slo : sf_signed false (Prim2SF lo)) by (rewrite Hlo; reflexivity).
  assert (Sx : sf_signed false (Prim2SF x)
               /\ forall s, Prim2SF x <> S754_zero s).
  { rewrite leb_spec, Hlo in Hlx.
    destruct (Prim2SF x) as [s|s| |s mx ex]; try discriminate;
      destruct s; try discriminate; split; try reflexivity; discriminate. }
  destruct Sx as [Sx Nx].
  assert (Shi : sf_signed false (Prim2SF hi)).
  { rewrite leb_spec in Hxh.
    destruct (Prim2SF x) as [s|s| |s mx ex]; try contradiction;
      try (now elim (Nx s)); simpl in Sx; subst s;
      destruct (Prim2SF hi) as [s|s| |s mh eh]; try discriminate;
      destruct s; try discriminate; reflexivity. }
  split.
  - rewrite <- Flo. now apply toFixed_parse_any_mono.
  - rewrite <- Fhi. now apply toFixed_parse_any_mono.
Qed.

End AnyPrecision.

(** ** The speed of the other routes *)

Section RouteSpeeds.
Local Open Scope string_scope.
Local Open Scope float_scope.

(** A number of [-1, 1] times a factor below [2^53] is finite. *)
Lemma unit_scaled_finite (u : float) (m : positive) (e : Z) :
  (-1 <=? u) = true -> (u <=? 1) = true ->
  (Zpos m < 2 ^ 53)%Z -> (e <= 0)%Z ->
  sf_finite (SFmul prec emax (Prim2SF u) (S754_finite false m e)).
Proof.
  intros H0 H1 Hm He.
  rewrite leb_spec in H0, H1.
  change (Prim2SF (-1)) with (S754_finite true 4503599627370496 (-52)) in H0.
  change (Prim2SF 1) with (S754_finite false 4503599627370496 (-52)) in H1.
  destruct (Prim2SF u) as [s|s| |s mu eu] eqn:Hu;
    try discriminate; try (destruct s; discriminate).
  - exact I.
  - destruct (valid_finite u s mu eu Hu) as (Hmu & _ & _).
    assert (Heu : (eu <= -52)%Z).
    { destruct s.
      - unfold SFleb, SFcompare in H0.
        destruct (Z.compare_spec (-52) eu); try discriminate; try lia.
      - unfold SFleb in H1. rewrite SFcompare_pos in H1.
        destruct (Z.compare_spec eu (-52)); try discriminate; lia. }
    simpl SFmul.
    assert (Hs := binary_round_aux_signed (xorb s false) (Zpos (mu * m))
                    (eu + e) loc_Exact ltac:(lia)).
    assert (Hf := binary_round_aux_finite (xorb s false) (Zpos (mu * m))
                    (eu + e) 106 loc_Exact).
    destruct (binary_round_aux prec emax (xorb s false) (Z.pos (mu * m))
                (eu + e) loc_Exact) as [s'|s'| |s' m' e']; try exact I.
    + exfalso. apply (Hf ltac:(rewrite Pos2Z.inj_mul;
                               change (2 ^ 106)%Z with (2 ^ 53 * 2 ^ 53)%Z;
                               nia)
                        ltac:(lia) ltac:(lia) ltac:(lia) s' eq_refl).
    + contradiction.
Qed.

(** The speed expressions of the HIGHWAY, RURAL and MOUNTAIN cases are
    numbers whenever the input speed is one. *)
Lemma highway_expression_number (speed u : float) :
  is_nan speed = false -> (0 <=? u) = true -> (u <? 1) = true ->
  is_nan (speed * 1.2 + u * 10 - 5) = false.
Proof.
  intros Hs H0 H1. apply is_nan_false.
  rewrite sub_spec, add_spec, !mul_spec.
  change (Prim2SF 10) with (S754_finite false 5629499534213120 (-49)).
  change (Prim2SF 5) with (S754_finite false 5629499534213120 (-50)).
  change (Prim2SF 1.2) with (S754_finite false 5404319552844595 (-52)).
  apply SFsub_not_nan; [|exact I].
  apply SFadd_not_nan.
  - apply SFmul_not_nan. now apply is_nan_false.
  - apply random_scaled_finite; try assumption; lia.
Qed.

Lemma rural_expression_number (speed u : float) :
  is_nan speed = false -> (0 <=? u) = true -> (u <? 1) = true ->
  is_nan (speed * 0.9 + u * 15 - 5) = false.
Proof.
  intros Hs H0 H1. apply is_nan_false.
  rewrite sub_spec, add_spec, !mul_spec.
  change (Prim2SF 15) with (S754_finite false 8444249301319680 (-49)).
  change (Prim2SF 5) with (S754_finite false 5629499534213120 (-50)).
  change (Prim2SF 0.9) with (S754_finite false 8106479329266893 (-53)).
  apply SFsub_not_nan; [|exact I].
  apply SFadd_not_nan.
  - apply SFmul_not_nan. now apply is_nan_false.
  - apply random_scaled_finite; try assumption; lia.
Qed.

Lemma mountain_expression_number (speed s : float) :
  is_nan speed = false -> (-1 <=? s) = true -> (s <=? 1) = true ->
  is_nan (speed * 0.8 + s * 25) = false.
Proof.
  intros Hs H0 H1. apply is_nan_false.
  rewrite add_spec, !mul_spec.
  change (Prim2SF 25) with (S754_finite false 7036874417766400 (-48)).
  change (Prim2SF 0.8) with (S754_finite false 7205759403792794 (-53)).
  apply SFadd_not_nan.
  - apply SFmul_not_nan. now apply is_nan_false.
  - apply unit_scaled_finite; try assumption; lia.
Qed.

(** A clamped speed rounded to 2 decimals stays between the bounds. *)
Lemma clamped_speed_range (lo hi x : float) :
  (exists m e, Prim2SF lo = S754_finite false m e) ->
  is_nan hi = false -> (lo <=? hi) = true ->
  JS.toFixed_parse 2 lo = lo -> JS.toFixed_parse 2 hi = hi ->
  is_nan x = false ->
  (lo <=? JS.toFixed_parse 2 (JS.Math_min (JS.Math_max lo x) hi)) = true
  /\ (JS.toFixed_parse 2 (JS.Math_min (JS.Math_max lo x) hi) <=? hi) = true.
Proof.
  intros Hlo Hhi Hle Flo Fhi Hx.
  assert (Nlo : is_nan lo = false).
  { destruct Hlo as (m & e & Hlo). apply is_nan_false. congruence. }
  destruct (clamp_range lo hi x Nlo Hhi Hle Hx) as [H1 H2].
  apply (toFixed_parse_between 2 ltac:(lia)); assumption.
Qed.

(** X14. On the HIGHWAY route the speed of the transformed sample lies in
    [70, 110], whenever the input speed is a number and the draw of
    [Math.random()] lies in [0, 1). *)
Theorem modifyDataForRoute_HIGHWAY_speed_range
  (w : LocalDriveSimulator.Entropy) (dataPoint : DataPoint) :
  is_nan (speed_kmph dataPoint) = false ->
  (0 <=? LocalDriveSimulator.rnd_speed w) = true ->
  (LocalDriveSimulator.rnd_speed w <? 1) = true ->
  let out := LocalDriveSimulator.modifyDataForRoute w dataPoint "HIGHWAY" in
  (70 <=? speed_kmph out) = true /\ (speed_kmph out <=? 110) = true.
Proof.
  intros Hs H0 H1 out.
  assert (Hx := highway_expression_number _ _ Hs H0 H1).
  apply (clamped_speed_range 70 110); try reflexivity; try assumption.
  do 2 eexists; reflexivity.
Qed.

Lemma modifyDataForRoute_HIGHWAY_speed_range_witness :
  let out :=
    LocalDriveSimulator.modifyDataForRoute
      Examples.calm Examples.fast "HIGHWAY" in
  (70 <=? speed_kmph out) = true /\ (speed_kmph out <=? 110) = true
  /\ speed_kmph out = 90.
Proof.
  intros out.
  assert (Hs : is_nan (speed_kmph Examples.fast) = false)
    by (vm_compute; reflexivity).
  assert (H0 : (0 <=? LocalDriveSimulator.rnd_speed Examples.calm) = true)
    by (vm_compute; reflexivity).
  assert (H1 : (LocalDriveSimulator.rnd_speed Examples.calm <? 1) = true)
    by (vm_compute; reflexivity).
  destruct (modifyDataForRoute_HIGHWAY_speed_range
              Examples.calm Examples.fast Hs H0 H1) as [Hlo Hhi].
  split; [exact Hlo|]. split; [exact Hhi|]. vm_compute. reflexivity.
Defined.

(** The speed of the RURAL case, clamped and rounded. *)
Lemma rural_speed_range
  (w : LocalDriveSimulator.Entropy) (dataPoint : DataPoint) :
  is_nan (speed_kmph dataPoint) = false ->
  (0 <=? LocalDriveSimulator.rnd_speed w) = true ->
  (LocalDriveSimulator.rnd_speed w <? 1) = true ->
  (40 <=? speed_kmph
            (LocalDriveSimulator.modifyDataForRoute w dataPoint "RURAL"))
  = true
  /\ (speed_kmph (LocalDriveSimulator.modifyDataForRoute w dataPoint "RURAL")
      <=? 80) = true.
Proof.
  intros Hs H0 H1.
  assert (Hx := rural_expression_number _ _ Hs H0 H1).
  apply (clamped_speed_range 40 80); try reflexivity; try assumption.
  do 2 eexists; reflexivity.
Qed.

(** X15. On the RURAL route the speed of the transformed sample lies in
    [40, 80], whenever the input speed is a number and the draw of
    [Math.random()] lies in [0, 1). *)
Theorem modifyDataForRoute_RURAL_speed_range
  (w : LocalDriveSimulator.Entropy) (dataPoint : DataPoint) :
  is_nan (speed_kmph dataPoint) = false ->
  (0 <=? LocalDriveSimulator.rnd_speed w) = true ->
  (LocalDriveSimulator.rnd_speed w <? 1) = true ->
  let out := LocalDriveSimulator.modifyDataForRoute w dataPoint "RURAL" in
  (40 <=? speed_kmph out) = true /\ (speed_kmph out <=? 80) = true.
Proof. intros Hs H0 H1 out. now apply rural_speed_range. Qed.

Lemma modifyDataForRoute_RURAL_speed_range_witness :
  let out :=
    LocalDriveSimulator.modifyDataForRoute
      Examples.calm Examples.fast "RURAL" in
  (40 <=? speed_kmph out) = true /\ (speed_kmph out <=? 80) = true
  /\ speed_kmph out = 70.
Proof.
  intros out.
  assert (Hs : is_nan (speed_kmph Examples.fast) = false)
    by (vm_compute; reflexivity).
  assert (H0 : (0 <=? LocalDriveSimulator.rnd_speed Examples.calm) = true)
    by (vm_compute; reflexivity).
  assert (H1 : (LocalDriveSimulator.rnd_speed Examples.calm <? 1) = true)
    by (vm_compute; reflexivity).
  destruct (modifyDataForRoute_RURAL_speed_range
              Examples.calm Examples.fast Hs H0 H1) as [Hlo Hhi].
  split; [exact Hlo|]. split; [exact Hhi|]. vm_compute. reflexivity.
Defined.

(** X16. On the MOUNTAIN route the speed of the transformed sample lies in
    [20, 70], whenever the input speed is a number and the value of
    [Math.sin] lies in [-1, 1]. *)
Theorem modifyDataForRoute_MOUNTAIN_speed_range
  (w : LocalDriveSimulator.Entropy) (dataPoint : DataPoint) :
  is_nan (speed_kmph dataPoint) = false ->
  (-1 <=? LocalDriveSimulator.sin_now w) = true ->
  (LocalDriveSimulator.sin_now w <=? 1) = true ->
  let out := LocalDriveSimulator.modifyDataForRoute w dataPoint "MOUNTAIN" in
  (20 <=? speed_kmph out) = true /\ (speed_kmph out <=? 70) = true.
Proof.
  intros Hs H0 H1 out.
  assert (Hx := mountain_expression_number _ _ Hs H0 H1).
  apply (clamped_speed_range 20 70); try reflexivity; try assumption.
  do 2 eexists; reflexivity.
Qed.

Lemma modifyDataForRoute_MOUNTAIN_speed_range_witness :
  let out :=
    LocalDriveSimulator.modifyDataForRoute
      Examples.calm Examples.fast "MOUNTAIN" in
  (20 <=? speed_kmph out) = true /\ (speed_kmph out <=? 70) = true
  /\ speed_kmph out = 60.
Proof.
  intros out.
  assert (Hs : is_nan (speed_kmph Examples.fast) = false)
    by (vm_compute; reflexivity).
  assert (H0 : (-1 <=? LocalDriveSimulator.sin_now Examples.calm) = true)
    by (vm_compute; reflexivity).
  assert (H1 : (LocalDriveSimulator.sin_now Examples.calm <=? 1) = true)
    by (vm_compute; reflexivity).
  destruct (modifyDataForRoute_MOUNTAIN_speed_range
              Examples.calm Examples.fast Hs H0 H1) as [Hlo Hhi].
  split; [exact Hlo|]. split; [exact Hhi|]. vm_compute. reflexivity.
Defined.

End RouteSpeeds.

(** ** The value of a data set *)

Section Counts.
Local Open Scope Z_scope.

(** The number nearest to a natural number, as a binary64 value. *)
Lemma of_Z_sem (p : positive) :
  exists (mz : positive) (ez : Z),
    Prim2SF (JS.of_Z (Zpos p))
    = binary_round_aux prec emax false (Zpos mz) ez loc_Exact
    /\ Zpos mz = Zpos p * 2 ^ (- ez) /\ ez <= 0
    /\ enough_digits (Zpos mz) ez.
Proof.
  destruct (binary_round_sem p 0) as (mz & ez & Hr & Hm & He & Hen).
  exists mz, ez. rewrite Z.sub_0_l in Hm.
  split; [|split; [exact Hm|split; [exact He|exact Hen]]].
  unfold JS.of_Z. cbn [binary_normalize]. rewrite Hr.
  apply Prim2SF_SF2Prim.
  apply (binary_round_aux_valid (Zpos mz) ez loc_Exact (Zpos mz) 1);
    [apply locates_exact; lia|assumption].
Qed.

Lemma of_nat_signed (n : nat) : sf_signed false (Prim2SF (JS.of_nat n)).
Proof.
  unfold JS.of_nat, JS.of_Z. apply SF2Prim_signed_false.
  apply binary_normalize_nonneg. lia.
Qed.

Lemma of_nat_mono (n1 n2 : nat) :
  (n1 <= n2)%nat ->
  SFleb (Prim2SF (JS.of_nat n1)) (Prim2SF (JS.of_nat n2)) = true.
Proof.
  intros Hn. destruct n1 as [|k1].
  - change (Prim2SF (JS.of_nat 0)) with (S754_zero false).
    apply SFleb_zero_l, of_nat_signed.
  - destruct n2 as [|k2]; [lia|]. unfold JS.of_nat. cbn [Z.of_nat].
    assert (Hp : Zpos (Pos.of_succ_nat k1) <= Zpos (Pos.of_succ_nat k2))
      by (rewrite !Zpos_P_of_succ_nat; lia).
    destruct (of_Z_sem (Pos.of_succ_nat k1))
      as (m1 & e1 & -> & Hm1 & He1 & Hen1).
    destruct (of_Z_sem (Pos.of_succ_nat k2))
      as (m2 & e2 & -> & Hm2 & He2 & Hen2).
    apply (binary_round_aux_mono
             (Zpos m1) e1 loc_Exact (Zpos m1) 1
             (Zpos m2) e2 loc_Exact (Zpos m2) 1);
      try (apply locates_exact; lia); try assumption.
    set (B := Z.min e1 e2).
    rewrite !Z.mul_1_r, Hm1, Hm2.
    rewrite <- !Z.mul_assoc, <- !Z.pow_add_r by (unfold B; lia).
    replace (- e1 + (e1 - B)) with (- B) by lia.
    replace (- e2 + (e2 - B)) with (- B) by lia.
    apply Z.mul_le_mono_nonneg_r; [apply Z.pow_nonneg; lia|exact Hp].
Qed.

End Counts.

Section DataValue.
Local Open Scope string_scope.
Local Open Scope float_scope.

(** Scaling by a positive constant. *)
Lemma scale_signed (x c : float) (m : positive) (e : Z) :
  Prim2SF c = S754_finite false m e ->
  sf_signed false (Prim2SF x) -> sf_signed false (Prim2SF (x * c)).
Proof.
  intros Hc Hx. rewrite mul_spec, Hc. now apply SFmul_signed.
Qed.

Lemma scale_mono (x y c : float) (m : positive) (e : Z) :
  Prim2SF c = S754_finite false m e -> (2 ^ 52 <= Zpos m)%Z ->
  sf_signed false (Prim2SF x) -> sf_signed false (Prim2SF y) ->
  (x <=? y) = true -> (x * c <=? y * c) = true.
Proof.
  intros Hc Hm Hx Hy H. rewrite leb_spec, !mul_spec, Hc.
  apply SFmul_mono; try assumption. now rewrite <- leb_spec.
Qed.

Lemma scale_increases (x c : float) (m : positive) (e : Z) :
  Prim2SF c = S754_finite false m e ->
  (2 ^ 52 <= Zpos m)%Z -> (e <= 0)%Z -> (2 ^ (- e) <= Zpos m)%Z ->
  sf_signed false (Prim2SF x) -> (x <=? x * c) = true.
Proof.
  intros Hc Hm He H1 Hx. rewrite leb_spec, mul_spec, Hc.
  now apply SFmul_increases.
Qed.

(** The base values and the factors, as binary64 values. *)
Lemma base_0_05 :
  Prim2SF 0.05 = S754_finite false 7205759403792794 (-57).
Proof. reflexivity. Qed.

Lemma base_0_03 :
  Prim2SF 0.03 = S754_finite false 8646911284551352 (-58).
Proof. reflexivity. Qed.

Lemma base_0_07 :
  Prim2SF 0.07 = S754_finite false 5044031582654956 (-56).
Proof. reflexivity. Qed.

Lemma base_0_04 :
  Prim2SF 0.04 = S754_finite false 5764607523034235 (-57).
Proof. reflexivity. Qed.

Lemma base_0_15 :
  Prim2SF 0.15 = S754_finite false 5404319552844595 (-55).
Proof. reflexivity. Qed.

Lemma factor_1_3 :
  Prim2SF 1.3 = S754_finite false 5854679515581645 (-52).
Proof. reflexivity. Qed.

Lemma factor_1_5 :
  Prim2SF 1.5 = S754_finite false 6755399441055744 (-52).
Proof. reflexivity. Qed.

Lemma factor_1_2 :
  Prim2SF 1.2 = S754_finite false 5404319552844595 (-52).
Proof. reflexivity. Qed.

Lemma factor_1_1 :
  Prim2SF 1.1 = S754_finite false 4953959590107546 (-52).
Proof. reflexivity. Qed.

(** A value, with a bonus factor applied or not, rounded to 4 decimals. *)
Lemma valued_signed (x c : float) (m : positive) (e : Z) (b : bool) :
  Prim2SF c = S754_finite false m e ->
  sf_signed false (Prim2SF x) ->
  sf_signed false (Prim2SF (JS.toFixed_parse 4 (if b then x * c else x))).
Proof.
  intros Hc Hx. apply toFixed_parse_signed.
  destruct b; [now apply (scale_signed x c m e)|assumption].
Qed.

Lemma valued_mono (x y c : float) (m : positive) (e : Z) (b1 b2 : bool) :
  Prim2SF c = S754_finite false m e ->
  (2 ^ 52 <= Zpos m)%Z -> (e <= 0)%Z -> (2 ^ (- e) <= Zpos m)%Z ->
  sf_signed false (Prim2SF x) -> sf_signed false (Prim2SF y) ->
  (x <=? y) = true -> (b1 = true -> b2 = true) ->
  (JS.toFixed_parse 4 (if b1 then x * c else x)
   <=? JS.toFixed_parse 4 (if b2 then y * c else y)) = true.
Proof.
  intros Hc Hm He H1 Hx Hy Hle Hb.
  assert (Sx := scale_signed x c m e Hc Hx).
  assert (Sy := scale_signed y c m e Hc Hy).
  destruct b1, b2; try (specialize (Hb eq_refl); discriminate);
    apply toFixed_parse_mono; try assumption.
  - now apply (scale_mono x y c m e).
  - apply (leb_trans _ y); try assumption.
    now apply (scale_increases y c m e).
Qed.

(** The estimate of each data type on a data set that is not empty. *)
Lemma estimate_LOCATION (dataPoints : list DataPoint) :
  dataPoints <> [] ->
  MarketplaceService.estimateDataValue dataPoints "LOCATION"
  = Returns
      (JS.toFixed_parse 4
         (if existsb MarketplaceService.urban_point dataPoints
          then JS.of_nat (List.length dataPoints) * 0.05 * 1.3
          else JS.of_nat (List.length dataPoints) * 0.05)).
Proof.
  destruct dataPoints as [|s rest]; [congruence|]. intros _.
  unfold MarketplaceService.estimateDataValue.
  change (JSObject.get MarketplaceService.dataTypes "LOCATION")
    with (JSObject.Found
            {| MarketplaceService.name := "Location Data";
               MarketplaceService.description :=
                 "GPS coordinates and movement patterns";
               MarketplaceService.privacyImpact := "High";
               MarketplaceService.baseValue := 0.05;
               MarketplaceService.fields := ["lat"; "lon"; "timestamp"] |}).
  cbn [JSObject.truthy negb MarketplaceService.type_baseValue
       MarketplaceService.baseValue].
  change (String.eqb "LOCATION" "LOCATION") with true. cbv iota.
  now destruct (existsb MarketplaceService.urban_point (s :: rest)).
Qed.

Lemma estimate_DIAGNOSTIC (dataPoints : list DataPoint) :
  dataPoints <> [] ->
  MarketplaceService.estimateDataValue dataPoints "DIAGNOSTIC"
  = Returns
      (JS.toFixed_parse 4
         (if existsb has_dtc dataPoints
          then JS.of_nat (List.length dataPoints) * 0.07 * 1.5
          else JS.of_nat (List.length dataPoints) * 0.07)).
Proof.
  destruct dataPoints as [|s rest]; [congruence|]. intros _.
  unfold MarketplaceService.estimateDataValue.
  change (JSObject.get MarketplaceService.dataTypes "DIAGNOSTIC")
    with (JSObject.Found
            {| MarketplaceService.name := "Diagnostic Information";
               MarketplaceService.description :=
                 "Engine health, error codes, and maintenance data";
               MarketplaceService.privacyImpact := "Low";
               MarketplaceService.baseValue := 0.07;
               MarketplaceService.fields :=
                 ["engine_temp_c"; "dtc_code"; "timestamp"] |}).
  cbn [JSObject.truthy negb MarketplaceService.type_baseValue
       MarketplaceService.baseValue].
  change (String.eqb "DIAGNOSTIC" "LOCATION") with false.
  change (String.eqb "DIAGNOSTIC" "DIAGNOSTIC") with true. cbv iota.
  now destruct (existsb has_dtc (s :: rest)).
Qed.

Lemma estimate_PERFORMANCE (dataPoints : list DataPoint) :
  dataPoints <> [] ->
  MarketplaceService.estimateDataValue dataPoints "PERFORMANCE"
  = Returns
      (JS.toFixed_parse 4
         (if 30 <? JS.Math_max_list (map speed_kmph dataPoints)
                   - JS.Math_min_list (map speed_kmph dataPoints)
          then JS.of_nat (List.length dataPoints) * 0.03 * 1.2
          else JS.of_nat (List.length dataPoints) * 0.03)).
Proof.
  destruct dataPoints as [|s rest]; [congruence|]. intros _.
  unfold MarketplaceService.estimateDataValue.
  change (JSObject.get MarketplaceService.dataTypes "PERFORMANCE")
    with (JSObject.Found
            {| MarketplaceService.name := "Vehicle Performance";
               MarketplaceService.description :=
                 "Engine parameters, speed, and performance metrics";
               MarketplaceService.privacyImpact := "Low";
               MarketplaceService.baseValue := 0.03;
               MarketplaceService.fields :=
                 ["speed_kmph"; "engine_rpm"; "timestamp"] |}).
  cbn [JSObject.truthy negb MarketplaceService.type_baseValue
       MarketplaceService.baseValue].
  change (String.eqb "PERFORMANCE" "LOCATION") with false.
  change (String.eqb "PERFORMANCE" "DIAGNOSTIC") with false.
  change (String.eqb "PERFORMANCE" "PERFORMANCE") with true. cbv iota zeta.
  now destruct (30 <? _).
Qed.

Lemma estimate_FUEL (dataPoints : list DataPoint) :
  dataPoints <> [] ->
  MarketplaceService.estimateDataValue dataPoints "FUEL"
  = Returns (JS.toFixed_parse 4 (JS.of_nat (List.length dataPoints) * 0.04)).
Proof.
  destruct dataPoints as [|s rest]; [congruence|]. intros _. reflexivity.
Qed.

Lemma estimate_COMPLETE (dataPoints : list DataPoint) :
  dataPoints <> [] ->
  MarketplaceService.estimateDataValue dataPoints "COMPLETE"
  = Returns
      (JS.toFixed_parse 4
         (if (100 <? List.length dataPoints)%nat
          then JS.of_nat (List.length dataPoints) * 0.15 * 1.1
          else JS.of_nat (List.length dataPoints) * 0.15)).
Proof.
  destruct dataPoints as [|s rest]; [congruence|]. intros _.
  unfold MarketplaceService.estimateDataValue.
  change (JSObject.get MarketplaceService.dataTypes "COMPLETE")
    with (JSObject.Found
            {| MarketplaceService.name := "Complete Vehicle Data";
               MarketplaceService.description :=
                 "Full vehicle dataset including all parameters";
               MarketplaceService.privacyImpact := "Very High";
               MarketplaceService.baseValue := 0.15;
               MarketplaceService.fields := ["*"] |}).
  cbn [JSObject.truthy negb MarketplaceService.type_baseValue
       MarketplaceService.baseValue].
  change (String.eqb "COMPLETE" "LOCATION") with false.
  change (String.eqb "COMPLETE" "DIAGNOSTIC") with false.
  change (String.eqb "COMPLETE" "PERFORMANCE") with false.
  change (String.eqb "COMPLETE" "COMPLETE") with true. cbv iota.
  now destruct (100 <? _)%nat.
Qed.

(** The plain value of a data set: count times base value. *)
Lemma plain_value (n : nat) (c : float) (m : positive) (e : Z) :
  Prim2SF c = S754_finite false m e ->
  sf_signed false (Prim2SF (JS.of_nat n * c)).
Proof. intros Hc. apply (scale_signed _ c m e Hc), of_nat_signed. Qed.

Lemma plain_value_mono (n1 n2 : nat) (c : float) (m : positive) (e : Z) :
  Prim2SF c = S754_finite false m e -> (2 ^ 52 <= Zpos m)%Z ->
  (n1 <= n2)%nat ->
  (JS.of_nat n1 * c <=? JS.of_nat n2 * c) = true.
Proof.
  intros Hc Hm Hn.
  apply (scale_mono _ _ c m e Hc Hm); try apply of_nat_signed.
  rewrite leb_spec. now apply of_nat_mono.
Qed.

(** X17. For each of the five data types the estimate of a data set is a
    number that is at least the plain value, count times base value
    rounded to 4 decimals, which is itself at least 0: the factors for
    urban positions, diagnostic codes, speed variation and large sets
    never lower an estimate, and no estimate is negative or [NaN]. *)
Theorem estimateDataValue_at_least_plain
  (dataPoints : list DataPoint) (category : string) :
  In category Spec.known_categories ->
  exists t value,
    JSObject.get MarketplaceService.dataTypes category = JSObject.Found t
    /\ MarketplaceService.estimateDataValue dataPoints category
       = Returns value
    /\ (0 <=? value) = true
    /\ (dataPoints <> [] ->
        (0 <=? JS.toFixed_parse 4
                 (JS.of_nat (List.length dataPoints)
                  * MarketplaceService.baseValue t)) = true
        /\ (JS.toFixed_parse 4
              (JS.of_nat (List.length dataPoints)
               * MarketplaceService.baseValue t)
            <=? value) = true).
Proof.
  rewrite known_categories_eq.
  assert (Hgen :
            forall (c k : float) (mc mk : positive) (ec ek : Z) (b : bool),
              Prim2SF c = S754_finite false mc ec ->
              Prim2SF k = S754_finite false mk ek ->
              (2 ^ 52 <= Zpos mk)%Z -> (ek <= 0)%Z ->
              (2 ^ (- ek) <= Zpos mk)%Z ->
              let plain := JS.of_nat (List.length dataPoints) * c in
              let value :=
                JS.toFixed_parse 4 (if b then plain * k else plain) in
              (0 <=? value) = true
              /\ (0 <=? JS.toFixed_parse 4 plain) = true
              /\ (JS.toFixed_parse 4 plain <=? value) = true).
  { intros c k mc mk ec ek b Hc Hk H1 H2 H3 plain value.
    assert (Sp : sf_signed false (Prim2SF plain))
      by apply (plain_value _ c mc ec Hc).
    split; [apply leb_0_signed, (valued_signed plain k mk ek b Hk Sp)|].
    split; [apply leb_0_signed, toFixed_parse_signed, Sp|].
    apply (valued_mono plain plain k mk ek false b Hk H1 H2 H3 Sp Sp);
      [|discriminate].
    apply leb_refl. apply is_nan_false. eapply sf_signed_not_nan, Sp. }
  intros Hin.
  destruct dataPoints as [|s rest] eqn:Ed.
  { destruct (known_category_found category) as (t & Ht);
      [now rewrite known_categories_eq|].
    exists t, 0. repeat split; try assumption; congruence. }
  rewrite <- Ed in *.
  assert (Hne : dataPoints <> []) by (rewrite Ed; discriminate).
  destruct Hin as [<- | [<- | [<- | [<- | [<- | []]]]]].
  - eexists _, _. split; [reflexivity|].
    split; [apply (estimate_LOCATION _ Hne)|].
    cbn [MarketplaceService.baseValue].
    pose proof (Hgen _ _ _ _ _ _
                  ((existsb MarketplaceService.urban_point dataPoints))
                  base_0_05 factor_1_3) as Hg.
    specialize (Hg ltac:(lia) ltac:(lia) ltac:(lia)).
    destruct Hg as (H1 & H2 & H3).
    destruct (existsb MarketplaceService.urban_point dataPoints);
      (split; [exact H1|intros _; split; [exact H2|exact H3]]).
  - eexists _, _. split; [reflexivity|].
    split; [apply (estimate_PERFORMANCE _ Hne)|].
    cbn [MarketplaceService.baseValue].
    pose proof (Hgen _ _ _ _ _ _
                  (30 <? JS.Math_max_list (map speed_kmph dataPoints)
                         - JS.Math_min_list (map speed_kmph dataPoints))
                  base_0_03 factor_1_2) as Hg.
    specialize (Hg ltac:(lia) ltac:(lia) ltac:(lia)).
    destruct Hg as (H1 & H2 & H3).
    destruct (30 <? _);
      (split; [exact H1|intros _; split; [exact H2|exact H3]]).
  - eexists _, _. split; [reflexivity|].
    split; [apply (estimate_DIAGNOSTIC _ Hne)|].
    cbn [MarketplaceService.baseValue].
    pose proof (Hgen _ _ _ _ _ _
                  ((existsb has_dtc dataPoints))
                  base_0_07 factor_1_5) as Hg.
    specialize (Hg ltac:(lia) ltac:(lia) ltac:(lia)).
    destruct Hg as (H1 & H2 & H3).
    destruct (existsb has_dtc dataPoints);
      (split; [exact H1|intros _; split; [exact H2|exact H3]]).
  - eexists _, _. split; [reflexivity|].
    split; [apply (estimate_FUEL _ Hne)|].
    cbn [MarketplaceService.baseValue].
    pose proof (Hgen _ _ _ _ _ _
                  false
                  base_0_04 factor_1_5) as Hg.
    specialize (Hg ltac:(lia) ltac:(lia) ltac:(lia)).
    destruct Hg as (H1 & H2 & H3).
    split; [exact H1|intros _; split; [exact H2|exact H3]].
  - eexists _, _. split; [reflexivity|].
    split; [apply (estimate_COMPLETE _ Hne)|].
    cbn [MarketplaceService.baseValue].
    pose proof (Hgen _ _ _ _ _ _
                  ((100 <? List.length dataPoints)%nat)
                  base_0_15 factor_1_1) as Hg.
    specialize (Hg ltac:(lia) ltac:(lia) ltac:(lia)).
    destruct Hg as (H1 & H2 & H3).
    destruct (100 <? List.length dataPoints)%nat;
      (split; [exact H1|intros _; split; [exact H2|exact H3]]).
Qed.

Lemma estimateDataValue_at_least_plain_witness :
  exists value,
    MarketplaceService.estimateDataValue
      [Examples.reading; Examples.cruising] "DIAGNOSTIC" = Returns value
    /\ (0 <=? value) = true
    /\ (JS.toFixed_parse 4 (2 * 0.07) <=? value) = true
    /\ value = 0.21.
Proof.
  assert (Hin : In "DIAGNOSTIC" Spec.known_categories)
    by (rewrite known_categories_eq; simpl; tauto).
  destruct (estimateDataValue_at_least_plain
              [Examples.reading; Examples.cruising] "DIAGNOSTIC" Hin)
    as (t & value & Ht & Hv & H0 & Hp).
  exists value. split; [exact Hv|]. split; [exact H0|].
  assert (Et : t = {| MarketplaceService.name := "Diagnostic Information";
                      MarketplaceService.description :=
                        "Engine health, error codes, and maintenance data";
                      MarketplaceService.privacyImpact := "Low";
                      MarketplaceService.baseValue := 0.07;
                      MarketplaceService.fields :=
                        ["engine_temp_c"; "dtc_code"; "timestamp"] |}).
  { vm_compute in Ht. now injection Ht as <-. }
  subst t. split; [exact (proj2 (Hp ltac:(discriminate)))|].
  vm_compute in Hv. now injection Hv as <-.
Defined.

(** X18. For the data types LOCATION, DIAGNOSTIC, FUEL and COMPLETE the
    estimate does not decrease when samples are appended.  This fails for
    PERFORMANCE: a sample whose speed is [NaN] makes the speed variation
    [NaN] and the factor 1.2 is lost. *)
Theorem estimateDataValue_append
  (dataPoints more : list DataPoint) (category : string) :
  (In category ["LOCATION"; "DIAGNOSTIC"; "FUEL"; "COMPLETE"] ->
   exists value value',
     MarketplaceService.estimateDataValue dataPoints category
     = Returns value
     /\ MarketplaceService.estimateDataValue (dataPoints ++ more) category
        = Returns value'
     /\ (value <=? value') = true)
  /\ MarketplaceService.estimateDataValue
       (repeat Examples.parked 3 ++ repeat Examples.fast 3) "PERFORMANCE"
     = Returns 0.216
  /\ MarketplaceService.estimateDataValue
       ((repeat Examples.parked 3 ++ repeat Examples.fast 3)
        ++ [Examples.unparsed]) "PERFORMANCE"
     = Returns 0.21.
Proof.
  split; [|split; vm_compute; reflexivity].
  intros Hin.
  assert (Hknown : In category Spec.known_categories).
  { rewrite known_categories_eq. simpl in *. tauto. }
  destruct dataPoints as [|s rest] eqn:Ed.
  { (* from the empty data set *)
    destruct more as [|s' rest']; cbn [app].
    - exists 0, 0. destruct (known_category_found category Hknown) as (t & Ht).
      repeat split.
    - set (all := s' :: rest') in *.
      assert (Hne : all <> []) by discriminate.
      exists 0. 
      destruct Hin as [<- | [<- | [<- | [<- | []]]]];
        eexists; (split; [reflexivity|]);
        [ rewrite (estimate_LOCATION _ Hne)
        | rewrite (estimate_DIAGNOSTIC _ Hne)
        | rewrite (estimate_FUEL _ Hne)
        | rewrite (estimate_COMPLETE _ Hne) ];
        (split; [reflexivity|]); apply leb_0_signed.
      + apply (valued_signed _ _ _ _ _ factor_1_3),
          (plain_value _ _ _ _ base_0_05).
      + apply (valued_signed _ _ _ _ _ factor_1_5),
          (plain_value _ _ _ _ base_0_07).
      + apply toFixed_parse_signed, (plain_value _ _ _ _ base_0_04).
      + apply (valued_signed _ _ _ _ _ factor_1_1),
          (plain_value _ _ _ _ base_0_15). }
  rewrite <- Ed.
  assert (Hne : dataPoints <> []) by (rewrite Ed; discriminate).
  assert (Hne' : (dataPoints ++ more)%list <> []).
  { rewrite Ed. discriminate. }
  assert (Hlen : (List.length dataPoints
                  <= List.length (dataPoints ++ more)%list)%nat)
    by (rewrite length_app; lia).
  clear Ed.
  destruct Hin as [<- | [<- | [<- | [<- | []]]]].
  - rewrite (estimate_LOCATION _ Hne), (estimate_LOCATION _ Hne').
    eexists _, _. split; [reflexivity|]. split; [reflexivity|].
    apply (valued_mono _ _ _ _ _ _ _ factor_1_3);
      try lia; try apply (plain_value _ _ _ _ base_0_05).
    + apply (plain_value_mono _ _ _ _ _ base_0_05); [lia|assumption].
    + rewrite existsb_app. intros ->. reflexivity.
  - rewrite (estimate_DIAGNOSTIC _ Hne), (estimate_DIAGNOSTIC _ Hne').
    eexists _, _. split; [reflexivity|]. split; [reflexivity|].
    apply (valued_mono _ _ _ _ _ _ _ factor_1_5);
      try lia; try apply (plain_value _ _ _ _ base_0_07).
    + apply (plain_value_mono _ _ _ _ _ base_0_07); [lia|assumption].
    + rewrite existsb_app. intros ->. reflexivity.
  - rewrite (estimate_FUEL _ Hne), (estimate_FUEL _ Hne').
    eexists _, _. split; [reflexivity|]. split; [reflexivity|].
    apply toFixed_parse_mono; try apply (plain_value _ _ _ _ base_0_04).
    apply (plain_value_mono _ _ _ _ _ base_0_04); [lia|assumption].
  - rewrite (estimate_COMPLETE _ Hne), (estimate_COMPLETE _ Hne').
    eexists _, _. split; [reflexivity|]. split; [reflexivity|].
    apply (valued_mono _ _ _ _ _ _ _ factor_1_1);
      try lia; try apply (plain_value _ _ _ _ base_0_15).
    + apply (plain_value_mono _ _ _ _ _ base_0_15); [lia|assumption].
    + intros H. apply Nat.ltb_lt in H. apply Nat.ltb_lt. lia.
Qed.

Lemma estimateDataValue_append_witness :
  exists value value',
    MarketplaceService.estimateDataValue [Examples.cruising] "DIAGNOSTIC"
    = Returns value
    /\ MarketplaceService.estimateDataValue
         ([Examples.cruising] ++ [Examples.reading]) "DIAGNOSTIC"
       = Returns value'
    /\ (value <=? value') = true.
Proof.
  exact (proj1 (estimateDataValue_append
                  [Examples.cruising] [Examples.reading] "DIAGNOSTIC")
               ltac:(simpl; tauto)).
Defined.

End DataValue.

(** ** Subtraction and order *)

Section Subtraction.
Local Open Scope Z_scope.

(** The order of two numbers is the order of their mantissas, scaled to
    the smaller exponent. *)
Lemma scaled_compare (x y : float) (m1 : positive) (e1 : Z)
  (m2 : positive) (e2 : Z) (s1 s2 : bool) :
  Prim2SF x = S754_finite s1 m1 e1 ->
  Prim2SF y = S754_finite s2 m2 e2 ->
  match (e1 ?= e2) with
  | Lt => Lt
  | Gt => Gt
  | Eq => Pos.compare_cont Eq m1 m2
  end
  = (Zpos m1 * 2 ^ (e1 - Z.min e1 e2) ?= Zpos m2 * 2 ^ (e2 - Z.min e1 e2)).
Proof.
  intros Hx Hy.
  destruct (valid_finite x s1 m1 e1 Hx) as (L1 & R1 & N1).
  destruct (valid_finite y s2 m2 e2 Hy) as (L2 & R2 & N2).
  change (2 ^ 53) with (2 * 2 ^ 52) in L1, L2.
  destruct (Z.compare_spec e1 e2) as [->|Hlt|Hgt].
  - rewrite Z.min_id, Z.sub_diag, !Z.mul_1_r. reflexivity.
  - symmetry. apply Z.compare_lt_iff.
    replace (Z.min e1 e2) with e1 by lia. rewrite Z.sub_diag, Z.mul_1_r.
    assert (2 ^ 52 <= Zpos m2) by (apply N2; lia).
    assert (2 ^ 1 <= 2 ^ (e2 - e1)) by (apply Z.pow_le_mono_r; lia).
    change (2 ^ 1) with 2 in *. nia.
  - symmetry. apply Z.compare_gt_iff.
    replace (Z.min e1 e2) with e2 by lia. rewrite Z.sub_diag, Z.mul_1_r.
    assert (2 ^ 52 <= Zpos m1) by (apply N1; lia).
    assert (2 ^ 1 <= 2 ^ (e1 - e2)) by (apply Z.pow_le_mono_r; lia).
    change (2 ^ 1) with 2 in *. nia.
Qed.

Lemma SFcompare_value (x y : float) (m1 : positive) (e1 : Z)
  (m2 : positive) (e2 : Z) (s1 s2 : bool) :
  Prim2SF x = S754_finite s1 m1 e1 ->
  Prim2SF y = S754_finite s2 m2 e2 ->
  SFcompare (Prim2SF x) (Prim2SF y)
  = Some (cond_Zopp s1 (Zpos m1 * 2 ^ (e1 - Z.min e1 e2))
          ?= cond_Zopp s2 (Zpos m2 * 2 ^ (e2 - Z.min e1 e2))).
Proof.
  intros Hx Hy.
  pose proof (scaled_compare x y m1 e1 m2 e2 s1 s2 Hx Hy) as Hc.
  rewrite Hx, Hy. unfold SFcompare. f_equal.
  set (V1 := Zpos m1 * 2 ^ (e1 - Z.min e1 e2)) in *.
  set (V2 := Zpos m2 * 2 ^ (e2 - Z.min e1 e2)) in *.
  assert (P1 : 0 < V1)
    by (apply Z.mul_pos_pos; [lia|apply Z.pow_pos_nonneg; lia]).
  assert (P2 : 0 < V2)
    by (apply Z.mul_pos_pos; [lia|apply Z.pow_pos_nonneg; lia]).
  destruct s1, s2; unfold cond_Zopp.
  - rewrite Z.compare_opp, (Z.compare_antisym V1 V2), <- Hc.
    destruct (e1 ?= e2); reflexivity.
  - symmetry. apply Z.compare_lt_iff. lia.
  - symmetry. apply Z.compare_gt_iff. lia.
  - exact Hc.
Qed.

(** A positive integer at an exponent of the format rounds to a positive
    number. *)
Lemma binary_round_positive (p : positive) (e : Z) :
  -1074 <= e ->
  SFltb (S754_zero false) (binary_round prec emax false p e) = true.
Proof.
  intros He.
  destruct (binary_round_sem p e) as (mz & ez & Hr & Hm & Hez & Hen).
  assert (Hs := binary_round_signed false p e).
  assert (Hle : SFleb (S754_finite false 1 (-1074))
                      (binary_round prec emax false p e) = true).
  { change (S754_finite false 1 (-1074))
      with (binary_round_aux prec emax false 1 (-1074) loc_Exact).
    rewrite Hr.
    apply (binary_round_aux_mono 1 (-1074) loc_Exact 1 1
             (Zpos mz) ez loc_Exact (Zpos mz) 1);
      try (apply locates_exact; lia); try assumption.
    - split; [lia|]. reflexivity.
    - rewrite !Z.mul_1_r, !Z.mul_1_l, Hm.
      rewrite <- Z.mul_assoc, <- Z.pow_add_r by lia.
      replace (e - ez + (ez - Z.min (-1074) ez)) with (e - Z.min (-1074) ez)
        by lia.
      assert (2 ^ (-1074 - Z.min (-1074) ez) <= 2 ^ (e - Z.min (-1074) ez))
        by (apply Z.pow_le_mono_r; lia).
      assert (0 < 2 ^ (e - Z.min (-1074) ez))
        by (apply Z.pow_pos_nonneg; lia).
      nia. }
  destruct (binary_round prec emax false p e) as [s|s| |s m' e'];
    simpl in Hs; try contradiction; subst; try discriminate; reflexivity.
Qed.

Lemma binary_round_negative (p : positive) (e : Z) :
  SFltb (S754_zero false) (binary_round prec emax true p e) = false.
Proof.
  assert (Hs := binary_round_signed true p e).
  destruct (binary_round prec emax true p e) as [s|s| |s m' e'];
    simpl in Hs; try contradiction; subst; reflexivity.
Qed.

End Subtraction.

Section FuelUsed.
Local Open Scope float_scope.

(** A difference is positive exactly when the second number is below the
    first: for all numbers, the infinities and [NaN] included. *)
Lemma sub_positive (a b : float) : (0 <? a - b) = (b <? a).
Proof.
  rewrite !ltb_spec, sub_spec.
  change (Prim2SF 0) with (S754_zero false).
  destruct (Prim2SF a) as [sa|sa| |sa ma ea] eqn:Ea;
    destruct (Prim2SF b) as [sb|sb| |sb mb eb] eqn:Eb;
    try (destruct sa, sb; reflexivity);
    try (destruct sa; reflexivity); try (destruct sb; reflexivity);
    try reflexivity.
  unfold SFltb at 2.
  rewrite <- Ea, <- Eb, (SFcompare_value b a mb eb ma ea sb sa Eb Ea).
  rewrite Ea, Eb.
  destruct (valid_finite a sa ma ea Ea) as (_ & Ra & _).
  destruct (valid_finite b sb mb eb Eb) as (_ & Rb & _).
  unfold SF64sub, SFsub. cbv zeta.
  set (ez := Z.min ea eb).
  rewrite (shl_align_fst ma ea ez), (shl_align_fst mb eb ez)
    by (unfold ez; lia).
  replace (Z.min eb ea) with ez by (unfold ez; lia).
  set (A := cond_Zopp sa (Zpos ma * 2 ^ (ea - ez))%Z).
  set (B := cond_Zopp sb (Zpos mb * 2 ^ (eb - ez))%Z).
  unfold binary_normalize.
  destruct (A - B)%Z as [|p|p] eqn:Ed.
  - assert (A = B) by lia. subst B. rewrite H, Z.compare_refl. reflexivity.
  - rewrite binary_round_positive by (unfold ez; lia).
    assert (B < A)%Z by lia.
    now replace (B ?= A)%Z with Lt by (symmetry; now apply Z.compare_lt_iff).
  - rewrite binary_round_negative.
    assert (A < B)%Z by lia.
    now replace (B ?= A)%Z with Gt by (symmetry; now apply Z.compare_gt_iff).
Qed.

End FuelUsed.

(** ** Fuel consumption *)

Section FuelConsumption.
Local Open Scope string_scope.
Local Open Scope float_scope.

Lemma slice_last_nonempty {A} (n : nat) (xs : list A) :
  xs <> [] -> CarDataService.slice_last n xs <> [].
Proof.
  intros Hne. unfold CarDataService.slice_last.
  destruct n as [|n]; [assumption|].
  intros H. apply (f_equal (@List.length A)) in H.
  rewrite length_skipn in H.
  destruct xs as [|x xs]; [congruence|].
  change (List.length (x :: xs)) with (S (List.length xs)) in H.
  change (@List.length A []) with 0%nat in H. lia.
Qed.

(** X19. [calculateFuelConsumption] returns [null] exactly for fewer than
    two samples and never throws.  Otherwise the fuel used is the drop of
    the fuel level over the window, first sample minus last, when the
    level has dropped, and 0 when it has not (or when a level is [NaN]):
    it is never negative and never [NaN]; and the efficiency is 0
    whenever the level has not dropped. *)
Theorem calculateFuelConsumption_report
  (dataPoints : list DataPoint) (timeframeMinutes : nat) :
  ((List.length dataPoints < 2)%nat ->
   CarDataService.calculateFuelConsumption dataPoints timeframeMinutes
   = Returns None)
  /\ ((2 <= List.length dataPoints)%nat ->
      exists first report,
        hd_error (CarDataService.slice_last timeframeMinutes dataPoints)
        = Some first
        /\ CarDataService.calculateFuelConsumption dataPoints timeframeMinutes
           = Returns (Some report)
        /\ (let initialFuel := fuel_level_pct first in
            let finalFuel :=
              fuel_level_pct
                (last (CarDataService.slice_last timeframeMinutes dataPoints)
                      first) in
            CarDataService.fuelUsedPercent report
            = (if finalFuel <? initialFuel then initialFuel - finalFuel
               else 0)
            /\ (0 <=? CarDataService.fuelUsedPercent report) = true
            /\ ((finalFuel <? initialFuel) = false ->
                CarDataService.efficiency report = 0))).
Proof.
  unfold CarDataService.calculateFuelConsumption.
  split.
  - intros H. destruct (Nat.ltb_spec (List.length dataPoints) 2);
      [reflexivity|lia].
  - intros H. destruct (Nat.ltb_spec (List.length dataPoints) 2); [lia|].
    assert (Hne : dataPoints <> [])
      by (destruct dataPoints; simpl in *; [lia|discriminate]).
    pose proof (slice_last_nonempty timeframeMinutes dataPoints Hne) as Hw.
    destruct (CarDataService.slice_last timeframeMinutes dataPoints)
      as [|first rest] eqn:Ew; [congruence|].
    exists first. eexists. split; [reflexivity|]. split; [reflexivity|].
    cbn [CarDataService.fuelUsedPercent CarDataService.efficiency].
    rewrite !sub_positive.
    destruct (fuel_level_pct (last (first :: rest) first)
              <? fuel_level_pct first) eqn:Hdrop.
    + split; [reflexivity|]. split; [|discriminate].
      apply ltb_leb. now rewrite sub_positive.
    + repeat split.
Qed.

Lemma calculateFuelConsumption_report_witness :
  exists report,
    CarDataService.calculateFuelConsumption
      [Examples.reading; Examples.cruising] 60 = Returns (Some report)
    /\ (0 <=? CarDataService.fuelUsedPercent report) = true
    /\ CarDataService.fuelUsedPercent report = 50 - 49.99.
Proof.
  destruct (proj2 (calculateFuelConsumption_report
                     [Examples.reading; Examples.cruising] 60)
                  ltac:(simpl; lia))
    as (first & report & Hf & Hr & Hu & Hn & _).
  exists report. split; [exact Hr|]. split; [exact Hn|].
  injection Hf as <-. rewrite Hu. vm_compute. reflexivity.
Defined.

End FuelConsumption.

(** ** Codes and rewards on the routes *)

Section RouteCodes.
Local Open Scope string_scope.
Local Open Scope float_scope.

(** X20. [modifyDataForRoute] keeps the code of a sample or replaces it by
    a code of the diagnostic catalog: P0420 or P0171 on URBAN, P0420 on
    HIGHWAY, P0300 or P0171 on MOUNTAIN, P0171 on RURAL, and never on
    another route type. *)
Theorem modifyDataForRoute_codes
  (w : LocalDriveSimulator.Entropy) (dataPoint : DataPoint)
  (routeType : string) :
  let out := LocalDriveSimulator.modifyDataForRoute w dataPoint routeType in
  (dtc_code out = dtc_code dataPoint
   \/ exists code info,
       dtc_code out = Some code
       /\ CarDataService.getDiagnosticInfo code = JSObject.Found info)
  /\ (routeType = "URBAN" ->
      dtc_code out = dtc_code dataPoint
      \/ dtc_code out = Some "P0420" \/ dtc_code out = Some "P0171")
  /\ (routeType = "HIGHWAY" ->
      dtc_code out = dtc_code dataPoint \/ dtc_code out = Some "P0420")
  /\ (routeType = "MOUNTAIN" ->
      dtc_code out = dtc_code dataPoint
      \/ dtc_code out = Some "P0300" \/ dtc_code out = Some "P0171")
  /\ (routeType = "RURAL" ->
      dtc_code out = dtc_code dataPoint \/ dtc_code out = Some "P0171")
  /\ (~ In routeType ["URBAN"; "HIGHWAY"; "MOUNTAIN"; "RURAL"] ->
      dtc_code out = dtc_code dataPoint).
Proof.
  intros out. unfold out, LocalDriveSimulator.modifyDataForRoute.
  destruct (String.eqb_spec routeType "URBAN") as [->|N1].
  { cbn [dtc_code].
    destruct (LocalDriveSimulator.rnd_dtc w <? 0.1);
      [destruct (LocalDriveSimulator.rnd_code w <? 0.7)|];
      (split; [try (now left); right; do 2 eexists; split; reflexivity|]);
      repeat split; try discriminate; try tauto;
      intros H; exfalso; apply H; simpl; tauto. }
  destruct (String.eqb_spec routeType "HIGHWAY") as [->|N2].
  { cbn [dtc_code].
    destruct (LocalDriveSimulator.rnd_dtc w <? 0.03);
      (split; [try (now left); right; do 2 eexists; split; reflexivity|]);
      repeat split; try discriminate; try tauto;
      intros H; exfalso; apply H; simpl; tauto. }
  destruct (String.eqb_spec routeType "MOUNTAIN") as [->|N3].
  { cbn [dtc_code].
    destruct (LocalDriveSimulator.rnd_dtc w <? 0.07);
      [destruct (LocalDriveSimulator.rnd_code w <? 0.4)|];
      (split; [try (now left); right; do 2 eexists; split; reflexivity|]);
      repeat split; try discriminate; try tauto;
      intros H; exfalso; apply H; simpl; tauto. }
  destruct (String.eqb_spec routeType "RURAL") as [->|N4].
  { cbn [dtc_code].
    destruct (LocalDriveSimulator.rnd_dtc w <? 0.02);
      (split; [try (now left); right; do 2 eexists; split; reflexivity|]);
      repeat split; try discriminate; try tauto;
      intros H; exfalso; apply H; simpl; tauto. }
  cbn [dtc_code]. split; [now left|]. repeat split; congruence.
Qed.

Lemma modifyDataForRoute_codes_witness :
  let w := {| LocalDriveSimulator.rnd_speed := 0.5;
              LocalDriveSimulator.rnd_dtc := 0.01;
              LocalDriveSimulator.rnd_code := 0.9;
              LocalDriveSimulator.sin_now := 0 |} in
  dtc_code (LocalDriveSimulator.modifyDataForRoute w Examples.fast "RURAL")
  = Some "P0171"
  /\ (dtc_code (LocalDriveSimulator.modifyDataForRoute w Examples.fast "RURAL")
      = dtc_code Examples.fast
      \/ dtc_code
           (LocalDriveSimulator.modifyDataForRoute w Examples.fast "RURAL")
         = Some "P0171").
Proof.
  intros w. split; [vm_compute; reflexivity|].
  exact (proj1 (proj2 (proj2 (proj2 (proj2
           (modifyDataForRoute_codes w Examples.fast "RURAL"))))) eq_refl).
Defined.

(** X21. Every sample produced on the RURAL route is in the efficient
    speed band of the reward, 40 to 80 km/h: its reward is at least
    0.009 = 0.01 * 1.2 * 0.75, whatever the RPM and the code. *)
Theorem rural_sample_reward
  (w : LocalDriveSimulator.Entropy) (dataPoint : DataPoint) :
  is_nan (speed_kmph dataPoint) = false ->
  (0 <=? LocalDriveSimulator.rnd_speed w) = true ->
  (LocalDriveSimulator.rnd_speed w <? 1) = true ->
  (0.009 <=? CarDataService.getDataPointRewardValue
               (LocalDriveSimulator.modifyDataForRoute w dataPoint "RURAL"))
  = true.
Proof.
  intros Hs H0 H1.
  destruct (rural_speed_range w dataPoint Hs H0 H1) as [Hlo Hhi].
  rewrite reward_refines. unfold Spec.pointReward.
  set (out := LocalDriveSimulator.modifyDataForRoute w dataPoint "RURAL") in *.
  rewrite Hlo, Hhi. cbn [andb].
  destruct ((1500 <=? engine_rpm out) && (engine_rpm out <=? 2500));
    (destruct (dtc_code out) as [code|]; [|reflexivity]);
    destruct (rewardImpactPercent_cases code)
      as [[_ ->] | [[_ ->] | [[_ ->] | [_ ->]]]];
    reflexivity.
Qed.

Lemma rural_sample_reward_witness :
  (0.009 <=? CarDataService.getDataPointRewardValue
               (LocalDriveSimulator.modifyDataForRoute
                  Examples.calm Examples.fast "RURAL")) = true
  /\ CarDataService.getDataPointRewardValue
       (LocalDriveSimulator.modifyDataForRoute
          Examples.calm Examples.fast "RURAL") = 0.012.
Proof.
  split; [|vm_compute; reflexivity].
  apply (rural_sample_reward Examples.calm Examples.fast);
    vm_compute; reflexivity.
Defined.

End RouteCodes.
